(** * asyncio_xmpp.xml: the streaming XML generator and the stream processor

    A shallow embedding of [src/asyncio_xmpp/xml.py].  Python objects with
    mutable attributes become records that are threaded through every
    method; a method is a function from the object to the updated object
    and either a return value or the exception it raised.  Attribute
    updates made before a [raise] stay visible, as in Python.

    Strings: a Python [str] is modelled by [string], one character per
    code point below 256; [bytes] is modelled by [string] as well, one
    character per byte.  UTF-8 encodes every such string, so [encode] is
    total; a lone surrogate, on which [str.encode] raises
    [UnicodeEncodeError], is not among the modelled strings.  *)

From Stdlib Require Import String Ascii List ZArith NArith Lia Bool.
From Stdlib Require Import DecimalString DecimalZ DecimalPos.
Import ListNotations.
Local Open Scope string_scope.
Local Open Scope list_scope.
Local Open Scope Z_scope.

(** ** Python values *)

Definition str := string.
Definition bytes := string.

(** A [(namespace_uri, localname)] tuple; the URI may be [None]. *)
Definition name_t : Type := option str * str.

Inductive exn : Type :=
| ValueError (msg : string)
| RuntimeError (msg : string)
| NotImplementedError (msg : string)
| KeyError
| IndexError
| AttributeError
| StreamError (condition : name_t) (text : string).

Inductive result (A : Type) : Type :=
| Ok (a : A)
| Raise (e : exn).
Arguments Ok {A} a.
Arguments Raise {A} e.

Definition is_raise {A} (r : result A) : bool :=
  match r with Ok _ => false | Raise _ => true end.

(** Truth value of [None] or a [str]: [None] and the empty string are false. *)
Definition truthy (o : option str) : bool :=
  match o with
  | Some s => negb (s =? EmptyString)%string
  | None => false
  end.

Definition opt_str_eqb (a b : option str) : bool :=
  match a, b with
  | None, None => true
  | Some x, Some y => (x =? y)%string
  | _, _ => false
  end.

Definition name_eqb (a b : name_t) : bool :=
  opt_str_eqb (fst a) (fst b) && (snd a =? snd b)%string.

(** [c in s] for a one-character [c]. *)
Fixpoint contains_char (c : ascii) (s : string) : bool :=
  match s with
  | EmptyString => false
  | String x r => Ascii.eqb x c || contains_char c r
  end.

(** [s.replace(c, by)] for a one-character [c]. *)
Fixpoint replace_char (c : ascii) (by_ : string) (s : string) : string :=
  match s with
  | EmptyString => EmptyString
  | String x r =>
      if Ascii.eqb x c then (by_ ++ replace_char c by_ r)%string
      else String x (replace_char c by_ r)
  end.

(** [str(n)] for an [int]. *)
Definition str_of_int (n : Z) : str := NilZero.string_of_int (Z.to_int n).

(** ["ns{}".format(n)] *)
Definition ns_format (n : Z) : str := ("ns" ++ str_of_int n)%string.

(** [s.encode("utf-8")], for code points below 256. *)
Definition utf8_char (c : ascii) : bytes :=
  let n := N_of_ascii c in
  if (n <? 128)%N then String c EmptyString
  else String (ascii_of_N (192 + n / 64))
         (String (ascii_of_N (128 + n mod 64)) EmptyString).

Fixpoint encode (s : str) : bytes :=
  match s with
  | EmptyString => EmptyString
  | String c r => (utf8_char c ++ encode r)%string
  end.

(** [xml.sax.saxutils.escape(data)]: three successive replacements,
    ampersand first. *)
Definition escape (data : str) : str :=
  replace_char "<" "&lt;"
    (replace_char ">" "&gt;"
       (replace_char "&" "&amp;" data)).

(** The double quote, as a character and as a string. *)
Definition dquote : ascii := "034".
Definition dquote_str : string := String dquote EmptyString.

(** [xml.sax.saxutils.quoteattr(data)] *)
Definition quoteattr (data : str) : str :=
  let data :=
    replace_char "009" "&#9;"
      (replace_char "013" "&#13;"
         (replace_char "010" "&#10;" (escape data))) in
  if contains_char dquote data then
    if contains_char "'" data then
      (dquote_str ++ replace_char dquote "&quot;" data ++ dquote_str)%string
    else ("'" ++ data ++ "'")%string
  else (dquote_str ++ data ++ dquote_str)%string.

(** ** Dictionaries and sets keyed by [None] or a [str]

    Python dictionaries keep insertion order; assigning to an existing key
    keeps its position. *)

Definition dict (V : Type) : Type := list (option str * V).

Section Dict.
Context {V : Type}.

Fixpoint dict_get (k : option str) (d : dict V) : option V :=
  match d with
  | [] => None
  | (k', v) :: r => if opt_str_eqb k' k then Some v else dict_get k r
  end.

Definition dict_mem (k : option str) (d : dict V) : bool :=
  match dict_get k d with Some _ => true | None => false end.

Fixpoint dict_set (k : option str) (v : V) (d : dict V) : dict V :=
  match d with
  | [] => [(k, v)]
  | (k', v') :: r =>
      if opt_str_eqb k' k then (k', v) :: r else (k', v') :: dict_set k v r
  end.

Fixpoint dict_pop (k : option str) (d : dict V) : dict V :=
  match d with
  | [] => []
  | (k', v') :: r =>
      if opt_str_eqb k' k then r else (k', v') :: dict_pop k r
  end.

(** [d.update(new)] *)
Definition dict_update (d new : dict V) : dict V :=
  fold_left (fun acc kv => dict_set (fst kv) (snd kv) acc) new d.

Definition dict_keys (d : dict V) : list (option str) := map fst d.
End Dict.

Definition pyset : Type := list (option str).

Definition set_mem (k : option str) (s : pyset) : bool :=
  existsb (opt_str_eqb k) s.

Definition set_add (k : option str) (s : pyset) : pyset :=
  if set_mem k s then s else s ++ [k].

Definition set_remove (k : option str) (s : pyset) : pyset :=
  filter (fun x => negb (opt_str_eqb x k)) s.

(** [set(d) - s] *)
Definition keys_minus {V} (d : dict V) (s : pyset) : pyset :=
  filter (fun k => negb (set_mem k s)) (dict_keys d).

(** ** Sorting the pending declarations: [sorted(d.items())]

    Tuples compare lexicographically, strings by code point. *)

Definition opt_str_compare (a b : option str) : comparison :=
  match a, b with
  | Some x, Some y => String.compare x y
  | None, None => Eq
  | None, Some _ => Lt
  | Some _, None => Gt
  end.

Definition item_leb (a b : option str * str) : bool :=
  match opt_str_compare (fst a) (fst b) with
  | Lt => true
  | Gt => false
  | Eq => String.leb (snd a) (snd b)
  end.

Fixpoint insert_sorted (x : option str * str) (l : list (option str * str)) :=
  match l with
  | [] => [x]
  | y :: r => if item_leb x y then x :: l else y :: insert_sorted x r
  end.

Definition sorted_items (d : dict str) : list (option str * str) :=
  fold_right insert_sorted [] d.

(** ** Methods

    A method takes the object before the call and gives the object after
    it and the outcome. *)
Definition M (S A : Type) : Type := S -> S * result A.

Definition ret {S A} (a : A) : M S A := fun g => (g, Ok a).
Definition raise {S A} (e : exn) : M S A := fun g => (g, Raise e).
Definition bind {S A B} (m : M S A) (k : A -> M S B) : M S B :=
  fun g =>
    match m g with
    | (g', Ok a) => k a g'
    | (g', Raise e) => (g', Raise e)
    end.
Definition modify {S} (f : S -> S) : M S unit := fun g => (f g, Ok tt).

Declare Scope method_scope.
Delimit Scope method_scope with method.
Notation "x <- m ;; k" := (bind m (fun x => k))
  (at level 61, m at next level, right associativity) : method_scope.
Notation "m ;;; k" := (bind m (fun _ => k))
  (at level 61, right associativity) : method_scope.
Local Open Scope method_scope.

Fixpoint mapM {S A B} (f : A -> M S B) (l : list A) : M S (list B) :=
  match l with
  | [] => ret []
  | a :: r => b <- f a ;; bs <- mapM f r ;; ret (b :: bs)
  end.

Fixpoint forM_ {S A} (f : A -> M S unit) (l : list A) : M S unit :=
  match l with
  | [] => ret tt
  | a :: r => f a ;;; forM_ f r
  end.


(** Whatever the outcome, the object after [m] is related by [R] to the
    object before it. *)
Definition preserves {S A} (R : S -> S -> Prop) (m : M S A) : Prop :=
  forall s, R s (fst (m s)).

(** ** XMPPXMLGenerator *)

Module Generator.

(** [_ns_prefixes_floating_out] starts as the empty dict [{}] and becomes a
    set once a frame pushed by [_pin_floating_ns_decls] is popped. *)
Inductive floating_out : Type :=
| EmptyDict
| PrefixSet (s : pyset).

Definition floating_out_truthy (f : floating_out) : bool :=
  match f with
  | EmptyDict => false
  | PrefixSet [] => false
  | PrefixSet (_ :: _) => true
  end.

(** An entry of [_ns_map_stack]. *)
Record frame : Type := mkFrame {
  frame_ns_map : dict (option str);
  frame_explicit : floating_out;
  frame_counter : Z
}.

(** The generator object.  The byte sink [out] is kept as the chunks passed
    to [out.write], oldest first, and the number of [out.flush] calls; the
    encoding is UTF-8, which the class requires for XMPP. *)
Record XMPPXMLGenerator : Type := mkGen {
  out_written : list bytes;
  out_flushes : nat;
  _ns_map_stack : list frame;                  (* top of stack first *)
  _curr_ns_map : dict (option str);            (* uri -> prefix *)
  _short_empty_elements : bool;
  _pending_start_element : option name_t;      (* [None] is [False] *)
  _ns_prefixes_floating_in : dict str;         (* prefix -> uri *)
  _ns_prefixes_floating_out : floating_out;
  _ns_auto_prefixes_floating_in : pyset;
  _ns_decls_floating_in : dict (option str);   (* uri -> prefix *)
  _ns_counter : Z;
  (* specification-only: every value returned by [_roll_prefix] so far,
     most recent first *)
  rolled : list str
}.

(** [XMPPXMLGenerator(out, short_empty_elements=...)] on an empty sink *)
Definition new_generator (short_empty_elements : bool) : XMPPXMLGenerator :=
  {| out_written := [];
     out_flushes := 0;
     _ns_map_stack := [mkFrame [] EmptyDict 0];
     _curr_ns_map := [];
     _short_empty_elements := short_empty_elements;
     _pending_start_element := None;
     _ns_prefixes_floating_in := [];
     _ns_prefixes_floating_out := EmptyDict;
     _ns_auto_prefixes_floating_in := [];
     _ns_decls_floating_in := [];
     _ns_counter := -1;
     rolled := [] |}.

(** Methods of the generator. *)
Definition GenM : Type -> Type := M XMPPXMLGenerator.

(** The bytes received by the sink. *)
Definition sink_bytes (g : XMPPXMLGenerator) : bytes :=
  String.concat EmptyString (out_written g).

Definition set_out_written v g :=
  mkGen v (out_flushes g) (_ns_map_stack g) (_curr_ns_map g)
    (_short_empty_elements g) (_pending_start_element g)
    (_ns_prefixes_floating_in g) (_ns_prefixes_floating_out g)
    (_ns_auto_prefixes_floating_in g) (_ns_decls_floating_in g)
    (_ns_counter g) (rolled g).
Definition set_out_flushes v g :=
  mkGen (out_written g) v (_ns_map_stack g) (_curr_ns_map g)
    (_short_empty_elements g) (_pending_start_element g)
    (_ns_prefixes_floating_in g) (_ns_prefixes_floating_out g)
    (_ns_auto_prefixes_floating_in g) (_ns_decls_floating_in g)
    (_ns_counter g) (rolled g).
Definition set_ns_map_stack v g :=
  mkGen (out_written g) (out_flushes g) v (_curr_ns_map g)
    (_short_empty_elements g) (_pending_start_element g)
    (_ns_prefixes_floating_in g) (_ns_prefixes_floating_out g)
    (_ns_auto_prefixes_floating_in g) (_ns_decls_floating_in g)
    (_ns_counter g) (rolled g).
Definition set_curr_ns_map v g :=
  mkGen (out_written g) (out_flushes g) (_ns_map_stack g) v
    (_short_empty_elements g) (_pending_start_element g)
    (_ns_prefixes_floating_in g) (_ns_prefixes_floating_out g)
    (_ns_auto_prefixes_floating_in g) (_ns_decls_floating_in g)
    (_ns_counter g) (rolled g).
Definition set_pending_start_element v g :=
  mkGen (out_written g) (out_flushes g) (_ns_map_stack g) (_curr_ns_map g)
    (_short_empty_elements g) v
    (_ns_prefixes_floating_in g) (_ns_prefixes_floating_out g)
    (_ns_auto_prefixes_floating_in g) (_ns_decls_floating_in g)
    (_ns_counter g) (rolled g).
Definition set_ns_prefixes_floating_in v g :=
  mkGen (out_written g) (out_flushes g) (_ns_map_stack g) (_curr_ns_map g)
    (_short_empty_elements g) (_pending_start_element g)
    v (_ns_prefixes_floating_out g)
    (_ns_auto_prefixes_floating_in g) (_ns_decls_floating_in g)
    (_ns_counter g) (rolled g).
Definition set_ns_prefixes_floating_out v g :=
  mkGen (out_written g) (out_flushes g) (_ns_map_stack g) (_curr_ns_map g)
    (_short_empty_elements g) (_pending_start_element g)
    (_ns_prefixes_floating_in g) v
    (_ns_auto_prefixes_floating_in g) (_ns_decls_floating_in g)
    (_ns_counter g) (rolled g).
Definition set_ns_auto_prefixes_floating_in v g :=
  mkGen (out_written g) (out_flushes g) (_ns_map_stack g) (_curr_ns_map g)
    (_short_empty_elements g) (_pending_start_element g)
    (_ns_prefixes_floating_in g) (_ns_prefixes_floating_out g)
    v (_ns_decls_floating_in g)
    (_ns_counter g) (rolled g).
Definition set_ns_decls_floating_in v g :=
  mkGen (out_written g) (out_flushes g) (_ns_map_stack g) (_curr_ns_map g)
    (_short_empty_elements g) (_pending_start_element g)
    (_ns_prefixes_floating_in g) (_ns_prefixes_floating_out g)
    (_ns_auto_prefixes_floating_in g) v
    (_ns_counter g) (rolled g).
Definition set_ns_counter v g :=
  mkGen (out_written g) (out_flushes g) (_ns_map_stack g) (_curr_ns_map g)
    (_short_empty_elements g) (_pending_start_element g)
    (_ns_prefixes_floating_in g) (_ns_prefixes_floating_out g)
    (_ns_auto_prefixes_floating_in g) (_ns_decls_floating_in g)
    v (rolled g).
Definition set_rolled v g :=
  mkGen (out_written g) (out_flushes g) (_ns_map_stack g) (_curr_ns_map g)
    (_short_empty_elements g) (_pending_start_element g)
    (_ns_prefixes_floating_in g) (_ns_prefixes_floating_out g)
    (_ns_auto_prefixes_floating_in g) (_ns_decls_floating_in g)
    (_ns_counter g) v.

(** [self._write(b)] *)
Definition _write (b : bytes) : GenM unit :=
  modify (fun g => set_out_written (out_written g ++ [b]) g).

(** [self._flush()] *)
Definition _flush : GenM unit :=
  modify (fun g => set_out_flushes (S (out_flushes g)) g).

(** The search loop of [_roll_prefix], from candidate number [n]; the
    bound on the iterations is never reached ([roll_search_free]). *)
Fixpoint roll_search (pending : dict str) (fuel : nat) (n : Z) : Z :=
  match fuel with
  | O => n
  | S fuel' =>
      if dict_mem (Some (ns_format n)) pending
      then roll_search pending fuel' (n + 1)
      else n
  end.

Definition _roll_prefix : GenM str :=
  fun g =>
    let pending := _ns_prefixes_floating_in g in
    let prefix_number :=
      roll_search pending (S (length pending)) (_ns_counter g + 1) in
    let prefix := ns_format prefix_number in
    (set_rolled (prefix :: rolled g) (set_ns_counter prefix_number g),
     Ok prefix).

Definition xml_namespace : str := "http://www.w3.org/XML/1998/namespace".

Section WithValidator.

(** [libxml2.xmlValidateNameValue], the name validator of libxml2, on a
    byte buffer. *)
Variable libxml2_xmlValidateNameValue : bytes -> bool.

Definition xmlValidateNameValue_buf (b : bytes) : bool :=
  if contains_char "000" b then false
  else libxml2_xmlValidateNameValue b.

Definition xmlValidateNameValue_str (s : str) : bool :=
  xmlValidateNameValue_buf (encode s).

(** The first test of [startPrefixMapping]. *)
Definition invalid_prefix (prefix : option str) : bool :=
  match prefix with
  | None => false
  | Some p =>
      (p =? "xml")%string || (p =? "xmlns")%string
      || negb (xmlValidateNameValue_str p)
      || contains_char ":" p
  end.

Definition startPrefixMapping (prefix : option str) (uri : str)
    (auto : bool) : GenM unit :=
  fun g =>
    if invalid_prefix prefix
    then (g, Raise (ValueError "not a valid prefix"))
    else if dict_mem prefix (_ns_prefixes_floating_in g) then
      (g, Raise (ValueError "prefix already declared for next element"))
    else
      let g1 :=
        if auto then
          set_ns_auto_prefixes_floating_in
            (set_add prefix (_ns_auto_prefixes_floating_in g)) g
        else g in
      let g2 :=
        set_ns_prefixes_floating_in
          (dict_set prefix uri (_ns_prefixes_floating_in g1)) g1 in
      (set_ns_decls_floating_in
         (dict_set (Some uri) prefix (_ns_decls_floating_in g2)) g2,
       Ok tt).

(** The end of [_qname] for a namespace bound to [prefix]:
    [":".join((prefix, local))] if the prefix is true, else [local]. *)
Definition join_prefix (prefix : option str) (local : str) : str :=
  if truthy prefix
  then ((match prefix with Some p => p | None => EmptyString end)
        ++ ":" ++ local)%string
  else local.

Definition _qname (name : name_t) (attr : bool) : GenM str :=
  fun g =>
    let (uri, local) := name in
    if contains_char ":" local || negb (xmlValidateNameValue_str local)
    then (g, Raise (ValueError "invalid name"))
    else if truthy uri then
      if opt_str_eqb uri (Some xml_namespace)
      then (g, Ok ("xml:" ++ local)%string)
      else
        match dict_get uri (_curr_ns_map g) with
        | Some prefix => (g, Ok (join_prefix prefix local))
        | None =>
            match dict_get uri (_ns_decls_floating_in g) with
            | Some prefix => (g, Ok (join_prefix prefix local))
            | None =>
                (* namespace is undeclared, we have to declare it.. *)
                (prefix <- _roll_prefix ;;
                 startPrefixMapping (Some prefix)
                   (match uri with Some u => u | None => EmptyString end) true ;;;
                 ret (join_prefix (Some prefix) local)) g
            end
        end
    else if negb attr
            && (dict_mem None (_curr_ns_map g)
                || dict_mem None (_ns_prefixes_floating_in g))
    then (g, Raise (ValueError
               "cannot create unnamespaced element when prefixless namespace is bound"))
    else (g, Ok local).

Definition _finish_pending_start_element : GenM unit :=
  fun g =>
    match _pending_start_element g with
    | None => (g, Ok tt)
    | Some _ => _write ">" (set_pending_start_element None g)
    end.

Definition _pin_floating_ns_decls (old_counter : Z) : GenM (dict str) :=
  fun g =>
    if floating_out_truthy (_ns_prefixes_floating_out g)
    then (g, Raise (RuntimeError "namespace prefix has not been closed"))
    else
      let new_decls := _ns_decls_floating_in g in
      let new_prefixes := _ns_prefixes_floating_in g in
      let g1 :=
        set_ns_map_stack
          (mkFrame (_curr_ns_map g)
             (PrefixSet
                (keys_minus new_prefixes (_ns_auto_prefixes_floating_in g)))
             old_counter
           :: _ns_map_stack g) g in
      let g2 := set_curr_ns_map (dict_update (_curr_ns_map g1) new_decls) g1 in
      let g3 := set_ns_decls_floating_in [] g2 in
      (set_ns_prefixes_floating_in [] g3, Ok new_prefixes).

Definition startDocument : GenM unit := ret tt.

(** An empty attribute list stands for both [None] and [{}]. *)

(** [startElementNS], the block that resolves the element and attribute
    names and rejects an [xmlns] attribute. *)
Definition resolve_names (name : name_t) (attributes : list (name_t * str))
    : GenM (str * list (str * str)) :=
  qname <- _qname name false ;;
  attrib <- mapM (fun av => q <- _qname (fst av) true ;; ret (q, snd av))
              attributes ;;
  (if existsb (fun qa => (fst qa =? "xmlns")%string) attrib
   then raise (ValueError "xmlns not allowed as attribute name")
   else ret tt) ;;;
  ret (qname, attrib).

(** [startElementNS], the block that writes the tag once the declarations
    are pinned. *)
Definition write_open_tag (name : name_t) (qname : str)
    (pending_prefixes : dict str) (attrib : list (str * str)) : GenM unit :=
  _write "<" ;;;
  _write (encode qname) ;;;
  (match dict_get None pending_prefixes with
   | Some uri => _write " xmlns=" ;;; _write (encode (quoteattr uri))
   | None => ret tt
   end) ;;;
  forM_ (fun pu =>
           _write " xmlns" ;;;
           (if truthy (fst pu)
            then _write ":" ;;;
                 _write (encode (match fst pu with
                                 | Some p => p
                                 | None => EmptyString
                                 end))
            else ret tt) ;;;
           _write "=" ;;;
           _write (encode (quoteattr (snd pu))))
    (sorted_items (dict_pop None pending_prefixes)) ;;;
  forM_ (fun qa =>
           _write " " ;;;
           _write (encode (fst qa)) ;;;
           _write "=" ;;;
           _write (encode (quoteattr (snd qa))))
    attrib ;;;
  fun g =>
    if _short_empty_elements g
    then (set_pending_start_element (Some name) g, Ok tt)
    else _write ">" g.

Definition startElementNS (name : name_t)
    (attributes : list (name_t * str)) : GenM unit :=
  _finish_pending_start_element ;;;
  old_counter <- (fun g => (g, Ok (_ns_counter g))) ;;
  qa <- resolve_names name attributes ;;
  pending_prefixes <- _pin_floating_ns_decls old_counter ;;
  write_open_tag name (fst qa) pending_prefixes (snd qa).

Definition endElementNS (name : name_t) : GenM unit :=
  fun g =>
    if floating_out_truthy (_ns_prefixes_floating_out g)
    then (g, Raise (RuntimeError "namespace prefix has not been closed"))
    else
      ((match _pending_start_element g with
        | Some pending =>
            if name_eqb pending name
            then modify (set_pending_start_element None) ;;; _write "/>"
            else
              _write "</" ;;;
              q <- _qname name false ;;
              _write (encode q) ;;;
              _write ">"
        | None =>
            _write "</" ;;;
            q <- _qname name false ;;
            _write (encode q) ;;;
            _write ">"
        end) ;;;
       fun g' =>
         match _ns_map_stack g' with
         | [] => (g', Raise IndexError)
         | f :: stack =>
             (set_ns_counter (frame_counter f)
                (set_ns_prefixes_floating_out (frame_explicit f)
                   (set_curr_ns_map (frame_ns_map f)
                      (set_ns_map_stack stack g'))),
              Ok tt)
         end) g.

Definition endPrefixMapping (prefix : option str) : GenM unit :=
  fun g =>
    match _ns_prefixes_floating_out g with
    | EmptyDict => (g, Raise AttributeError)
    | PrefixSet s =>
        if set_mem prefix s
        then (set_ns_prefixes_floating_out
                (PrefixSet (set_remove prefix s)) g, Ok tt)
        else (g, Raise KeyError)
    end.

(** The control-character test of [characters]. *)
Definition restricted_char (c : ascii) : bool :=
  let n := Z.of_N (N_of_ascii c) in
  ((0 <=? n) && (n <=? 8)) || ((11 <=? n) && (n <=? 12))
  || ((14 <=? n) && (n <=? 31)).

Fixpoint any_char (p : ascii -> bool) (s : str) : bool :=
  match s with
  | EmptyString => false
  | String c r => p c || any_char p r
  end.

Definition characters (chars : str) : GenM unit :=
  _finish_pending_start_element ;;;
  if any_char restricted_char chars
  then raise (ValueError
                "control characters are not allowed in well-formed XML")
  else _write (encode (escape chars)).

Definition startElement : GenM unit :=
  raise (NotImplementedError "namespace-incorrect documents are not supported").

Definition endElement : GenM unit := startElement.

Definition processingInstruction : GenM unit :=
  raise (ValueError "restricted xml: processing instruction forbidden").

Definition skippedEntity : GenM unit :=
  raise (NotImplementedError "skippedEntity").

Definition setDocumentLocator : GenM unit :=
  raise (NotImplementedError "setDocumentLocator").

Definition ignorableWhitespace : GenM unit :=
  raise (NotImplementedError "ignorableWhitespace").

Definition endDocument : GenM unit := ret tt.

Definition flush : GenM unit :=
  _finish_pending_start_element ;;; _flush.

(** *** Call sequences on one generator instance *)

Inductive call : Type :=
| CallStartDocument
| CallStartPrefixMapping (prefix : option str) (uri : str)
| CallStartElementNS (name : name_t) (attributes : list (name_t * str))
| CallCharacters (chars : str)
| CallEndElementNS (name : name_t)
| CallEndPrefixMapping (prefix : option str)
| CallFlush
| CallEndDocument
| CallStartElement
| CallEndElement
| CallProcessingInstruction
| CallSkippedEntity
| CallSetDocumentLocator
| CallIgnorableWhitespace.

Definition perform (c : call) : GenM unit :=
  match c with
  | CallStartDocument => startDocument
  | CallStartPrefixMapping prefix uri => startPrefixMapping prefix uri false
  | CallStartElementNS name attributes => startElementNS name attributes
  | CallCharacters chars => characters chars
  | CallEndElementNS name => endElementNS name
  | CallEndPrefixMapping prefix => endPrefixMapping prefix
  | CallFlush => flush
  | CallEndDocument => endDocument
  | CallStartElement => startElement
  | CallEndElement => endElement
  | CallProcessingInstruction => processingInstruction
  | CallSkippedEntity => skippedEntity
  | CallSetDocumentLocator => setDocumentLocator
  | CallIgnorableWhitespace => ignorableWhitespace
  end.

(** The generator after a sequence of calls; a caller may go on after an
    exception, so the outcomes are kept beside the object. *)
Fixpoint run (cs : list call) (g : XMPPXMLGenerator)
    : XMPPXMLGenerator * list (result unit) :=
  match cs with
  | [] => (g, [])
  | c :: r =>
      let (g1, o) := perform c g in
      let (g2, os) := run r g1 in
      (g2, o :: os)
  end.

Definition is_end_element (c : call) : bool :=
  match c with CallEndElementNS _ => true | _ => false end.

Definition is_start_element (c : call) : bool :=
  match c with CallStartElementNS _ _ => true | _ => false end.

Definition reachable (g : XMPPXMLGenerator) : Prop :=
  exists short cs, fst (run cs (new_generator short)) = g.

End WithValidator.

End Generator.

(** ** XMPPXMLProcessor *)

Module Processor.

Inductive ProcessorState : Type :=
| CLEAN
| STARTED
| STREAM_HEADER_PROCESSED
| STREAM_FOOTER_PROCESSED.

(** [s.split(c)] for a one-character separator. *)
Fixpoint split_char (c : ascii) (s : str) : list str :=
  match s with
  | EmptyString => [EmptyString]
  | String x r =>
      if Ascii.eqb x c then EmptyString :: split_char c r
      else
        match split_char c r with
        | h :: t => String x h :: t
        | [] => [String x EmptyString]
        end
  end.

(** [".".join(l)] *)
Definition join_dot (l : list str) : str := String.concat "." l.

(** Attribute mappings of the parser: keyed by [(uri, localname)]. *)
Definition attrs_t : Type := list (name_t * str).

Fixpoint attrs_get (k : name_t) (d : attrs_t) : option str :=
  match d with
  | [] => None
  | (k', v) :: r => if name_eqb k' k then Some v else attrs_get k r
  end.

Fixpoint attrs_remove (k : name_t) (d : attrs_t) : attrs_t :=
  match d with
  | [] => []
  | (k', v) :: r =>
      if name_eqb k' k then r else (k', v) :: attrs_remove k r
  end.

(** The calls a stanza driver can receive. *)
Inductive driver_event : Type :=
| DriverStartElementNS (name : name_t) (qname : option str)
    (attributes : attrs_t)
| DriverCharacters (characters : str)
| DriverEndElementNS (name : name_t) (qname : option str).

Section WithCollaborators.

(** [namespaces.xmlstream] and [namespaces.streams] of [.utils]. *)
Variables namespaces_xmlstream namespaces_streams : str.

(** [jid.JID] and [jid.JID.fromstr]. *)
Variable JID : Type.
Variable JID_fromstr : str -> result JID.

(** The builtin [int] on a [str]: the integer, or the message of the
    [ValueError]. *)
Variable int : str -> string + Z.

(** [stanza_model.SAXDriver]: its construction from the stanza parser and
    its reaction to a call. *)
Variable StanzaParser : Type.
Variable SAXDriver : Type.
Variable SAXDriver_new : option StanzaParser -> SAXDriver.
Variable SAXDriver_call : driver_event -> SAXDriver -> SAXDriver * result unit.

(** Attributes that are read before they were ever assigned are [None];
    reading them raises [AttributeError]. *)
Record XMPPXMLProcessor : Type := mkProc {
  _state : ProcessorState;
  _stanza_parser : option StanzaParser;
  _depth : option Z;
  _driver : option SAXDriver;          (* unset, or set to [None] *)
  remote_version : option (list Z);
  remote_to : option (option JID);
  remote_from : option JID;
  remote_id : option str;
  (* specification-only: the calls made to a stanza driver so far,
     oldest first *)
  forwarded : list driver_event
}.

Definition ProcM : Type -> Type := M XMPPXMLProcessor.

Definition new_processor : XMPPXMLProcessor :=
  {| _state := CLEAN;
     _stanza_parser := None;
     _depth := None;
     _driver := None;
     remote_version := None;
     remote_to := None;
     remote_from := None;
     remote_id := None;
     forwarded := [] |}.

Definition set_state v p :=
  mkProc v (_stanza_parser p) (_depth p) (_driver p) (remote_version p)
    (remote_to p) (remote_from p) (remote_id p) (forwarded p).
Definition set_stanza_parser v p :=
  mkProc (_state p) v (_depth p) (_driver p) (remote_version p)
    (remote_to p) (remote_from p) (remote_id p) (forwarded p).
Definition set_depth v p :=
  mkProc (_state p) (_stanza_parser p) v (_driver p) (remote_version p)
    (remote_to p) (remote_from p) (remote_id p) (forwarded p).
Definition set_driver v p :=
  mkProc (_state p) (_stanza_parser p) (_depth p) v (remote_version p)
    (remote_to p) (remote_from p) (remote_id p) (forwarded p).
Definition set_remote_version v p :=
  mkProc (_state p) (_stanza_parser p) (_depth p) (_driver p) v
    (remote_to p) (remote_from p) (remote_id p) (forwarded p).
Definition set_remote_to v p :=
  mkProc (_state p) (_stanza_parser p) (_depth p) (_driver p)
    (remote_version p) v (remote_from p) (remote_id p) (forwarded p).
Definition set_remote_from v p :=
  mkProc (_state p) (_stanza_parser p) (_depth p) (_driver p)
    (remote_version p) (remote_to p) v (remote_id p) (forwarded p).
Definition set_remote_id v p :=
  mkProc (_state p) (_stanza_parser p) (_depth p) (_driver p)
    (remote_version p) (remote_to p) (remote_from p) v (forwarded p).
Definition set_forwarded v p :=
  mkProc (_state p) (_stanza_parser p) (_depth p) (_driver p)
    (remote_version p) (remote_to p) (remote_from p) (remote_id p) v.

Definition invalid_state : exn := RuntimeError "invalid state".

Definition restricted_xml (text : string) : exn :=
  StreamError (Some namespaces_streams, "restricted-xml") text.

(** [self._driver.<method>(...)] *)
Definition call_driver (ev : driver_event) : ProcM unit :=
  fun p =>
    match _driver p with
    | None => (p, Raise AttributeError)
    | Some d =>
        let (d', r) := SAXDriver_call ev d in
        (set_forwarded (forwarded p ++ [ev]) (set_driver (Some d') p), r)
    end.

(** [self._depth += k] *)
Definition add_depth (k : Z) : ProcM unit :=
  fun p =>
    match _depth p with
    | None => (p, Raise AttributeError)
    | Some n => (set_depth (Some (n + k)) p, Ok tt)
    end.

Definition set_stanza_parser_property (value : option StanzaParser)
    : ProcM unit :=
  fun p =>
    match _state p with
    | CLEAN => (set_stanza_parser value p, Ok tt)
    | _ => (p, Raise invalid_state)
    end.

Definition comment (data : str) : ProcM unit :=
  raise (restricted_xml "comments are not allowed in XMPP").

Definition startDTD (name : str) (publicId systemId : option str)
    : ProcM unit :=
  raise (restricted_xml "DTD declarations are not allowed in XMPP").

Definition endDTD : ProcM unit := ret tt.

Definition startCDATA : ProcM unit := ret tt.

Definition endCDATA : ProcM unit := ret tt.

Definition PREDEFINED_ENTITIES : list str :=
  ["amp"; "lt"; "gt"; "apos"; "quot"]%string.

Definition startEntity (name : str) : ProcM unit :=
  if existsb (String.eqb name) PREDEFINED_ENTITIES then ret tt
  else raise (restricted_xml
                "non-predefined entities are not allowed in XMPP").

Definition endEntity (name : str) : ProcM unit := ret tt.

Definition processingInstruction (target foo : str) : ProcM unit :=
  raise (restricted_xml "processing instructions are not allowed in XMPP").

Definition characters (chars : str) : ProcM unit :=
  fun p =>
    match _state p with
    | STREAM_HEADER_PROCESSED => call_driver (DriverCharacters chars) p
    | _ => (p, Raise invalid_state)
    end.

Definition startDocument : ProcM unit :=
  fun p =>
    match _state p with
    | CLEAN =>
        (set_driver (Some (SAXDriver_new (_stanza_parser p)))
           (set_depth (Some 0) (set_state STARTED p)),
         Ok tt)
    | _ => (p, Raise invalid_state)
    end.

Definition startElement : ProcM unit :=
  raise (RuntimeError
    "incorrectly configured parser: startElement called (instead of startElementNS)").

Definition endElement : ProcM unit :=
  raise (RuntimeError
    "incorrectly configured parser: endElement called (instead of endElementNS)").

Definition endDocument : ProcM unit :=
  fun p =>
    match _state p with
    | STREAM_FOOTER_PROCESSED =>
        (set_driver None (set_state CLEAN p), Ok tt)
    | _ => (p, Raise invalid_state)
    end.

Definition startPrefixMapping (prefix : option str) (uri : str)
    : ProcM unit := ret tt.

Definition endPrefixMapping (prefix : option str) : ProcM unit := ret tt.

(** [tuple(map(int, l))]: the first failure ends the conversion. *)
Fixpoint map_int (l : list str) : string + list Z :=
  match l with
  | [] => inr []
  | s :: r =>
      match int s with
      | inl msg => inl msg
      | inr n =>
          match map_int r with
          | inl msg => inl msg
          | inr ns => inr (n :: ns)
          end
      end
  end.

Definition version_eqb (v : list Z) : bool :=
  match v with
  | [a; b] => (a =? 1) && (b =? 0)
  | _ => false
  end.

Definition unsupported_version (text : string) : exn :=
  StreamError (Some namespaces_streams, "unsupported-version") text.

Definition undefined_condition (text : string) : exn :=
  StreamError (Some namespaces_streams, "undefined-condition") text.

(** The header branch of [startElementNS], after the state and name
    tests; [attributes] is the copy [dict(attributes)]. *)
Definition process_header (attributes : attrs_t) : ProcM unit :=
  fun p =>
    let version :=
      match attrs_get (None, "version") attributes with
      | Some v => v
      | None => "0.9"
      end in
    let attributes := attrs_remove (None, "version") attributes in
    match map_int (split_char "." version) with
    | inl msg => (p, Raise (unsupported_version msg))
    | inr v =>
        let p := set_remote_version (Some v) p in
        if negb (version_eqb v)
        then (p, Raise (unsupported_version
                          (join_dot (List.map str_of_int v))))
        else
          let to_attr := attrs_get (None, "to") attributes in
          let attributes := attrs_remove (None, "to") attributes in
          match
            match to_attr with
            | None => Ok None
            | Some s =>
                match JID_fromstr s with
                | Ok j => Ok (Some j)
                | Raise e => Raise e
                end
            end
          with
          | Raise e => (p, Raise e)
          | Ok remote_to_value =>
              let p := set_remote_to (Some remote_to_value) p in
              let from_missing :=
                (p, Raise (undefined_condition
                             "from attribute required in response header")) in
              match attrs_get (None, "from") attributes with
              | None => from_missing
              | Some s =>
                  let attributes := attrs_remove (None, "from") attributes in
                  match JID_fromstr s with
                  | Raise KeyError => from_missing
                  | Raise e => (p, Raise e)
                  | Ok j =>
                      let p := set_remote_from (Some j) p in
                      match attrs_get (None, "id") attributes with
                      | None =>
                          (p, Raise (undefined_condition
                             "id attribute required in response header"))
                      | Some i =>
                          let p := set_remote_id (Some i) p in
                          add_depth 1 (set_state STREAM_HEADER_PROCESSED p)
                      end
                  end
              end
          end
    end.

Definition startElementNS (name : name_t) (qname : option str)
    (attributes : attrs_t) : ProcM unit :=
  fun p =>
    match _state p with
    | STREAM_HEADER_PROCESSED =>
        (call_driver (DriverStartElementNS name qname attributes) ;;;
         add_depth 1) p
    | STARTED =>
        if negb (name_eqb name (Some namespaces_xmlstream, "stream"))
        then (p, Raise (StreamError
                          (Some namespaces_streams, "invalid-namespace")
                          "stream has invalid namespace or localname"))
        else process_header attributes p
    | _ => (p, Raise invalid_state)
    end.

Definition endElementNS (name : name_t) (qname : option str)
    : ProcM unit :=
  fun p =>
    match _state p with
    | STREAM_HEADER_PROCESSED =>
        (add_depth (-1) ;;;
         fun p' =>
           match _depth p' with
           | None => (p', Raise AttributeError)
           | Some n =>
               if 0 <? n
               then call_driver (DriverEndElementNS name qname) p'
               else (set_state STREAM_FOOTER_PROCESSED p', Ok tt)
           end) p
    | _ => (p, Raise invalid_state)
    end.

(** *** Callback sequences on one processor instance *)

Inductive callback : Type :=
| CbSetStanzaParser (value : option StanzaParser)
| CbComment (data : str)
| CbStartDTD (name : str) (publicId systemId : option str)
| CbEndDTD
| CbStartCDATA
| CbEndCDATA
| CbStartEntity (name : str)
| CbEndEntity (name : str)
| CbProcessingInstruction (target foo : str)
| CbCharacters (chars : str)
| CbStartDocument
| CbStartElement
| CbEndElement
| CbEndDocument
| CbStartPrefixMapping (prefix : option str) (uri : str)
| CbEndPrefixMapping (prefix : option str)
| CbStartElementNS (name : name_t) (qname : option str)
    (attributes : attrs_t)
| CbEndElementNS (name : name_t) (qname : option str).

Definition perform (c : callback) : ProcM unit :=
  match c with
  | CbSetStanzaParser value => set_stanza_parser_property value
  | CbComment data => comment data
  | CbStartDTD name publicId systemId => startDTD name publicId systemId
  | CbEndDTD => endDTD
  | CbStartCDATA => startCDATA
  | CbEndCDATA => endCDATA
  | CbStartEntity name => startEntity name
  | CbEndEntity name => endEntity name
  | CbProcessingInstruction target foo => processingInstruction target foo
  | CbCharacters chars => characters chars
  | CbStartDocument => startDocument
  | CbStartElement => startElement
  | CbEndElement => endElement
  | CbEndDocument => endDocument
  | CbStartPrefixMapping prefix uri => startPrefixMapping prefix uri
  | CbEndPrefixMapping prefix => endPrefixMapping prefix
  | CbStartElementNS name qname attributes =>
      startElementNS name qname attributes
  | CbEndElementNS name qname => endElementNS name qname
  end.

Fixpoint run (cs : list callback) (p : XMPPXMLProcessor)
    : XMPPXMLProcessor :=
  match cs with
  | [] => p
  | c :: r => run r (fst (perform c p))
  end.

Definition reachable (p : XMPPXMLProcessor) : Prop :=
  exists cs, run cs new_processor = p.

End WithCollaborators.

Arguments _state {JID StanzaParser SAXDriver} x.
Arguments _stanza_parser {JID StanzaParser SAXDriver} x.
Arguments _depth {JID StanzaParser SAXDriver} x.
Arguments _driver {JID StanzaParser SAXDriver} x.
Arguments remote_version {JID StanzaParser SAXDriver} x.
Arguments remote_to {JID StanzaParser SAXDriver} x.
Arguments remote_from {JID StanzaParser SAXDriver} x.
Arguments remote_id {JID StanzaParser SAXDriver} x.
Arguments forwarded {JID StanzaParser SAXDriver} x.
Arguments set_state {JID StanzaParser SAXDriver} v p.
Arguments set_stanza_parser {JID StanzaParser SAXDriver} v p.
Arguments set_depth {JID StanzaParser SAXDriver} v p.
Arguments set_driver {JID StanzaParser SAXDriver} v p.
Arguments set_remote_version {JID StanzaParser SAXDriver} v p.
Arguments set_remote_to {JID StanzaParser SAXDriver} v p.
Arguments set_remote_from {JID StanzaParser SAXDriver} v p.
Arguments set_remote_id {JID StanzaParser SAXDriver} v p.
Arguments set_forwarded {JID StanzaParser SAXDriver} v p.

End Processor.

(** ** write_objects

    [write_objects(f, nsmap)] is a Python generator function.  The generator
    object it returns owns one [XMPPXMLGenerator] on a new sink and is
    resumed by [next], [send], [throw] and [close]; each resumption runs
    the code up to the next [yield], or to the end.  A resumption is
    modelled by a function from the writer at the [yield] to the writer
    afterwards and what the caller observes.  An object sent to the
    generator is given by what its [unparse_to_sax] does with the writer. *)

Module WriteObjects.

Import Generator.

(** What the caller of a resumption observes: the generator is suspended
    at the [yield] again, it has returned ([StopIteration]), or an
    exception has left it. *)
Inductive outcome : Type :=
| Suspended
| Returned
| Raised (e : exn).

Section WithCollaborators.

Variable libxml2_xmlValidateNameValue : bytes -> bool.

(** [namespaces.xmlstream] of [.utils]. *)
Variable namespaces_xmlstream : str.

Definition stream_name : name_t := (Some namespaces_xmlstream, "stream").

(** [nsmap_to_use = {"stream": namespaces.xmlstream}] updated with
    [nsmap]. *)
Definition nsmap_to_use (nsmap : dict str) : dict str :=
  dict_update [(Some "stream", namespaces_xmlstream)] nsmap.

(** The statements before the [try]: the stream header. *)
Definition header (nsmap : dict str) : GenM unit :=
  startDocument ;;;
  forM_ (fun pu : option str * str =>
           startPrefixMapping libxml2_xmlValidateNameValue
             (fst pu) (snd pu) false)
    (nsmap_to_use nsmap) ;;;
  startElementNS libxml2_xmlValidateNameValue stream_name [] ;;;
  flush.

(** The [finally] block. *)
Definition cleanup (abort : bool) (nsmap : dict str) : GenM unit :=
  (if abort then ret tt
   else
     endElementNS libxml2_xmlValidateNameValue stream_name ;;;
     forM_ endPrefixMapping (dict_keys (nsmap_to_use nsmap)) ;;;
     endDocument) ;;;
  flush.

(** The first [next]: the header is written on a new writer, then the
    generator is suspended; an exception of the header leaves the
    generator, the [try] not being entered yet. *)
Definition first_next (nsmap : dict str) : XMPPXMLGenerator * outcome :=
  match header nsmap (new_generator true) with
  | (w, Ok _) => (w, Suspended)
  | (w, Raise e) => (w, Raised e)
  end.

(** [send(obj)]: the object is serialised and the writer flushed; an
    exception runs the [finally] block without abort and then leaves the
    generator, unless the block raises itself. *)
Definition send (nsmap : dict str) (unparse_to_sax : GenM unit)
    (w : XMPPXMLGenerator) : XMPPXMLGenerator * outcome :=
  match (unparse_to_sax ;;; flush) w with
  | (w1, Ok _) => (w1, Suspended)
  | (w1, Raise e) =>
      match cleanup false nsmap w1 with
      | (w2, Ok _) => (w2, Raised e)
      | (w2, Raise e') => (w2, Raised e')
      end
  end.

(** [throw(AbortStream())]: the generator returns through the [finally]
    block with [abort] set. *)
Definition throw_AbortStream (nsmap : dict str) (w : XMPPXMLGenerator)
    : XMPPXMLGenerator * outcome :=
  match cleanup true nsmap w with
  | (w1, Ok _) => (w1, Returned)
  | (w1, Raise e) => (w1, Raised e)
  end.

(** [close()]: [GeneratorExit] is raised at the [yield], the [finally]
    block runs without abort, and [close] returns unless the block
    raises. *)
Definition close (nsmap : dict str) (w : XMPPXMLGenerator)
    : XMPPXMLGenerator * outcome :=
  match cleanup false nsmap w with
  | (w1, Ok _) => (w1, Returned)
  | (w1, Raise e) => (w1, Raised e)
  end.

End WithCollaborators.

End WriteObjects.

(** ** Stand-ins for the external collaborators

    Concrete collaborators for evaluating the model on examples. *)

(** Modelled from the spec: the name validator is an external library
    function with the standard XML 1.0 [Name] grammar; this is that grammar
    on ASCII input (a letter, [_] or [:] first, then also digits, [-] and
    [.]). *)
Definition name_start_char (c : ascii) : bool :=
  let n := N_of_ascii c in
  ((65 <=? n) && (n <=? 90) || (97 <=? n) && (n <=? 122)
   || (n =? 95) || (n =? 58))%N.

Definition name_char (c : ascii) : bool :=
  let n := N_of_ascii c in
  (name_start_char c || (48 <=? n) && (n <=? 57) || (n =? 45) || (n =? 46))%N.

Fixpoint all_chars (p : ascii -> bool) (s : string) : bool :=
  match s with
  | EmptyString => true
  | String c r => p c && all_chars p r
  end.

Definition ascii_name (b : bytes) : bool :=
  match b with
  | EmptyString => false
  | String c r => name_start_char c && all_chars name_char r
  end.

(** The builtin [int] on strings of ASCII digits. *)
Definition int_of_digits (s : str) : string + Z :=
  match s with
  | EmptyString => inl "invalid literal for int() with base 10"
  | _ =>
      if all_chars (fun c => (48 <=? N_of_ascii c) && (N_of_ascii c <=? 57))%N s
      then
        match NilEmpty.uint_of_string s with
        | Some d => inr (Z.of_uint d)
        | None => inl "invalid literal for int() with base 10"
        end
      else inl "invalid literal for int() with base 10"
  end.

(** A stanza driver that accepts every call and keeps no state, and
    addresses kept as the string they were parsed from. *)
Definition unit_driver_call (ev : Processor.driver_event) (d : unit)
    : unit * result unit := (d, Ok tt).

Definition jid_of_str (s : str) : result str := Ok s.

(** The namespace constants of XMPP (RFC 6120) for [namespaces.xmlstream]
    and [namespaces.streams]. *)
Definition rfc_xmlstream : str := "http://etherx.jabber.org/streams".
Definition rfc_streams : str := "urn:ietf:params:xml:ns:xmpp-streams".

(** A processor with the stand-ins, after [startDocument]. *)
Definition started_processor : Processor.XMPPXMLProcessor str unit unit :=
  fst (Processor.startDocument str unit unit (fun _ => tt)
         (Processor.new_processor str unit unit)).

(** Call sequences used as examples. *)
Definition reissue_calls : list Generator.call :=
  [ Generator.CallStartElementNS (Some "uri:one", "a") [];
    Generator.CallEndElementNS (Some "uri:one", "a");
    Generator.CallStartElementNS (Some "uri:two", "b") [] ]%string.

Definition prefixless_parent_calls : list Generator.call :=
  [ Generator.CallStartPrefixMapping None "uri:a";
    Generator.CallStartElementNS (Some "uri:a", "a") [];
    Generator.CallStartElementNS (None, "b") [];
    Generator.CallFlush ]%string.

Definition redeclared_namespace_calls : list Generator.call :=
  [ Generator.CallStartPrefixMapping (Some "p") "uri:a";
    Generator.CallStartElementNS (Some "uri:a", "o") [];
    Generator.CallStartPrefixMapping (Some "q") "uri:a";
    Generator.CallStartElementNS (Some "uri:a", "e") [];
    Generator.CallFlush;
    Generator.CallEndElementNS (Some "uri:a", "e") ]%string.

Definition unclosed_after_auto_calls (prefix : str) : list Generator.call :=
  [ Generator.CallStartElementNS (Some "uri:one", "a") [];
    Generator.CallEndElementNS (Some "uri:one", "a");
    Generator.CallStartPrefixMapping (Some prefix) "uri:two";
    Generator.CallStartElementNS (Some "uri:two", "b") [];
    Generator.CallEndElementNS (Some "uri:two", "b");
    Generator.CallStartElementNS (None, "c") [];
    Generator.CallEndElementNS (None, "c") ]%string.


(** States used as examples: a generator with the prefix [p] announced,
    after the element [b] in its namespace was started, and after it was
    ended; a processor inside the body of a stream. *)
Definition element_b : name_t := (Some "uri:two", "b")%string.

Definition announced_p : Generator.XMPPXMLGenerator :=
  fst (Generator.startPrefixMapping ascii_name (Some "p"%string) "uri:two"
         false (Generator.new_generator true)).

Definition started_b : Generator.XMPPXMLGenerator :=
  fst (Generator.startElementNS ascii_name element_b [] announced_p).

Definition ended_b : Generator.XMPPXMLGenerator :=
  fst (Generator.endElementNS ascii_name element_b started_b).

Definition header_attributes : Processor.attrs_t :=
  [((None, "version"), "1.0"); ((None, "from"), "a@b");
   ((None, "id"), "s1")]%string.

Definition body_processor : Processor.XMPPXMLProcessor str unit unit :=
  fst (Processor.startElementNS rfc_xmlstream rfc_streams str jid_of_str
         int_of_digits unit unit unit_driver_call
         (Some rfc_xmlstream, "stream"%string) None header_attributes
         started_processor).

(** ** Vocabulary of the statements *)

(** The sink after more chunks were written. *)
Definition append_written (bs : list bytes) (g : Generator.XMPPXMLGenerator)
    : Generator.XMPPXMLGenerator :=
  Generator.set_out_written (Generator.out_written g ++ bs) g.

(** The chunks of an open tag: a declaration with a prefix, an attribute,
    and the whole tag up to, and without, its closing [>]. *)
Definition declaration_chunks (pu : option str * str) : list bytes :=
  " xmlns"
  :: (if truthy (fst pu)
      then [":"; encode (match fst pu with Some p => p | None => EmptyString end)]
      else [])
  ++ ["="; encode (quoteattr (snd pu))].

Definition attribute_chunks (qa : str * str) : list bytes :=
  [" "; encode (fst qa); "="; encode (quoteattr (snd qa))].

Definition open_tag_chunks (qname : str) (pending_prefixes : dict str)
    (attrib : list (str * str)) : list bytes :=
  "<" :: encode qname
  :: match dict_get None pending_prefixes with
     | Some uri => [" xmlns="; encode (quoteattr uri)]
     | None => []
     end
  ++ flat_map declaration_chunks
       (sorted_items (dict_pop None pending_prefixes))
  ++ flat_map attribute_chunks attrib.

(** The name a tag of the element [name] carries under the active
    namespace map [m]: the local name behind the prefix that [m] binds to
    the namespace, [xml] for the XML namespace, and the bare local name
    for no namespace or a prefixless binding. *)
Definition tag_name (m : dict (option str)) (name : name_t) : str :=
  if truthy (fst name)
  then if opt_str_eqb (fst name) (Some Generator.xml_namespace)
       then ("xml:" ++ snd name)%string
       else match dict_get (fst name) m with
            | Some prefix => Generator.join_prefix prefix (snd name)
            | None => snd name
            end
  else snd name.

(** Numbers that decrease along the list and lie in [(lo, hi]]; with no
    number, [lo <= hi]. *)
Fixpoint desc_between (lo : Z) (nums : list Z) (hi : Z) : Prop :=
  match nums with
  | [] => lo <= hi
  | n :: r => n <= hi /\ desc_between lo r (n - 1)
  end.

(** From [g] to [g'] the counter did not go back, and the prefixes rolled
    in between carry numbers above the counter of [g], each above the ones
    rolled before it. *)
Definition extends (g g' : Generator.XMPPXMLGenerator) : Prop :=
  exists nums,
    Generator.rolled g' = List.map ns_format nums ++ Generator.rolled g
    /\ desc_between (Generator._ns_counter g) nums (Generator._ns_counter g').

(** Every pending prefix of [g] is still pending in [g']. *)
Definition pending_grows (g g' : Generator.XMPPXMLGenerator) : Prop :=
  forall k,
    dict_mem k (Generator._ns_prefixes_floating_in g) = true ->
    dict_mem k (Generator._ns_prefixes_floating_in g') = true.

(** The code point of a character. *)
Definition code (c : ascii) : Z := Z.of_N (N_of_ascii c).

(** The ASCII control characters: the codes 0 to 31, and 127 (DEL). *)
Definition ascii_control (c : ascii) : Prop := code c <= 31 \/ code c = 127.

(** The control characters below the space other than tab, newline and
    carriage return. *)
Definition forbidden_control (c : ascii) : Prop :=
  code c <= 31 /\ code c <> 9 /\ code c <> 10 /\ code c <> 13.

(** Text with each [&], [>] and [<] replaced by its entity. *)
Definition escape_char (c : ascii) : string :=
  if Ascii.eqb c "&" then "&amp;"
  else if Ascii.eqb c ">" then "&gt;"
  else if Ascii.eqb c "<" then "&lt;"
  else String c EmptyString.

Fixpoint escaped (s : str) : str :=
  match s with
  | EmptyString => EmptyString
  | String c r => (escape_char c ++ escaped r)%string
  end.

(** The pending declarations by URI: no URI is [None] and no URI is
    listed twice. *)
Definition decls_ok (g : Generator.XMPPXMLGenerator) : Prop :=
  dict_mem None (Generator._ns_decls_floating_in g) = false
  /\ NoDup (dict_keys (Generator._ns_decls_floating_in g)).

Definition keeps_decls_ok (g g' : Generator.XMPPXMLGenerator) : Prop :=
  decls_ok g -> decls_ok g'.

(** Resolving names writes nothing and leaves the deferred tag alone. *)
Definition same_sink (g g' : Generator.XMPPXMLGenerator) : Prop :=
  Generator.out_written g' = Generator.out_written g
  /\ Generator._pending_start_element g'
     = Generator._pending_start_element g.

(** Resolving names touches neither the active map, the stack of frames,
    the prefixes still to be closed nor the rendering option. *)
Definition same_scope (g g' : Generator.XMPPXMLGenerator) : Prop :=
  Generator._curr_ns_map g' = Generator._curr_ns_map g
  /\ Generator._ns_map_stack g' = Generator._ns_map_stack g
  /\ Generator._ns_prefixes_floating_out g'
     = Generator._ns_prefixes_floating_out g
  /\ Generator._short_empty_elements g'
     = Generator._short_empty_elements g.

(** Resolving names keeps the pending declaration of every URI, and
    declares no URI that the active map binds. *)
Definition decls_kept (g g' : Generator.XMPPXMLGenerator) : Prop :=
  Generator._curr_ns_map g' = Generator._curr_ns_map g
  /\ (forall k v,
        dict_get k (Generator._ns_decls_floating_in g) = Some v ->
        dict_get k (Generator._ns_decls_floating_in g') = Some v)
  /\ (forall k,
        dict_mem k (Generator._curr_ns_map g) = true ->
        dict_get k (Generator._ns_decls_floating_in g) = None ->
        dict_get k (Generator._ns_decls_floating_in g') = None).

(** The sink of [g'] holds what the sink of [g] held, then more. *)
Definition appends (g g' : Generator.XMPPXMLGenerator) : Prop :=
  exists rest,
    Generator.out_written g' = Generator.out_written g ++ rest.

(** [out.flush] was not called between [g] and [g']. *)
Definition same_flushes (g g' : Generator.XMPPXMLGenerator) : Prop :=
  Generator.out_flushes g' = Generator.out_flushes g.

(** No frame was popped yet: the prefixes to close are still the dict of
    the constructor. *)
Definition never_popped (g g' : Generator.XMPPXMLGenerator) : Prop :=
  Generator._ns_prefixes_floating_out g = Generator.EmptyDict ->
  Generator._ns_prefixes_floating_out g' = Generator.EmptyDict.

(** The prefix [p] stays pending and is not taken for an automatic one. *)
Definition explicit_kept (p : option str)
    (g g' : Generator.XMPPXMLGenerator) : Prop :=
  dict_mem p (Generator._ns_prefixes_floating_in g) = true
  /\ set_mem p (Generator._ns_auto_prefixes_floating_in g) = false ->
  dict_mem p (Generator._ns_prefixes_floating_in g') = true
  /\ set_mem p (Generator._ns_auto_prefixes_floating_in g') = false.

(** A byte that is markup ([<] or [>]) or a control character that
    [characters] refuses. *)
Definition markup_or_control (b : ascii) : bool :=
  Ascii.eqb b "<" || Ascii.eqb b ">" || Generator.restricted_char b.

(** The state that follows a state of the processor. *)
Definition next_state (s : Processor.ProcessorState)
    : Processor.ProcessorState :=
  match s with
  | Processor.CLEAN => Processor.STARTED
  | Processor.STARTED => Processor.STREAM_HEADER_PROCESSED
  | Processor.STREAM_HEADER_PROCESSED => Processor.STREAM_FOOTER_PROCESSED
  | Processor.STREAM_FOOTER_PROCESSED => Processor.CLEAN
  end.

(** The depth and the driver that go with each state of the processor. *)
Definition depth_matches_state {JID StanzaParser SAXDriver}
    (p : Processor.XMPPXMLProcessor JID StanzaParser SAXDriver) : Prop :=
  match Processor._state p with
  | Processor.CLEAN => True
  | Processor.STARTED =>
      Processor._depth p = Some 0 /\ Processor._driver p <> None
  | Processor.STREAM_HEADER_PROCESSED =>
      (exists d, Processor._depth p = Some d /\ 1 <= d)
      /\ Processor._driver p <> None
  | Processor.STREAM_FOOTER_PROCESSED => Processor._depth p = Some 0
  end.

(** The callback that ends a document. *)
Definition is_end_document {StanzaParser}
    (c : Processor.callback StanzaParser) : bool :=
  match c with
  | Processor.CbEndDocument _ => true
  | _ => false
  end.

(** * Properties of the stream processor *)

Lemma opt_str_eqb_refl (a : option str) : opt_str_eqb a a = true.
Proof. destruct a as [s|]; simpl; [apply String.eqb_refl | reflexivity]. Qed.

Lemma opt_str_eqb_eq (a b : option str) : opt_str_eqb a b = true <-> a = b.
Proof.
  destruct a as [x|], b as [y|]; simpl; split; intros H;
    try discriminate; try reflexivity.
  - apply String.eqb_eq in H. now subst.
  - injection H as ->. apply String.eqb_refl.
Qed.

Lemma name_eqb_refl (n : name_t) : name_eqb n n = true.
Proof.
  unfold name_eqb. now rewrite opt_str_eqb_refl, String.eqb_refl.
Qed.

Lemma name_eqb_eq (a b : name_t) : name_eqb a b = true <-> a = b.
Proof.
  unfold name_eqb. destruct a as [u l], b as [u' l']; simpl.
  rewrite andb_true_iff, opt_str_eqb_eq, String.eqb_eq.
  split; [intros [-> ->]; reflexivity | intros [= -> ->]; auto].
Qed.

Section ProcessorFacts.

Variables namespaces_xmlstream namespaces_streams : str.
Variable JID : Type.
Variable JID_fromstr : str -> result JID.
Variable int : str -> string + Z.
Variable StanzaParser : Type.
Variable SAXDriver : Type.
Variable SAXDriver_new : option StanzaParser -> SAXDriver.
Variable SAXDriver_call :
  Processor.driver_event -> SAXDriver -> SAXDriver * result unit.

Local Abbreviation processor :=
  (Processor.XMPPXMLProcessor JID StanzaParser SAXDriver).
Local Abbreviation restricted_xml :=
  (Processor.restricted_xml namespaces_streams).
Local Abbreviation comment :=
  (Processor.comment namespaces_streams JID StanzaParser SAXDriver).
Local Abbreviation startDTD :=
  (Processor.startDTD namespaces_streams JID StanzaParser SAXDriver).
Local Abbreviation startEntity :=
  (Processor.startEntity namespaces_streams JID StanzaParser SAXDriver).
Local Abbreviation processingInstruction :=
  (Processor.processingInstruction namespaces_streams JID StanzaParser
     SAXDriver).
Local Abbreviation startCDATA :=
  (Processor.startCDATA JID StanzaParser SAXDriver).
Local Abbreviation endCDATA :=
  (Processor.endCDATA JID StanzaParser SAXDriver).
Local Abbreviation endDTD :=
  (Processor.endDTD JID StanzaParser SAXDriver).
Local Abbreviation startElementNS :=
  (Processor.startElementNS namespaces_xmlstream namespaces_streams
     JID JID_fromstr int StanzaParser SAXDriver SAXDriver_call).

(** C8.  In every state of the processor (so in every reachable one) the
    [comment], [startDTD] and [processingInstruction] callbacks, and
    [startEntity] for an entity that is not predefined, raise a stream
    error with condition [restricted-xml]; the processor object is left
    as it was, so nothing is forwarded to the stanza driver. *)
Theorem restricted_constructs_raise :
  forall (p : processor) (data name target foo entity : str)
         (publicId systemId : option str),
    ~ In entity Processor.PREDEFINED_ENTITIES ->
    comment data p
      = (p, Raise (restricted_xml "comments are not allowed in XMPP"))
    /\ startDTD name publicId systemId p
      = (p, Raise (restricted_xml "DTD declarations are not allowed in XMPP"))
    /\ startEntity entity p
      = (p, Raise (restricted_xml
                     "non-predefined entities are not allowed in XMPP"))
    /\ processingInstruction target foo p
      = (p, Raise (restricted_xml
                     "processing instructions are not allowed in XMPP"))
    /\ forall r, In r [ comment data p;
                        startDTD name
                          publicId systemId p;
                        startEntity entity p;
                        processingInstruction
                          target foo p ] ->
                 Processor.forwarded (fst r) = Processor.forwarded p
                 /\ Processor._driver (fst r) = Processor._driver p.
Proof.
  intros p data name target foo entity publicId systemId Hent.
  assert (Hmem : existsb (String.eqb entity) Processor.PREDEFINED_ENTITIES
                 = false).
  { destruct (existsb _ _) eqn:E; [|reflexivity].
    apply existsb_exists in E. destruct E as [x [Hin Hx]].
    apply String.eqb_eq in Hx. subst x. contradiction. }
  assert (Hse : startEntity entity p
                = (p, Raise (restricted_xml
                     "non-predefined entities are not allowed in XMPP"))).
  { unfold Processor.startEntity. now rewrite Hmem. }
  repeat split; try reflexivity; try exact Hse;
    simpl in H; rewrite Hse in H;
    repeat (destruct H as [<- | H]; [reflexivity|]); contradiction.
Qed.

(** C10.  [startCDATA], [endCDATA] and [endDTD] return normally in every
    state and leave the whole processor object (state, depth, header
    fields, driver and the calls forwarded to it) as it was, while
    [comment] and [startDTD] are rejected in that same state. *)
Theorem cdata_and_end_dtd_are_noops :
  forall p : processor,
    startCDATA p = (p, Ok tt)
    /\ endCDATA p = (p, Ok tt)
    /\ endDTD p = (p, Ok tt)
    /\ (forall data,
          is_raise (snd (comment data p)) = true)
    /\ (forall name publicId systemId,
          is_raise (snd (startDTD name
                           publicId systemId p)) = true).
Proof.
  intros p. repeat split; reflexivity.
Qed.

(** C2.  In state [STARTED], [startElementNS] for the envelope element
    whose [version] attribute parses to a tuple other than [(1, 0)] raises
    the stream error [unsupported-version], carrying the parsed version;
    [_state] stays [STARTED], the depth, the driver and the other header
    fields are untouched, and only [remote_version] holds the rejected
    tuple. *)
Theorem unsupported_version_keeps_state :
  forall (p : processor) (qname : option str)
         (attributes : Processor.attrs_t) (version : str) (v : list Z),
    Processor._state p = Processor.STARTED ->
    Processor.attrs_get (None, "version"%string) attributes = Some version ->
    Processor.map_int int (Processor.split_char "." version) = inr v ->
    v <> [1; 0] ->
    let r := startElementNS (Some namespaces_xmlstream, "stream"%string)
               qname attributes p in
    snd r = Raise (Processor.unsupported_version namespaces_streams
                     (Processor.join_dot (List.map str_of_int v)))
    /\ fst r = Processor.set_remote_version (Some v) p
    /\ Processor._state (fst r) = Processor.STARTED
    /\ Processor._depth (fst r) = Processor._depth p
    /\ Processor.forwarded (fst r) = Processor.forwarded p.
Proof.
  intros p qname attributes version v Hst Hver Hparse Hne r.
  assert (Hv : Processor.version_eqb v = false).
  { destruct v as [|a [|b [|c t]]]; try reflexivity.
    simpl. destruct (Z.eqb_spec a 1); [|reflexivity].
    destruct (Z.eqb_spec b 0); [|reflexivity].
    subst. now elim Hne. }
  assert (Hr : r = (Processor.set_remote_version (Some v) p,
                    Raise (Processor.unsupported_version namespaces_streams
                             (Processor.join_dot (List.map str_of_int v))))).
  { subst r. unfold Processor.startElementNS. rewrite Hst.
    rewrite name_eqb_refl. simpl negb. cbv iota.
    unfold Processor.process_header. rewrite Hver, Hparse, Hv.
    reflexivity. }
  rewrite Hr. simpl. repeat split; try reflexivity. exact Hst.
Qed.

End ProcessorFacts.

(** * Properties of the generator *)

(** ** Relations between the object before and after a method *)

Section Preserves.

Context {S : Type} (R : S -> S -> Prop).
Hypothesis R_refl : forall s, R s s.
Hypothesis R_trans : forall a b c, R a b -> R b c -> R a c.

Lemma preserves_ret {A} (a : A) : preserves R (ret a).
Proof. intros s. apply R_refl. Qed.

Lemma preserves_raise {A} (e : exn) : preserves R (@raise S A e).
Proof. intros s. apply R_refl. Qed.

Lemma preserves_bind {A B} (m : M S A) (k : A -> M S B) :
  preserves R m -> (forall a, preserves R (k a)) -> preserves R (bind m k).
Proof.
  intros Hm Hk s. unfold bind. specialize (Hm s).
  destruct (m s) as [s1 [a|e]]; simpl in *.
  - eapply R_trans; [exact Hm | apply Hk].
  - exact Hm.
Qed.

Lemma preserves_mapM {A B} (f : A -> M S B) (l : list A) :
  (forall a, preserves R (f a)) -> preserves R (mapM f l).
Proof.
  intros Hf. induction l as [|a l IH]; simpl.
  - apply preserves_ret.
  - apply preserves_bind; [apply Hf|]. intros b.
    apply preserves_bind; [exact IH|]. intros bs. apply preserves_ret.
Qed.

Lemma preserves_forM_ {A} (f : A -> M S unit) (l : list A) :
  (forall a, preserves R (f a)) -> preserves R (forM_ f l).
Proof.
  intros Hf. induction l as [|a l IH]; simpl.
  - apply preserves_ret.
  - apply preserves_bind; [apply Hf | intros _; exact IH].
Qed.

Lemma preserves_modify (f : S -> S) :
  (forall s, R s (f s)) -> preserves R (modify f).
Proof. intros Hf s. apply Hf. Qed.

End Preserves.

(** The methods of the generator are built from a few elementary updates;
    a reflexive and transitive relation kept by those is kept by the
    methods. *)
Section GeneratorPreserves.

Import Generator.

Variable V : bytes -> bool.
Variable R : XMPPXMLGenerator -> XMPPXMLGenerator -> Prop.
Hypothesis R_refl : forall s, R s s.
Hypothesis R_trans : forall a b c, R a b -> R b c -> R a c.

Hypothesis R_write : forall b, preserves R (_write b).
Hypothesis R_pending :
  forall v g, R g (set_pending_start_element v g).
Hypothesis R_roll : preserves R _roll_prefix.
Hypothesis R_declare :
  forall prefix uri auto, preserves R (startPrefixMapping V prefix uri auto).

Lemma preserves_finish_pending :
  preserves R _finish_pending_start_element.
Proof.
  intros g. unfold _finish_pending_start_element.
  destruct (_pending_start_element g); [|apply R_refl].
  eapply R_trans; [apply R_pending | apply R_write].
Qed.

Lemma preserves_qname name attr : preserves R (_qname V name attr).
Proof.
  intros g. unfold _qname. destruct name as [uri local].
  destruct (_ || _); [apply R_refl|].
  destruct (truthy uri).
  - destruct (opt_str_eqb uri (Some xml_namespace)); [apply R_refl|].
    destruct (dict_get uri (_curr_ns_map g)); [apply R_refl|].
    destruct (dict_get uri (_ns_decls_floating_in g)); [apply R_refl|].
    apply (preserves_bind R R_trans); [exact R_roll|].
    intros prefix. apply (preserves_bind R R_trans).
    + apply R_declare.
    + intros _. apply (preserves_ret R R_refl).
  - destruct (_ && _); apply R_refl.
Qed.

Lemma preserves_characters chars : preserves R (characters chars).
Proof.
  unfold characters.
  apply (preserves_bind R R_trans);
    [apply preserves_finish_pending|]. intros _.
  destruct (any_char _ _); [apply (preserves_raise R R_refl) | apply R_write].
Qed.

Lemma preserves_resolve_names name attributes :
  preserves R (resolve_names V name attributes).
Proof.
  unfold resolve_names.
  apply (preserves_bind R R_trans); [apply preserves_qname|].
  intros q. apply (preserves_bind R R_trans).
  - apply (preserves_mapM R R_refl R_trans). intros av.
    apply (preserves_bind R R_trans); [apply preserves_qname|].
    intros q'. apply (preserves_ret R R_refl).
  - intros attrib. apply (preserves_bind R R_trans).
    + destruct (existsb _ _);
        [apply (preserves_raise R R_refl) | apply (preserves_ret R R_refl)].
    + intros _. apply (preserves_ret R R_refl).
Qed.

Lemma preserves_write_open_tag name qname pending attrib :
  preserves R (write_open_tag name qname pending attrib).
Proof.
  unfold write_open_tag.
  repeat (apply (preserves_bind R R_trans); [|intros _]);
    try apply R_write.
  - destruct (dict_get None pending); [|apply (preserves_ret R R_refl)].
    apply (preserves_bind R R_trans); [|intros _]; apply R_write.
  - apply (preserves_forM_ R R_refl R_trans). intros pu.
    repeat (apply (preserves_bind R R_trans); [|intros _]);
      try apply R_write.
    destruct (truthy (fst pu)); [|apply (preserves_ret R R_refl)].
    apply (preserves_bind R R_trans); [|intros _]; apply R_write.
  - apply (preserves_forM_ R R_refl R_trans). intros qa.
    repeat (apply (preserves_bind R R_trans); [|intros _]);
      apply R_write.
  - intros g. destruct (_short_empty_elements g);
      [apply R_pending | apply R_write].
Qed.

End GeneratorPreserves.

Section GeneratorPreservesCalls.

Import Generator.

Variable V : bytes -> bool.
Variable R : XMPPXMLGenerator -> XMPPXMLGenerator -> Prop.
Hypothesis R_refl : forall s, R s s.
Hypothesis R_trans : forall a b c, R a b -> R b c -> R a c.

Hypothesis R_write : forall b, preserves R (_write b).
Hypothesis R_flush : preserves R _flush.
Hypothesis R_pending :
  forall v g, R g (set_pending_start_element v g).
Hypothesis R_roll : preserves R _roll_prefix.
Hypothesis R_declare :
  forall prefix uri auto, preserves R (startPrefixMapping V prefix uri auto).
Hypothesis R_pin : forall c, preserves R (_pin_floating_ns_decls c).
Hypothesis R_close : forall prefix, preserves R (endPrefixMapping prefix).
Hypothesis R_pop :
  forall g f stack,
    _ns_map_stack g = f :: stack ->
    R g (set_ns_counter (frame_counter f)
           (set_ns_prefixes_floating_out (frame_explicit f)
              (set_curr_ns_map (frame_ns_map f)
                 (set_ns_map_stack stack g)))).

Lemma preserves_startElementNS name attributes :
  preserves R (startElementNS V name attributes).
Proof.
  unfold startElementNS.
  apply (preserves_bind R R_trans);
    [now apply preserves_finish_pending|]. intros _.
  apply (preserves_bind R R_trans); [intros g; apply R_refl|].
  intros old_counter.
  apply (preserves_bind R R_trans);
    [now apply preserves_resolve_names|]. intros qa.
  apply (preserves_bind R R_trans); [apply R_pin|]. intros pp.
  now apply preserves_write_open_tag.
Qed.

Lemma preserves_close_tag name :
  preserves R (_write "</" ;;; q <- _qname V name false ;;
               _write (encode q) ;;; _write ">")%method.
Proof.
  apply (preserves_bind R R_trans); [apply R_write|]. intros _.
  apply (preserves_bind R R_trans); [now apply preserves_qname|].
  intros q. apply (preserves_bind R R_trans); [|intros _]; apply R_write.
Qed.

Lemma preserves_endElementNS name : preserves R (endElementNS V name).
Proof.
  intros g. unfold endElementNS.
  destruct (floating_out_truthy _); [apply R_refl|].
  apply (preserves_bind R R_trans).
  - destruct (_pending_start_element g) as [pending|];
      [destruct (name_eqb pending name)|]; try apply preserves_close_tag.
    apply (preserves_bind R R_trans);
      [apply preserves_modify; intros s; apply R_pending
      |intros _; apply R_write].
  - intros _ g'. destruct (_ns_map_stack g') as [|f stack] eqn:E;
      [apply R_refl | now apply R_pop].
Qed.

Lemma preserves_flush : preserves R flush.
Proof.
  unfold flush. apply (preserves_bind R R_trans);
    [now apply preserves_finish_pending | intros _; apply R_flush].
Qed.

(** Every call other than [startElementNS] and [endElementNS]. *)
Lemma preserves_other_calls c :
  match c with
  | CallStartElementNS _ _ | CallEndElementNS _ => True
  | _ => preserves R (perform V c)
  end.
Proof.
  destruct c; simpl; try exact I;
    try (apply (preserves_ret R R_refl));
    try (apply (preserves_raise R R_refl)).
  - apply R_declare.
  - now apply preserves_characters.
  - apply R_close.
  - apply preserves_flush.
Qed.

End GeneratorPreservesCalls.

(** ** What the sink receives *)

Section SinkFacts.

Import Generator.

Lemma write_eq b g : _write b g = (append_written [b] g, Ok tt).
Proof. reflexivity. Qed.

Lemma append_written_nil g : append_written [] g = g.
Proof.
  destruct g. unfold append_written, set_out_written. simpl.
  now rewrite app_nil_r.
Qed.

Lemma append_written_app a b g :
  append_written b (append_written a g) = append_written (a ++ b) g.
Proof.
  unfold append_written, set_out_written. simpl. now rewrite app_assoc.
Qed.

Lemma bind_ok {S A B} (m : M S A) (k : A -> M S B) s s' a :
  m s = (s', Ok a) -> bind m k s = k a s'.
Proof. intros H. unfold bind. now rewrite H. Qed.

Lemma bind_raise {S A B} (m : M S A) (k : A -> M S B) s s' e :
  m s = (s', Raise e) -> bind m k s = (s', Raise e).
Proof. intros H. unfold bind. now rewrite H. Qed.

Lemma forM_written {A} (f : A -> GenM unit) (chunks : A -> list bytes) l :
  (forall a g, f a g = (append_written (chunks a) g, Ok tt)) ->
  forall g, forM_ f l g = (append_written (flat_map chunks l) g, Ok tt).
Proof.
  intros Hf. induction l as [|a l IH]; intros g; simpl.
  - now rewrite append_written_nil.
  - erewrite bind_ok by apply Hf. rewrite IH.
    now rewrite append_written_app.
Qed.

Lemma write_open_tag_eq name qname pending attrib g :
  write_open_tag name qname pending attrib g =
    (let g' := append_written (open_tag_chunks qname pending attrib) g in
     if _short_empty_elements g
     then set_pending_start_element (Some name) g'
     else append_written [">"] g',
     Ok tt).
Proof.
  unfold write_open_tag.
  erewrite bind_ok by apply write_eq.
  erewrite bind_ok by apply write_eq.
  rewrite append_written_app.
  erewrite bind_ok with
    (s' := append_written
             match dict_get None pending with
             | Some uri => [" xmlns="; encode (quoteattr uri)]
             | None => []
             end _) (a := tt).
  2:{ destruct (dict_get None pending).
      - erewrite bind_ok by apply write_eq. rewrite write_eq.
        now rewrite append_written_app.
      - unfold ret. now rewrite append_written_nil. }
  rewrite append_written_app.
  erewrite bind_ok.
  2:{ apply forM_written with (chunks := declaration_chunks).
      intros pu g0. unfold declaration_chunks.
      erewrite bind_ok by apply write_eq.
      destruct (truthy (fst pu)).
      - erewrite bind_ok.
        2:{ erewrite bind_ok by apply write_eq. apply write_eq. }
        erewrite bind_ok by apply write_eq. rewrite write_eq.
        now rewrite !append_written_app.
      - unfold ret at 1. erewrite bind_ok by reflexivity.
        erewrite bind_ok by apply write_eq. rewrite write_eq.
        now rewrite !append_written_app. }
  rewrite append_written_app.
  erewrite bind_ok.
  2:{ apply forM_written with (chunks := attribute_chunks).
      intros qa g0. unfold attribute_chunks.
      do 3 (erewrite bind_ok by apply write_eq). rewrite write_eq.
      now rewrite !append_written_app. }
  rewrite append_written_app.
  unfold open_tag_chunks. simpl app.
  rewrite <- !app_assoc.
  match goal with
  | |- context [_short_empty_elements (append_written ?x g)] =>
      change (_short_empty_elements (append_written x g))
        with (_short_empty_elements g)
  end.
  destruct (_short_empty_elements g); reflexivity.
Qed.

End SinkFacts.

Section ValidationFacts.

Import Generator.

Variable V : bytes -> bool.

Lemma same_sink_refl g : same_sink g g.
Proof. now split. Qed.

Lemma same_sink_trans a b c : same_sink a b -> same_sink b c -> same_sink a c.
Proof. intros [H1 H2] [H3 H4]. split; congruence. Qed.

Lemma same_sink_roll : preserves same_sink _roll_prefix.
Proof. intros g. now split. Qed.

Lemma same_sink_declare prefix uri auto :
  preserves same_sink (startPrefixMapping V prefix uri auto).
Proof.
  intros g. unfold startPrefixMapping.
  destruct (invalid_prefix V prefix); [apply same_sink_refl|].
  destruct (dict_mem _ _); [apply same_sink_refl|].
  destruct auto; now split.
Qed.

Lemma same_sink_pin c : preserves same_sink (_pin_floating_ns_decls c).
Proof.
  intros g. unfold _pin_floating_ns_decls.
  destruct (floating_out_truthy _); now split.
Qed.

Lemma same_sink_resolve_names name attributes :
  preserves same_sink (resolve_names V name attributes).
Proof.
  apply preserves_resolve_names.
  - exact same_sink_refl.
  - exact same_sink_trans.
  - exact same_sink_roll.
  - exact same_sink_declare.
Qed.

(** C9.  When a start tag is still deferred, [startElementNS] writes its
    closing [>] first: whatever the outcome, the sink holds what it held
    and then [>]; if the call raises (while resolving the names or pinning
    the declarations), that [>] is exactly what the failed call has
    written, and the deferred tag is no longer pending. *)
Theorem startElementNS_error_not_atomic :
  forall (g : XMPPXMLGenerator) (pending name : name_t)
         (attributes : list (name_t * str)),
    _pending_start_element g = Some pending ->
    let r := startElementNS V name attributes g in
    (exists rest, out_written (fst r) = out_written g ++ ">" :: rest)
    /\ (is_raise (snd r) = true ->
        out_written (fst r) = out_written g ++ [">"]
        /\ _pending_start_element (fst r) = None).
Proof.
  intros g pending name attributes Hp r. subst r.
  unfold startElementNS.
  assert (Hfin : _finish_pending_start_element g
                 = (append_written [">"] (set_pending_start_element None g),
                    Ok tt)).
  { unfold _finish_pending_start_element. now rewrite Hp. }
  erewrite bind_ok by exact Hfin.
  set (g0 := append_written [">"] (set_pending_start_element None g)).
  erewrite bind_ok by reflexivity.
  pose proof (same_sink_resolve_names name attributes g0) as [Hw1 Hp1].
  destruct (resolve_names V name attributes g0) as [g1 [qa|e]] eqn:E1;
    simpl in Hw1, Hp1.
  2:{ erewrite bind_raise by exact E1. simpl. rewrite Hw1, Hp1.
      split; [exists []|]; auto. }
  erewrite bind_ok by exact E1.
  pose proof (same_sink_pin (_ns_counter g0) g1) as [Hw2 Hp2].
  destruct (_pin_floating_ns_decls (_ns_counter g0) g1) as [g2 [pp|e]] eqn:E2;
    simpl in Hw2, Hp2.
  2:{ erewrite bind_raise by exact E2. simpl. rewrite Hw2, Hp2, Hw1, Hp1.
      split; [exists []|]; auto. }
  erewrite bind_ok by exact E2.
  rewrite write_open_tag_eq. simpl snd. split; [|discriminate].
  simpl fst. destruct (_short_empty_elements g2); simpl; rewrite Hw2, Hw1;
    simpl; rewrite <- !app_assoc; simpl; eauto.
Qed.

End ValidationFacts.

(** ** Automatic prefixes *)

Lemma str_of_int_inj a b : str_of_int a = str_of_int b -> a = b.
Proof.
  unfold str_of_int. intros H.
  assert (Hnn : forall z, Z.to_int z <> Decimal.Pos Decimal.Nil
                          /\ Z.to_int z <> Decimal.Neg Decimal.Nil).
  { intros [|p|p]; simpl; split; try discriminate;
      intros [= E]; now apply DecimalPos.Unsigned.to_uint_nonnil in E. }
  apply DecimalZ.to_int_inj.
  assert (E : NilZero.int_of_string (NilZero.string_of_int (Z.to_int a))
              = NilZero.int_of_string (NilZero.string_of_int (Z.to_int b)))
    by now rewrite H.
  rewrite !NilZero.isi in E by apply Hnn. now injection E.
Qed.

Lemma NoDup_map_injective {A B} (f : A -> B) (l : list A) :
  (forall a b, f a = f b -> a = b) -> NoDup l -> NoDup (List.map f l).
Proof.
  intros Hf Hl. induction Hl as [|x l Hx Hl IH]; simpl; constructor; auto.
  intros Hin. apply in_map_iff in Hin. destruct Hin as [y [Hy Hin]].
  apply Hf in Hy. now subst.
Qed.

Lemma ns_format_inj a b : ns_format a = ns_format b -> a = b.
Proof.
  unfold ns_format. simpl. intros [= H]. now apply str_of_int_inj.
Qed.

Lemma dict_mem_In {V} k (d : dict V) :
  dict_mem k d = true -> In k (dict_keys d).
Proof.
  unfold dict_mem. induction d as [|[k' v] d IH]; simpl; [discriminate|].
  destruct (opt_str_eqb k' k) eqn:E.
  - apply opt_str_eqb_eq in E. now left.
  - intros H. right. now apply IH.
Qed.

Lemma roll_search_ge pending fuel n : n <= Generator.roll_search pending fuel n.
Proof.
  revert n. induction fuel as [|fuel IH]; intros n; simpl; [lia|].
  destruct (dict_mem _ _); [|lia]. specialize (IH (n + 1)). lia.
Qed.

(** The search ends on a free candidate, or it used every iteration on a
    taken one. *)
Lemma roll_search_cases pending fuel n :
  dict_mem (Some (ns_format (Generator.roll_search pending fuel n))) pending
    = false
  \/ forall i, (i < fuel)%nat ->
       dict_mem (Some (ns_format (n + Z.of_nat i))) pending = true.
Proof.
  revert n. induction fuel as [|fuel IH]; intros n; simpl.
  - right. intros i Hi. lia.
  - destruct (dict_mem (Some (ns_format n)) pending) eqn:E; [|now left].
    destruct (IH (n + 1)) as [H|H]; [now left|]. right.
    intros [|i] Hi.
    + now rewrite Z.add_0_r.
    + replace (n + Z.of_nat (S i)) with (n + 1 + Z.of_nat i) by lia.
      apply H. lia.
Qed.

(** The loop of [_roll_prefix] ends within the iterations of [roll_search]:
    the prefix it settles on is not pending. *)
Lemma roll_search_free pending n :
  dict_mem
    (Some (ns_format (Generator.roll_search pending (S (length pending)) n)))
    pending = false.
Proof.
  destruct (roll_search_cases pending (S (length pending)) n) as [H|H];
    [exact H|]. exfalso.
  set (cands := List.map (fun i => Some (ns_format (n + Z.of_nat i)))
                  (seq 0 (S (length pending)))).
  assert (Hnd : NoDup cands).
  { apply NoDup_map_injective; [|apply seq_NoDup].
    intros i j E. assert (E' : n + Z.of_nat i = n + Z.of_nat j)
      by (apply ns_format_inj; congruence). lia. }
  assert (Hincl : incl cands (dict_keys pending)).
  { intros k Hk. apply in_map_iff in Hk. destruct Hk as [i [<- Hi]].
    apply in_seq in Hi. apply dict_mem_In, H. lia. }
  pose proof (NoDup_incl_length Hnd Hincl) as Hlen.
  unfold cands, dict_keys in Hlen.
  rewrite !length_map, length_seq in Hlen. lia.
Qed.

Lemma desc_between_weaken lo nums hi hi' :
  hi <= hi' -> desc_between lo nums hi -> desc_between lo nums hi'.
Proof.
  destruct nums as [|n r]; simpl; [lia|]. intros Hle [H1 H2]. split; [lia|auto].
Qed.

Lemma desc_between_le lo nums hi : desc_between lo nums hi -> lo <= hi.
Proof.
  revert hi. induction nums as [|n r IH]; simpl; intros hi; [lia|].
  intros [H1 H2]. apply IH in H2. lia.
Qed.

Lemma desc_between_app lo a mid b hi :
  desc_between lo a mid -> desc_between mid b hi ->
  desc_between lo (b ++ a) hi.
Proof.
  revert hi. induction b as [|n r IH]; simpl; intros hi Ha Hb.
  - eapply desc_between_weaken; eauto.
  - destruct Hb as [H1 H2]. split; [exact H1 | now apply IH].
Qed.

Lemma desc_between_bounds lo nums hi :
  desc_between lo nums hi -> forall x, In x nums -> lo < x <= hi.
Proof.
  revert hi. induction nums as [|n r IH]; simpl; intros hi H x Hx;
    [contradiction|].
  destruct H as [H1 H2]. destruct Hx as [<-|Hx].
  - apply desc_between_le in H2. lia.
  - specialize (IH _ H2 x Hx). lia.
Qed.

Lemma desc_between_NoDup lo nums hi :
  desc_between lo nums hi -> NoDup nums.
Proof.
  revert hi. induction nums as [|n r IH]; simpl; intros hi H; constructor.
  - destruct H as [_ H2]. intros Hin.
    pose proof (desc_between_bounds _ _ _ H2 n Hin). lia.
  - destruct H as [_ H2]. eauto.
Qed.

Section ExtendsFacts.

Import Generator.

Variable V : bytes -> bool.

Lemma extends_refl g : extends g g.
Proof. exists []. simpl. split; [reflexivity | lia]. Qed.

Lemma extends_trans a b c : extends a b -> extends b c -> extends a c.
Proof.
  intros [n1 [E1 D1]] [n2 [E2 D2]]. exists (n2 ++ n1). split.
  - rewrite E2, E1, map_app. now rewrite app_assoc.
  - eapply desc_between_app; eauto.
Qed.

(** An update that touches neither the counter nor the rolled prefixes. *)
Lemma extends_same g g' :
  rolled g' = rolled g -> _ns_counter g' = _ns_counter g -> extends g g'.
Proof.
  intros Hr Hc. exists []. simpl. split; [exact Hr | lia].
Qed.

Lemma extends_roll : preserves extends _roll_prefix.
Proof.
  intros g.
  pose proof (roll_search_ge (_ns_prefixes_floating_in g)
                (S (length (_ns_prefixes_floating_in g)))
                (_ns_counter g + 1)) as H.
  exists [roll_search (_ns_prefixes_floating_in g)
            (S (length (_ns_prefixes_floating_in g))) (_ns_counter g + 1)].
  split; [reflexivity|].
  assert (Hc : _ns_counter (fst (_roll_prefix g))
               = roll_search (_ns_prefixes_floating_in g)
                   (S (length (_ns_prefixes_floating_in g)))
                   (_ns_counter g + 1)) by reflexivity.
  unfold desc_between. rewrite Hc. lia.
Qed.

Lemma extends_declare prefix uri auto :
  preserves extends (startPrefixMapping V prefix uri auto).
Proof.
  intros g. unfold startPrefixMapping.
  destruct (invalid_prefix V prefix); [apply extends_refl|].
  destruct (dict_mem _ _); [apply extends_refl|].
  destruct auto; now apply extends_same.
Qed.

Lemma extends_pin c : preserves extends (_pin_floating_ns_decls c).
Proof.
  intros g. unfold _pin_floating_ns_decls.
  destruct (floating_out_truthy _); now apply extends_same.
Qed.

Lemma extends_close prefix : preserves extends (endPrefixMapping prefix).
Proof.
  intros g. unfold endPrefixMapping.
  destruct (_ns_prefixes_floating_out g) as [|s]; [apply extends_refl|].
  destruct (set_mem prefix s); now apply extends_same.
Qed.

Lemma extends_perform c :
  is_end_element c = false -> preserves extends (perform V c).
Proof.
  intros Hc.
  pose proof (preserves_other_calls V extends extends_refl extends_trans
                (fun b g => extends_same _ _ eq_refl eq_refl)
                (fun g => extends_same _ _ eq_refl eq_refl)
                (fun v g => extends_same _ _ eq_refl eq_refl)
                extends_declare extends_close c) as H.
  destruct c; try discriminate; try exact H.
  simpl.
  apply (preserves_startElementNS V extends extends_refl extends_trans
           (fun b g => extends_same _ _ eq_refl eq_refl)
           (fun v g => extends_same _ _ eq_refl eq_refl)
           extends_roll extends_declare extends_pin).
Qed.

Lemma extends_run cs :
  existsb is_end_element cs = false ->
  forall g, extends g (fst (run V cs g)).
Proof.
  induction cs as [|c cs IH]; simpl; intros H g; [apply extends_refl|].
  apply orb_false_iff in H. destruct H as [Hc Hcs].
  pose proof (extends_perform c Hc g) as H1.
  destruct (perform V c g) as [g1 o]. simpl in H1.
  specialize (IH Hcs g1). destruct (run V cs g1) as [g2 os]. simpl in *.
  eapply extends_trans; eauto.
Qed.

(** C1, amended.  Along a sequence of calls without [endElementNS], from
    any state of the generator, the prefixes returned by [_roll_prefix] are
    pairwise distinct: each carries a number above the counter, and the
    counter follows the numbers handed out. *)
Theorem rolled_prefixes_distinct_between_closes :
  forall (cs : list call) (g : XMPPXMLGenerator),
    existsb is_end_element cs = false ->
    exists fresh,
      rolled (fst (run V cs g)) = fresh ++ rolled g
      /\ NoDup fresh
      /\ _ns_counter g <= _ns_counter (fst (run V cs g)).
Proof.
  intros cs g H. destruct (extends_run cs H g) as [nums [E D]].
  exists (List.map ns_format nums). split; [exact E|]. split.
  - apply NoDup_map_injective.
    + intros a b. apply ns_format_inj.
    + eapply desc_between_NoDup; eauto.
  - eapply desc_between_le; eauto.
Qed.

End ExtendsFacts.

(** ** Pending declarations *)

Lemma opt_str_eqb_sym a b : opt_str_eqb a b = opt_str_eqb b a.
Proof.
  destruct a, b; simpl; auto using String.eqb_sym.
Qed.

Lemma dict_get_set {V} k k' (v : V) d :
  dict_get k (dict_set k' v d)
  = if opt_str_eqb k' k then Some v else dict_get k d.
Proof.
  induction d as [|[k1 v1] d IH]; simpl.
  - destruct (opt_str_eqb k' k); reflexivity.
  - destruct (opt_str_eqb k1 k') eqn:E1; simpl.
    + apply opt_str_eqb_eq in E1. subst k1.
      destruct (opt_str_eqb k' k); reflexivity.
    + rewrite IH. destruct (opt_str_eqb k1 k) eqn:E2; [|reflexivity].
      apply opt_str_eqb_eq in E2. subst k1.
      rewrite opt_str_eqb_sym, E1. reflexivity.
Qed.

Lemma dict_mem_set {V} k k' (v : V) d :
  dict_mem k (dict_set k' v d) = opt_str_eqb k' k || dict_mem k d.
Proof.
  unfold dict_mem. rewrite dict_get_set.
  destruct (opt_str_eqb k' k); reflexivity.
Qed.

Section PendingFacts.

Import Generator.

Variable V : bytes -> bool.

Lemma pending_grows_refl g : pending_grows g g.
Proof. intros k H. exact H. Qed.

Lemma pending_grows_trans a b c :
  pending_grows a b -> pending_grows b c -> pending_grows a c.
Proof. intros H1 H2 k H. auto. Qed.

Lemma pending_grows_same g g' :
  _ns_prefixes_floating_in g' = _ns_prefixes_floating_in g ->
  pending_grows g g'.
Proof. intros E k H. now rewrite E. Qed.

(** What an accepted declaration leaves behind. *)
Lemma startPrefixMapping_ok prefix uri auto g g1 :
  startPrefixMapping V prefix uri auto g = (g1, Ok tt) ->
  invalid_prefix V prefix = false
  /\ dict_mem prefix (_ns_prefixes_floating_in g) = false
  /\ _ns_prefixes_floating_in g1
     = dict_set prefix uri (_ns_prefixes_floating_in g)
  /\ _ns_decls_floating_in g1
     = dict_set (Some uri) prefix (_ns_decls_floating_in g).
Proof.
  unfold startPrefixMapping.
  destruct (invalid_prefix V prefix); [discriminate|].
  destruct (dict_mem prefix _); [discriminate|].
  intros [= <-]. destruct auto; auto.
Qed.

Lemma startPrefixMapping_accepts prefix uri auto g :
  invalid_prefix V prefix = false ->
  dict_mem prefix (_ns_prefixes_floating_in g) = false ->
  exists g1, startPrefixMapping V prefix uri auto g = (g1, Ok tt).
Proof.
  intros H1 H2. unfold startPrefixMapping. rewrite H1, H2. eauto.
Qed.

Lemma pending_grows_declare prefix uri auto :
  preserves pending_grows (startPrefixMapping V prefix uri auto).
Proof.
  intros g.
  destruct (startPrefixMapping V prefix uri auto g) as [g1 [[]|e]] eqn:E.
  - apply startPrefixMapping_ok in E. destruct E as (_ & _ & E & _).
    simpl. intros k Hk. rewrite E, dict_mem_set, Hk. apply orb_true_r.
  - unfold startPrefixMapping in E.
    destruct (invalid_prefix V prefix); [injection E as <- _|];
      [apply pending_grows_refl|].
    destruct (dict_mem prefix _); [injection E as <- _|discriminate].
    apply pending_grows_refl.
Qed.

Lemma pending_grows_close prefix :
  preserves pending_grows (endPrefixMapping prefix).
Proof.
  intros g. unfold endPrefixMapping.
  destruct (_ns_prefixes_floating_out g) as [|s];
    [apply pending_grows_refl|].
  destruct (set_mem prefix s); now apply pending_grows_same.
Qed.

Lemma pending_grows_perform c :
  is_start_element c = false -> preserves pending_grows (perform V c).
Proof.
  intros Hc.
  pose proof (preserves_other_calls V pending_grows
                pending_grows_refl pending_grows_trans
                (fun b g => pending_grows_same _ _ eq_refl)
                (fun g => pending_grows_same _ _ eq_refl)
                (fun v g => pending_grows_same _ _ eq_refl)
                pending_grows_declare pending_grows_close c) as H.
  destruct c; try discriminate; try exact H.
  simpl.
  apply (preserves_endElementNS V pending_grows
           pending_grows_refl pending_grows_trans
           (fun b g => pending_grows_same _ _ eq_refl)
           (fun v g => pending_grows_same _ _ eq_refl)
           (fun g => pending_grows_same _ _ eq_refl)
           pending_grows_declare).
  intros g f stack _. now apply pending_grows_same.
Qed.

Lemma pending_grows_run cs :
  existsb is_start_element cs = false ->
  forall g, pending_grows g (fst (run V cs g)).
Proof.
  induction cs as [|c cs IH]; simpl; intros H g; [apply pending_grows_refl|].
  apply orb_false_iff in H. destruct H as [Hc Hcs].
  pose proof (pending_grows_perform c Hc g) as H1.
  destruct (perform V c g) as [g1 o]. simpl in H1.
  specialize (IH Hcs g1). destruct (run V cs g1) as [g2 os]. simpl in *.
  eapply pending_grows_trans; eauto.
Qed.


End PendingFacts.

(** ** Character data *)

Lemma escape_escaped s : escape s = escaped s.
Proof.
  unfold escape. induction s as [|c s IH]; [reflexivity|].
  cbn [escaped]. unfold escape_char. rewrite <- IH. clear IH.
  destruct (Ascii.eqb_spec c "&") as [->|H1]; [reflexivity|].
  destruct (Ascii.eqb_spec c ">") as [->|H2]; [reflexivity|].
  destruct (Ascii.eqb_spec c "<") as [->|H3]; [reflexivity|].
  apply Ascii.eqb_neq in H1, H2, H3.
  cbn [replace_char]. rewrite H1. cbn [replace_char]. rewrite H2.
  cbn [replace_char]. rewrite H3. reflexivity.
Qed.

Lemma restricted_char_spec c :
  Generator.restricted_char c = true <-> forbidden_control c.
Proof.
  unfold Generator.restricted_char, forbidden_control, code.
  rewrite !orb_true_iff, !andb_true_iff, !Z.leb_le.
  pose proof (N2Z.is_nonneg (N_of_ascii c)). lia.
Qed.

Lemma any_char_spec p s :
  Generator.any_char p s = true
  <-> exists c, In c (list_ascii_of_string s) /\ p c = true.
Proof.
  induction s as [|a s IH]; simpl.
  - split; [discriminate | intros [c [[] _]]].
  - rewrite orb_true_iff, IH. split.
    + intros [H|[c [Hin Hc]]]; [exists a | exists c]; auto.
    + intros [c [[<-|Hin] Hc]]; [left | right; exists c]; auto.
Qed.

(** X28.  [characters] refuses the control characters below the space
    other than tab, newline and carriage return before it writes anything
    of the text: with such a character in the text the call raises the
    [ValueError], having done nothing but finish a deferred start tag.
    When the call returns, the text holds no such character and one chunk
    has been written, the UTF-8 encoding of the text with each [&], [>]
    and [<] replaced by its entity. *)
Theorem low_controls_are_refused :
  forall (g : Generator.XMPPXMLGenerator) (chars : str),
    let r := Generator.characters chars g in
    let g0 := fst (Generator._finish_pending_start_element g) in
    ((exists c, In c (list_ascii_of_string chars) /\ forbidden_control c) ->
     r = (g0, Raise (ValueError
                       "control characters are not allowed in well-formed XML")))
    /\ (snd r = Ok tt ->
        (forall c, In c (list_ascii_of_string chars) -> ~ forbidden_control c)
        /\ fst r = append_written [encode (escaped chars)] g0).
Proof.
  intros g chars r g0.
  assert (Hr : r = if Generator.any_char Generator.restricted_char chars
                   then (g0, Raise (ValueError
                     "control characters are not allowed in well-formed XML"))
                   else (append_written [encode (escaped chars)] g0, Ok tt)).
  { subst r g0. unfold Generator.characters, bind.
    unfold Generator._finish_pending_start_element.
    destruct (Generator._pending_start_element g); simpl;
      destruct (Generator.any_char _ chars); simpl;
      rewrite ?escape_escaped; reflexivity. }
  assert (Hiff : Generator.any_char Generator.restricted_char chars = true
                 <-> exists c, In c (list_ascii_of_string chars)
                               /\ forbidden_control c).
  { rewrite any_char_spec. split; intros [c [Hin Hc]]; exists c;
      (split; [exact Hin | now apply restricted_char_spec]). }
  rewrite Hr.
  destruct (Generator.any_char Generator.restricted_char chars) eqn:E.
  - split; [reflexivity | discriminate].
  - split.
    + intros H. apply Hiff in H. discriminate.
    + intros _. split; [|reflexivity].
      intros c Hin Hc.
      assert (H : false = true) by (apply Hiff; now exists c).
      discriminate.
Qed.

(** ** Scopes: what a started element leaves behind *)

Lemma dict_In_mem {V} k (d : dict V) :
  In k (dict_keys d) -> dict_mem k d = true.
Proof.
  unfold dict_mem. induction d as [|[k' v] d IH]; simpl; [contradiction|].
  intros [->|H].
  - now rewrite opt_str_eqb_refl.
  - destruct (opt_str_eqb k' k); [reflexivity | now apply IH].
Qed.

Lemma dict_get_not_in {V} k (d : dict V) :
  ~ In k (dict_keys d) -> dict_get k d = None.
Proof.
  intros H. destruct (dict_get k d) eqn:E; [|reflexivity].
  exfalso. apply H, dict_mem_In. unfold dict_mem. now rewrite E.
Qed.

Lemma dict_keys_set {V} k (v : V) d :
  dict_keys (dict_set k v d)
  = if dict_mem k d then dict_keys d else dict_keys d ++ [k].
Proof.
  unfold dict_mem. induction d as [|[k' v'] d IH]; simpl; [reflexivity|].
  rewrite (opt_str_eqb_sym k' k).
  destruct (opt_str_eqb k k') eqn:E; simpl; [reflexivity|].
  rewrite IH. destruct (dict_get k d); reflexivity.
Qed.

Lemma dict_keys_set_NoDup {V} k (v : V) d :
  NoDup (dict_keys d) -> NoDup (dict_keys (dict_set k v d)).
Proof.
  intros H. rewrite dict_keys_set.
  destruct (dict_mem k d) eqn:E; [exact H|].
  apply NoDup_app; [exact H | repeat constructor; auto |].
  intros x Hx [<-|[]]. apply dict_In_mem in Hx. congruence.
Qed.

Lemma dict_mem_cons {V} k k1 (v1 : V) d :
  dict_mem k ((k1, v1) :: d) = opt_str_eqb k1 k || dict_mem k d.
Proof.
  unfold dict_mem. simpl. destruct (opt_str_eqb k1 k); reflexivity.
Qed.

Lemma dict_mem_update {V} k (d new : dict V) :
  dict_mem k (dict_update d new) = dict_mem k d || dict_mem k new.
Proof.
  unfold dict_update. revert d.
  induction new as [|[k1 v1] new IH]; intros d; simpl.
  - now rewrite orb_false_r.
  - rewrite IH, dict_mem_set, dict_mem_cons.
    destruct (opt_str_eqb k1 k), (dict_mem k d), (dict_mem k new); reflexivity.
Qed.

(** [d.update(new)] gives the entries of [new] priority over those of
    [d]. *)
Lemma dict_get_update {V} k (d new : dict V) :
  NoDup (dict_keys new) ->
  dict_get k (dict_update d new)
  = match dict_get k new with
    | Some v => Some v
    | None => dict_get k d
    end.
Proof.
  unfold dict_update. revert d.
  induction new as [|[k1 v1] new IH]; intros d Hnd; simpl; [reflexivity|].
  inversion Hnd as [|x l Hnotin Hnd']; subst.
  rewrite IH by exact Hnd'. rewrite dict_get_set.
  destruct (opt_str_eqb k1 k) eqn:E; [|reflexivity].
  apply opt_str_eqb_eq in E. subst k1.
  now rewrite (dict_get_not_in k new Hnotin).
Qed.

Section ResolveFromQname.

Import Generator.

Variable V : bytes -> bool.
Variable R : XMPPXMLGenerator -> XMPPXMLGenerator -> Prop.
Hypothesis R_refl : forall s, R s s.
Hypothesis R_trans : forall a b c, R a b -> R b c -> R a c.
Hypothesis R_qname : forall name attr, preserves R (_qname V name attr).

Lemma preserves_resolve_names_from_qname name attributes :
  preserves R (resolve_names V name attributes).
Proof.
  unfold resolve_names.
  apply (preserves_bind R R_trans); [apply R_qname|].
  intros q. apply (preserves_bind R R_trans).
  - apply (preserves_mapM R R_refl R_trans). intros av.
    apply (preserves_bind R R_trans); [apply R_qname|].
    intros q'. apply (preserves_ret R R_refl).
  - intros attrib. apply (preserves_bind R R_trans).
    + destruct (existsb _ _);
        [apply (preserves_raise R R_refl) | apply (preserves_ret R R_refl)].
    + intros _. apply (preserves_ret R R_refl).
Qed.

End ResolveFromQname.

Section ScopeFacts.

Import Generator.

Variable V : bytes -> bool.

(** *** The pending declarations stay well formed *)

Lemma keeps_decls_ok_refl g : keeps_decls_ok g g.
Proof. intros H. exact H. Qed.

Lemma keeps_decls_ok_trans a b c :
  keeps_decls_ok a b -> keeps_decls_ok b c -> keeps_decls_ok a c.
Proof. intros H1 H2 H. auto. Qed.

Lemma keeps_decls_ok_same g g' :
  _ns_decls_floating_in g' = _ns_decls_floating_in g -> keeps_decls_ok g g'.
Proof. intros E. unfold keeps_decls_ok, decls_ok. now rewrite E. Qed.

Lemma keeps_decls_ok_declare prefix uri auto :
  preserves keeps_decls_ok (startPrefixMapping V prefix uri auto).
Proof.
  intros g.
  destruct (startPrefixMapping V prefix uri auto g) as [g1 [[]|e]] eqn:E.
  - apply startPrefixMapping_ok in E. destruct E as (_ & _ & _ & E).
    simpl. intros [H1 H2]. unfold decls_ok. rewrite E. split.
    + rewrite dict_mem_set. exact H1.
    + now apply dict_keys_set_NoDup.
  - unfold startPrefixMapping in E.
    destruct (invalid_prefix V prefix); [injection E as <- _|];
      [apply keeps_decls_ok_refl|].
    destruct (dict_mem prefix _); [injection E as <- _|discriminate].
    apply keeps_decls_ok_refl.
Qed.

Lemma keeps_decls_ok_pin c :
  preserves keeps_decls_ok (_pin_floating_ns_decls c).
Proof.
  intros g. unfold _pin_floating_ns_decls.
  destruct (floating_out_truthy _); [apply keeps_decls_ok_refl|].
  intros _. split; [reflexivity | constructor].
Qed.

Lemma keeps_decls_ok_close prefix :
  preserves keeps_decls_ok (endPrefixMapping prefix).
Proof.
  intros g. unfold endPrefixMapping.
  destruct (_ns_prefixes_floating_out g) as [|s];
    [apply keeps_decls_ok_refl|].
  destruct (set_mem prefix s); now apply keeps_decls_ok_same.
Qed.

Lemma keeps_decls_ok_perform c : preserves keeps_decls_ok (perform V c).
Proof.
  pose proof (preserves_other_calls V keeps_decls_ok
                keeps_decls_ok_refl keeps_decls_ok_trans
                (fun b g => keeps_decls_ok_same _ _ eq_refl)
                (fun g => keeps_decls_ok_same _ _ eq_refl)
                (fun v g => keeps_decls_ok_same _ _ eq_refl)
                keeps_decls_ok_declare keeps_decls_ok_close c) as H.
  destruct c; try exact H; simpl.
  - apply (preserves_startElementNS V keeps_decls_ok
             keeps_decls_ok_refl keeps_decls_ok_trans
             (fun b g => keeps_decls_ok_same _ _ eq_refl)
             (fun v g => keeps_decls_ok_same _ _ eq_refl)
             (fun g => keeps_decls_ok_same _ _ eq_refl)
             keeps_decls_ok_declare keeps_decls_ok_pin).
  - apply (preserves_endElementNS V keeps_decls_ok
             keeps_decls_ok_refl keeps_decls_ok_trans
             (fun b g => keeps_decls_ok_same _ _ eq_refl)
             (fun v g => keeps_decls_ok_same _ _ eq_refl)
             (fun g => keeps_decls_ok_same _ _ eq_refl)
             keeps_decls_ok_declare).
    intros g f stack _. now apply keeps_decls_ok_same.
Qed.

Lemma reachable_decls_ok g : reachable V g -> decls_ok g.
Proof.
  intros [short [cs <-]].
  assert (H0 : decls_ok (new_generator short))
    by (split; [reflexivity | constructor]).
  revert H0. generalize (new_generator short).
  induction cs as [|c cs IH]; intros g0 H0; simpl; [exact H0|].
  pose proof (keeps_decls_ok_perform c g0 H0) as H1.
  destruct (perform V c g0) as [g1 o]. simpl in H1.
  specialize (IH g1 H1). now destruct (run V cs g1).
Qed.

End ScopeFacts.

Section ElementFacts.

Import Generator.

Variable V : bytes -> bool.

(** *** Resolving names *)

Lemma same_scope_refl g : same_scope g g.
Proof. repeat split. Qed.

Lemma same_scope_trans a b c :
  same_scope a b -> same_scope b c -> same_scope a c.
Proof.
  intros (A1 & A2 & A3 & A4) (B1 & B2 & B3 & B4).
  repeat split; congruence.
Qed.

Lemma same_scope_declare prefix uri auto :
  preserves same_scope (startPrefixMapping V prefix uri auto).
Proof.
  intros g. unfold startPrefixMapping.
  destruct (invalid_prefix V prefix); [apply same_scope_refl|].
  destruct (dict_mem _ _); [apply same_scope_refl|].
  destruct auto; repeat split.
Qed.

Lemma same_scope_resolve_names name attributes :
  preserves same_scope (resolve_names V name attributes).
Proof.
  apply preserves_resolve_names.
  - exact same_scope_refl.
  - exact same_scope_trans.
  - intros g. repeat split.
  - exact same_scope_declare.
Qed.

Lemma keeps_decls_ok_resolve_names name attributes :
  preserves keeps_decls_ok (resolve_names V name attributes).
Proof.
  apply preserves_resolve_names.
  - exact keeps_decls_ok_refl.
  - exact keeps_decls_ok_trans.
  - intros g. now apply keeps_decls_ok_same.
  - apply keeps_decls_ok_declare.
Qed.

Lemma decls_kept_refl g : decls_kept g g.
Proof. repeat split; auto. Qed.

Lemma decls_kept_trans a b c :
  decls_kept a b -> decls_kept b c -> decls_kept a c.
Proof.
  intros (A1 & A2 & A3) (B1 & B2 & B3). repeat split.
  - congruence.
  - auto.
  - intros k Hk Hn. apply B3; [now rewrite A1 | now apply A3].
Qed.

(** The two outcomes of a declaration, seen from the pending
    declarations by URI. *)
Lemma startPrefixMapping_decls prefix uri auto g :
  let r := startPrefixMapping V prefix uri auto g in
  (is_raise (snd r) = true /\ fst r = g)
  \/ (snd r = Ok tt
      /\ _ns_decls_floating_in (fst r)
         = dict_set (Some uri) prefix (_ns_decls_floating_in g)).
Proof.
  unfold startPrefixMapping.
  destruct (invalid_prefix V prefix); [now left|].
  destruct (dict_mem _ _); [now left|]. right.
  destruct auto; now split.
Qed.

Lemma auto_declare_kept u local g :
  dict_get (Some u) (_curr_ns_map g) = None ->
  dict_get (Some u) (_ns_decls_floating_in g) = None ->
  decls_kept g
    (fst ((prefix <- _roll_prefix ;;
           startPrefixMapping V (Some prefix) u true ;;;
           ret (join_prefix (Some prefix) local))%method g)).
Proof.
  intros Hc Hd.
  destruct (_roll_prefix g) as [g1 r1] eqn:E1.
  assert (Hr1 : exists p, r1 = Ok p /\ _curr_ns_map g1 = _curr_ns_map g
                /\ _ns_decls_floating_in g1 = _ns_decls_floating_in g).
  { unfold _roll_prefix in E1. injection E1 as <- <-. eauto. }
  destruct Hr1 as (p & -> & Hc1 & Hd1).
  erewrite bind_ok by exact E1.
  pose proof (same_scope_declare (Some p) u true g1) as (Hc2 & _).
  pose proof (startPrefixMapping_decls (Some p) u true g1) as Hcase.
  unfold bind.
  destruct (startPrefixMapping V (Some p) u true g1) as [g2 [[]|e]];
    simpl in *.
  - destruct Hcase as [[H _]|[_ Hd2]]; [discriminate|].
    repeat split.
    + congruence.
    + intros k v Hk. rewrite Hd2, dict_get_set, Hd1.
      destruct (opt_str_eqb (Some u) k) eqn:E; [|exact Hk].
      apply opt_str_eqb_eq in E. subst k. congruence.
    + intros k Hk Hn. rewrite Hd2, dict_get_set, Hd1.
      destruct (opt_str_eqb (Some u) k) eqn:E; [|exact Hn].
      apply opt_str_eqb_eq in E. subst k.
      unfold dict_mem in Hk. now rewrite Hc in Hk.
  - destruct Hcase as [[_ ->]|[H _]]; [|discriminate].
    repeat split; congruence.
Qed.

Lemma decls_kept_qname name attr : preserves decls_kept (_qname V name attr).
Proof.
  intros g. unfold _qname. destruct name as [uri local].
  destruct (_ || _); [apply decls_kept_refl|].
  destruct (truthy uri) eqn:Ht.
  2:{ destruct (_ && _); apply decls_kept_refl. }
  destruct (opt_str_eqb uri (Some xml_namespace)); [apply decls_kept_refl|].
  destruct (dict_get uri (_curr_ns_map g)) eqn:Ec; [apply decls_kept_refl|].
  destruct (dict_get uri (_ns_decls_floating_in g)) eqn:Ed;
    [apply decls_kept_refl|].
  destruct uri as [u|]; [|discriminate].
  now apply auto_declare_kept.
Qed.

Lemma decls_kept_attributes (attributes : list (name_t * str)) :
  preserves decls_kept
    (mapM (fun av : name_t * str =>
             q <- _qname V (fst av) true ;; ret (q, snd av))%method
       attributes).
Proof.
  apply (preserves_mapM decls_kept decls_kept_refl decls_kept_trans).
  intros av. apply (preserves_bind decls_kept decls_kept_trans).
  - apply decls_kept_qname.
  - intros q. apply (preserves_ret decls_kept decls_kept_refl).
Qed.

End ElementFacts.

Section ElementForms.

Import Generator.

Variable V : bytes -> bool.

(** What a successful [_qname] has found. *)
Lemma qname_ok uri local attr g ga q :
  _qname V (uri, local) attr g = (ga, Ok q) ->
  (contains_char ":" local || negb (xmlValidateNameValue_str V local)) = false
  /\ ((truthy uri = false /\ q = local /\ ga = g
       /\ (attr = false -> dict_mem None (_curr_ns_map g) = false))
      \/ (truthy uri = true
          /\ opt_str_eqb uri (Some xml_namespace) = true
          /\ q = ("xml:" ++ local)%string)
      \/ (truthy uri = true
          /\ opt_str_eqb uri (Some xml_namespace) = false
          /\ exists p,
               q = join_prefix p local
               /\ ((dict_get uri (_curr_ns_map g) = Some p /\ ga = g)
                   \/ (dict_get uri (_curr_ns_map g) = None
                       /\ dict_get uri (_ns_decls_floating_in ga) = Some p)))).
Proof.
  unfold _qname.
  destruct (_ || _); [discriminate|]. intros H. split; [reflexivity|].
  destruct (truthy uri) eqn:Ht.
  2:{ left. destruct attr; simpl in H.
      - injection H as <- <-. repeat split. discriminate.
      - destruct (dict_mem None (_curr_ns_map g)); [discriminate|].
        destruct (dict_mem None _); [discriminate|].
        injection H as <- <-. repeat split. }
  right.
  destruct (opt_str_eqb uri (Some xml_namespace));
    [left; injection H as <- <-; auto|]. right.
  split; [reflexivity|]. split; [reflexivity|].
  destruct (dict_get uri (_curr_ns_map g)) as [p|] eqn:Ec.
  { injection H as <- <-. exists p. auto. }
  destruct (dict_get uri (_ns_decls_floating_in g)) as [p|] eqn:Ed.
  { injection H as <- <-. exists p. auto. }
  destruct uri as [u|]; [|discriminate].
  destruct (_roll_prefix g) as [g1 r1] eqn:E1.
  assert (Hr1 : exists p, r1 = Ok p) by
    (unfold _roll_prefix in E1; injection E1 as <- <-; eauto).
  destruct Hr1 as [p ->].
  erewrite bind_ok in H by exact E1.
  pose proof (startPrefixMapping_decls V (Some p) u true g1) as Hcase.
  unfold bind in H.
  destruct (startPrefixMapping V (Some p) u true g1) as [g2 [[]|e]];
    [|discriminate].
  simpl in Hcase. destruct Hcase as [[Hx _]|[_ Hd2]]; [discriminate|].
  unfold ret in H. injection H as <- <-.
  exists (Some p). split; [reflexivity|]. right. split; [reflexivity|].
  now rewrite Hd2, dict_get_set, opt_str_eqb_refl.
Qed.

(** [_qname] for an element whose namespace the active map binds: nothing
    is declared and nothing changes. *)
Lemma qname_bound uri local g :
  (contains_char ":" local || negb (xmlValidateNameValue_str V local)) = false ->
  (truthy uri = false ->
   dict_mem None (_curr_ns_map g) = false
   /\ dict_mem None (_ns_prefixes_floating_in g) = false) ->
  (truthy uri = true -> opt_str_eqb uri (Some xml_namespace) = false ->
   dict_mem uri (_curr_ns_map g) = true) ->
  exists q,
    _qname V (uri, local) false g = (g, Ok q)
    /\ (truthy uri = false -> q = local)
    /\ (truthy uri = true -> opt_str_eqb uri (Some xml_namespace) = true ->
        q = ("xml:" ++ local)%string)
    /\ (truthy uri = true -> opt_str_eqb uri (Some xml_namespace) = false ->
        exists p, dict_get uri (_curr_ns_map g) = Some p
                  /\ q = join_prefix p local).
Proof.
  intros Hv Hnone Hbound. unfold _qname. rewrite Hv.
  destruct (truthy uri) eqn:Ht.
  - destruct (opt_str_eqb uri (Some xml_namespace)) eqn:Ex.
    + eexists. split; [reflexivity|]. repeat split; try discriminate.
    + specialize (Hbound eq_refl eq_refl). unfold dict_mem in Hbound.
      destruct (dict_get uri (_curr_ns_map g)) as [p|]; [|discriminate].
      eexists. split; [reflexivity|]. repeat split; try discriminate.
      intros _ _. eauto.
  - destruct (Hnone eq_refl) as [H1 H2]. rewrite H1, H2. simpl.
    eexists. split; [reflexivity|]. repeat split; discriminate.
Qed.

(** [endElementNS] on the element whose start tag is still deferred. *)
Lemma endElementNS_deferred name g f stack :
  floating_out_truthy (_ns_prefixes_floating_out g) = false ->
  _pending_start_element g = Some name ->
  _ns_map_stack g = f :: stack ->
  exists g2,
    endElementNS V name g = (g2, Ok tt)
    /\ out_written g2 = out_written g ++ ["/>"].
Proof.
  intros Hfo Hp Hs. unfold endElementNS. rewrite Hfo, Hp, name_eqb_refl.
  unfold bind, modify. simpl. rewrite Hs. eexists. split; reflexivity.
Qed.

(** [endElementNS] when no start tag is deferred and the name resolves
    without a new declaration. *)
Lemma endElementNS_finished name g f stack q :
  floating_out_truthy (_ns_prefixes_floating_out g) = false ->
  _pending_start_element g = None ->
  _ns_map_stack g = f :: stack ->
  _qname V name false (append_written ["</"] g)
    = (append_written ["</"] g, Ok q) ->
  exists g2,
    endElementNS V name g = (g2, Ok tt)
    /\ out_written g2 = out_written g ++ ["</"; encode q; ">"].
Proof.
  intros Hfo Hp Hs Hq. unfold endElementNS. rewrite Hfo, Hp.
  erewrite bind_ok.
  2:{ erewrite bind_ok by apply write_eq.
      erewrite bind_ok by exact Hq.
      erewrite bind_ok by apply write_eq. apply write_eq. }
  simpl. rewrite Hs. eexists. split; [reflexivity|].
  simpl. rewrite <- !app_assoc. reflexivity.
Qed.

Lemma flush_deferred name g :
  _pending_start_element g = Some name ->
  flush g
  = (set_out_flushes (S (out_flushes g))
       (append_written [">"] (set_pending_start_element None g)),
     Ok tt).
Proof.
  intros Hp. unfold flush, bind, _finish_pending_start_element.
  rewrite Hp. reflexivity.
Qed.

End ElementForms.

Section ShortEmptyElements.

Import Generator.

Variable V : bytes -> bool.

Lemma finish_pending_ok g :
  exists g0,
    _finish_pending_start_element g = (g0, Ok tt)
    /\ same_scope g g0
    /\ _ns_decls_floating_in g0 = _ns_decls_floating_in g
    /\ _ns_prefixes_floating_in g0 = _ns_prefixes_floating_in g.
Proof.
  unfold _finish_pending_start_element.
  destruct (_pending_start_element g); eexists; (split; [reflexivity|]);
    repeat split.
Qed.

(** The stages of a [startElementNS] that returns. *)
Lemma startElementNS_ok name attributes g g1 :
  startElementNS V name attributes g = (g1, Ok tt) ->
  exists g0 gr q attrib,
    _finish_pending_start_element g = (g0, Ok tt)
    /\ resolve_names V name attributes g0 = (gr, Ok (q, attrib))
    /\ floating_out_truthy (_ns_prefixes_floating_out gr) = false
    /\ g1 = fst (write_open_tag name q (_ns_prefixes_floating_in gr) attrib
                   (fst (_pin_floating_ns_decls (_ns_counter g0) gr))).
Proof.
  intros H. unfold startElementNS in H.
  destruct (finish_pending_ok g) as (g0 & E0 & _).
  erewrite bind_ok in H by exact E0.
  erewrite bind_ok in H by reflexivity.
  destruct (resolve_names V name attributes g0) as [gr [[q attrib]|e]] eqn:Er.
  2:{ erewrite bind_raise in H by exact Er. discriminate. }
  erewrite bind_ok in H by exact Er.
  destruct (_pin_floating_ns_decls (_ns_counter g0) gr) as [gp [pp|e]] eqn:Ep.
  2:{ erewrite bind_raise in H by exact Ep. discriminate. }
  erewrite bind_ok in H by exact Ep.
  exists g0, gr, q, attrib. split; [exact E0|]. split; [exact Er|].
  assert (Hgp : fst (_pin_floating_ns_decls (_ns_counter g0) gr) = gp)
    by now rewrite Ep.
  unfold _pin_floating_ns_decls in Ep.
  destruct (floating_out_truthy _); [discriminate|].
  injection Ep as _ <-. split; [reflexivity|].
  rewrite Hgp. simpl fst in H. simpl snd in H. now rewrite H.
Qed.


Lemma pin_fields c g :
  floating_out_truthy (_ns_prefixes_floating_out g) = false ->
  let gp := fst (_pin_floating_ns_decls c g) in
  out_written gp = out_written g
  /\ _short_empty_elements gp = _short_empty_elements g
  /\ _ns_prefixes_floating_out gp = _ns_prefixes_floating_out g
  /\ (exists f, _ns_map_stack gp = f :: _ns_map_stack g)
  /\ _curr_ns_map gp
     = dict_update (_curr_ns_map g) (_ns_decls_floating_in g)
  /\ _ns_prefixes_floating_in gp = [].
Proof.
  intros H. unfold _pin_floating_ns_decls. rewrite H. simpl.
  repeat split. eauto.
Qed.

(** X27.  The two forms of an empty element.  With [short_empty_elements]
    enabled, in any reachable state of the generator, a [startElementNS]
    that returns has written the open tag without its closing [>]: the
    name of the element under the namespace map of the new scope, then the
    declarations and the attributes.  The matching [endElementNS] right
    after it writes [/>] and nothing else (the self-closing form); with a
    [flush] in between, the flush writes [>] and [endElementNS] then
    writes the end tag with the same name (the long form).  This holds
    when the namespace of the element is not both bound in the active map
    and declared again for this element. *)
Theorem empty_element_short_and_long_form :
  forall (g g1 : XMPPXMLGenerator) (name : name_t)
         (attributes : list (name_t * str)),
    reachable V g ->
    _short_empty_elements g = true ->
    startElementNS V name attributes g = (g1, Ok tt) ->
    dict_mem (fst name) (_curr_ns_map g)
    && dict_mem (fst name) (_ns_decls_floating_in g) = false ->
    (exists gr q0 attrib,
        resolve_names V name attributes
          (fst (_finish_pending_start_element g)) = (gr, Ok (q0, attrib))
        /\ out_written g1
           = out_written (fst (_finish_pending_start_element g))
             ++ open_tag_chunks (tag_name (_curr_ns_map g1) name)
                  (_ns_prefixes_floating_in gr) attrib)
    /\ _pending_start_element g1 = Some name
    /\ (exists g2,
          endElementNS V name g1 = (g2, Ok tt)
          /\ out_written g2 = out_written g1 ++ ["/>"])
    /\ (exists gf g3,
          flush g1 = (gf, Ok tt)
          /\ endElementNS V name gf = (g3, Ok tt)
          /\ out_written g3
             = out_written g1
               ++ [">"; "</"; encode (tag_name (_curr_ns_map g1) name); ">"]).
Proof.
  intros g g1 [uri local] attributes Hreach Hshort Hstart Hcond.
  simpl fst in Hcond.
  apply startElementNS_ok in Hstart.
  destruct Hstart as (g0 & gr & q & attrib & E0 & Er & Hfo & Hg1).
  destruct (finish_pending_ok g) as (g0' & E0' & Hsc0 & Hd0 & Hf0).
  rewrite E0 in E0'. injection E0' as <-.
  rewrite E0. simpl fst.
  pose proof Er as Er0.
  (* the resolution of the names *)
  pose proof (same_sink_resolve_names V (uri, local) attributes g0) as Hsink.
  pose proof (same_scope_resolve_names V (uri, local) attributes g0) as Hsc.
  pose proof (keeps_decls_ok_resolve_names V (uri, local) attributes g0) as Hok.
  rewrite Er in Hsink, Hsc, Hok. simpl fst in Hsink, Hsc, Hok.
  destruct Hsink as [Hw _].
  destruct Hsc as (Hc & Hst & Hfo' & Hsh).
  destruct Hsc0 as (Hc0 & Hst0 & Hfo0 & Hsh0).
  assert (Hok0 : decls_ok g0).
  { destruct (reachable_decls_ok V g Hreach) as [A B].
    split; now rewrite Hd0. }
  specialize (Hok Hok0). destruct Hok as [Hnone Hnodup].
  unfold resolve_names in Er.
  destruct (_qname V (uri, local) false g0) as [ga [q'|e]] eqn:Eq.
  2:{ erewrite bind_raise in Er by exact Eq. discriminate. }
  erewrite bind_ok in Er by exact Eq.
  pose proof (decls_kept_attributes V attributes ga) as Hkept.
  match type of Er with
  | bind ?m _ _ = _ => destruct (m ga) as [gb [attrib'|e]] eqn:Ea
  end.
  2:{ erewrite bind_raise in Er by exact Ea. discriminate. }
  erewrite bind_ok in Er by exact Ea. simpl fst in Hkept.
  unfold bind, ret, raise in Er.
  match type of Er with
  | context [existsb ?f attrib'] => destruct (existsb f attrib')
  end; [discriminate|].
  injection Er as -> -> ->.
  (* the state in which the tag is written *)
  destruct (pin_fields (_ns_counter g0) gr Hfo)
    as (Pw & Psh & Pfo & [f Pst] & Pc & Pfi).
  set (gp := fst (_pin_floating_ns_decls (_ns_counter g0) gr)) in *.
  rewrite write_open_tag_eq in Hg1. simpl fst in Hg1.
  rewrite Psh, Hsh, Hsh0, Hshort in Hg1.
  set (chunks := open_tag_chunks q (_ns_prefixes_floating_in gr) attrib) in *.
  assert (G1w : out_written g1 = out_written gp ++ chunks) by now subst g1.
  assert (G1p : _pending_start_element g1 = Some (uri, local))
    by now subst g1.
  assert (G1fo : _ns_prefixes_floating_out g1 = _ns_prefixes_floating_out gr)
    by now subst g1.
  assert (G1st : _ns_map_stack g1 = f :: _ns_map_stack gr) by now subst g1.
  assert (G1c : _curr_ns_map g1
                = dict_update (_curr_ns_map gr) (_ns_decls_floating_in gr))
    by now subst g1.
  assert (G1fi : _ns_prefixes_floating_in g1 = []) by now subst g1.
  clearbody gp. clear Hg1.
  (* what the start has found *)
  destruct (qname_ok V uri local false g0 ga q Eq) as [Hvalid Hcases].
  destruct Hkept as (Kc & Kkeep & Knone).
  (* the end tag of the long form *)
  set (gf := set_out_flushes (S (out_flushes g1))
               (append_written [">"] (set_pending_start_element None g1))).
  destruct (qname_bound V uri local (append_written ["</"] gf) Hvalid)
    as (q_end & Eend & Qnone & Qxml & Qbound).
  { intros Ht. simpl. rewrite G1c, G1fi, dict_mem_update, Hnone.
    destruct Hcases as [(_ & _ & _ & Hcm)|[(Ht' & _)|(Ht' & _)]];
      try congruence.
    rewrite Hc, (Hcm eq_refl). auto. }
  { intros Ht Hx. simpl. rewrite G1c, dict_mem_update.
    destruct Hcases as [(Ht' & _)|[(_ & Hx' & _)|(_ & _ & p & _ & Hp)]];
      try congruence.
    apply orb_true_iff. unfold dict_mem.
    destruct Hp as [[Hp _]|[_ Hp]].
    - left. now rewrite Hc, Hp.
    - right. now rewrite (Kkeep _ _ Hp). }
  (* the end tag carries the name under the map of the new scope *)
  assert (Htag : tag_name (_curr_ns_map g1) (uri, local) = q_end).
  { unfold tag_name. simpl fst. simpl snd.
    destruct (truthy uri) eqn:Ht; [|symmetry; now apply Qnone].
    destruct (opt_str_eqb uri (Some xml_namespace)) eqn:Hx;
      [symmetry; now apply Qxml|].
    destruct (Qbound eq_refl eq_refl) as (p' & Hp' & ->).
    simpl in Hp'. now rewrite Hp'. }
  (* and so does the start tag *)
  assert (Hsame : q_end = q).
  { destruct Hcases
      as [(Ht & -> & _)|[(Ht & Hx & ->)|(Ht & Hx & p & -> & Hp)]].
    - now apply Qnone.
    - now apply Qxml.
    - destruct (Qbound Ht Hx) as (p' & Hp' & ->).
      simpl in Hp'. rewrite G1c, dict_get_update in Hp' by exact Hnodup.
      destruct Hp as [[Hp ->]|[_ Hp]].
      + assert (Hd : dict_get uri (_ns_decls_floating_in gr) = None).
        { apply Knone; [unfold dict_mem; now rewrite Hp|].
          rewrite Hd0. rewrite <- Hc0 in Hcond. unfold dict_mem in Hcond.
          rewrite Hp in Hcond. simpl in Hcond.
          destruct (dict_get uri (_ns_decls_floating_in g)); congruence. }
        rewrite Hd, Hc, Hp in Hp'. congruence.
      + rewrite (Kkeep _ _ Hp) in Hp'. congruence. }
  rewrite Htag, Hsame.
  split.
  { exists gr, q, attrib. split; [exact Er0|].
    rewrite G1w, Pw, Hw. reflexivity. }
  split; [exact G1p|].
  split.
  { apply (endElementNS_deferred V (uri, local) g1 f (_ns_map_stack gr));
      auto. now rewrite G1fo. }
  exists gf.
  destruct (endElementNS_finished V (uri, local) gf f (_ns_map_stack gr)
              q_end) as (g3 & E3 & W3); auto.
  - simpl. now rewrite G1fo.
  - exists g3. split; [now apply (flush_deferred (uri, local))|].
    split; [exact E3|]. rewrite W3, Hsame. simpl. now rewrite <- app_assoc.
Qed.

End ShortEmptyElements.

(** * Examples, witnesses and counterexamples *)

Section Examples.

Import Generator.

(** C1 as stated fails: after an element is closed, [endElementNS] puts the
    counter back to its value from before the element, and the next
    automatic prefix is [ns0] again. *)
Lemma prefix_reissued_after_close :
  snd (run ascii_name reissue_calls (new_generator true))
    = [Ok tt; Ok tt; Ok tt]
  /\ rolled (fst (run ascii_name reissue_calls (new_generator true)))
     = ["ns0"; "ns0"]%string
  /\ ~ NoDup (rolled (fst (run ascii_name reissue_calls (new_generator true)))).
Proof.
  assert (E : rolled (fst (run ascii_name reissue_calls (new_generator true)))
              = ["ns0"; "ns0"]%string) by (vm_compute; reflexivity).
  split; [vm_compute; reflexivity|]. split; [exact E|].
  rewrite E. intros H. inversion H as [|x l Hnotin _]; subst.
  apply Hnotin. now left.
Qed.

Lemma rolled_prefixes_distinct_witness :
  existsb is_end_element
    [CallStartElementNS (Some "uri:one", "a")
       [((Some "uri:two", "x"), "1")]]%string = false
  /\ exists fresh,
       rolled (fst (run ascii_name
                      [CallStartElementNS (Some "uri:one", "a")
                         [((Some "uri:two", "x"), "1")]]%string
                      (new_generator true)))
       = fresh ++ rolled (new_generator true)
       /\ NoDup fresh
       /\ _ns_counter (new_generator true)
          <= _ns_counter
               (fst (run ascii_name
                       [CallStartElementNS (Some "uri:one", "a")
                          [((Some "uri:two", "x"), "1")]]%string
                       (new_generator true))).
Proof.
  split; [reflexivity|].
  apply (rolled_prefixes_distinct_between_closes ascii_name). reflexivity.
Defined.



(** C6 on the code: DEL is an ASCII control character other than tab,
    newline and carriage return, and [characters] accepts it and writes it
    to the sink.  The test of [characters] lists the codes 0 to 8, 11, 12
    and 14 to 31, and leaves 127 out. *)
Lemma del_is_accepted :
  ascii_control "127"
  /\ code "127" <> 9 /\ code "127" <> 10 /\ code "127" <> 13
  /\ characters (String "127" EmptyString) (new_generator true)
     = (append_written [String "127" EmptyString] (new_generator true), Ok tt).
Proof.
  repeat split; try (vm_compute; discriminate).
  right. reflexivity.
Qed.

Lemma empty_element_short_and_long_form_witness :
  reachable ascii_name announced_p
  /\ _short_empty_elements announced_p = true
  /\ startElementNS ascii_name element_b [] announced_p = (started_b, Ok tt)
  /\ dict_mem (fst element_b) (_curr_ns_map announced_p)
     && dict_mem (fst element_b) (_ns_decls_floating_in announced_p) = false
  /\ (exists gr q0 attrib,
        resolve_names ascii_name element_b []
          (fst (_finish_pending_start_element announced_p))
        = (gr, Ok (q0, attrib))
        /\ out_written started_b
           = out_written (fst (_finish_pending_start_element announced_p))
             ++ open_tag_chunks (tag_name (_curr_ns_map started_b) element_b)
                  (_ns_prefixes_floating_in gr) attrib)
  /\ _pending_start_element started_b = Some element_b
  /\ (exists g2,
        endElementNS ascii_name element_b started_b = (g2, Ok tt)
        /\ out_written g2 = out_written started_b ++ ["/>"%string])
  /\ (exists gf g3,
        flush started_b = (gf, Ok tt)
        /\ endElementNS ascii_name element_b gf = (g3, Ok tt)
        /\ out_written g3
           = out_written started_b
             ++ [">"%string; "</"%string;
                 encode (tag_name (_curr_ns_map started_b) element_b);
                 ">"%string]).
Proof.
  assert (Hreach : reachable ascii_name announced_p).
  { exists true, [CallStartPrefixMapping (Some "p"%string) "uri:two"].
    vm_compute. reflexivity. }
  assert (Hshort : _short_empty_elements announced_p = true)
    by (vm_compute; reflexivity).
  assert (Hs : startElementNS ascii_name element_b [] announced_p
               = (started_b, Ok tt)) by (vm_compute; reflexivity).
  assert (Hc : dict_mem (fst element_b) (_curr_ns_map announced_p)
               && dict_mem (fst element_b)
                    (_ns_decls_floating_in announced_p) = false)
    by (vm_compute; reflexivity).
  split; [exact Hreach|]. split; [exact Hshort|]. split; [exact Hs|].
  split; [exact Hc|].
  exact (empty_element_short_and_long_form ascii_name announced_p started_b
           element_b [] Hreach Hshort Hs Hc).
Defined.

(** C7 on the code: an element whose namespace is bound in the active map
    and declared again, under another prefix, for the element itself.  All
    six calls return; the start tag carries the old prefix [p], found
    first in the active map by [_qname], and the end tag of the long form
    carries the new prefix [q], which [_pin_floating_ns_decls] has made
    active in between: the two tags of the element do not match. *)
Theorem redeclared_namespace_mismatched_tags :
  snd (run ascii_name redeclared_namespace_calls (new_generator true))
    = [Ok tt; Ok tt; Ok tt; Ok tt; Ok tt; Ok tt]
  /\ sink_bytes
       (fst (run ascii_name redeclared_namespace_calls (new_generator true)))
     = ("<p:o xmlns:p=" ++ dquote_str ++ "uri:a" ++ dquote_str
        ++ "><p:e xmlns:q=" ++ dquote_str ++ "uri:a" ++ dquote_str
        ++ "></q:e>")%string.
Proof. split; vm_compute; reflexivity. Qed.

(** The two forms on the sink, for the unnamespaced element [e] on a fresh
    generator. *)
Example short_and_long_form_of_e :
  sink_bytes (fst (run ascii_name
                     [CallStartElementNS (None, "e") [];
                      CallEndElementNS (None, "e")]%string
                     (new_generator true)))
  = "<e/>"%string
  /\ sink_bytes (fst (run ascii_name
                        [CallStartElementNS (None, "e") [];
                         CallFlush;
                         CallEndElementNS (None, "e")]%string
                        (new_generator true)))
     = "<e></e>"%string.
Proof. split; vm_compute; reflexivity. Qed.

Lemma startElementNS_error_not_atomic_witness :
  _pending_start_element
    (fst (startElementNS ascii_name (None, "a"%string) [] (new_generator true)))
  = Some (None, "a"%string)
  /\ is_raise
       (snd (startElementNS ascii_name (None, "b:c"%string) []
               (fst (startElementNS ascii_name (None, "a"%string) []
                       (new_generator true))))) = true
  /\ out_written
       (fst (startElementNS ascii_name (None, "b:c"%string) []
               (fst (startElementNS ascii_name (None, "a"%string) []
                       (new_generator true)))))
     = out_written
         (fst (startElementNS ascii_name (None, "a"%string) []
                 (new_generator true)))
       ++ [">"%string].
Proof.
  split; [reflexivity|]. split; [reflexivity|].
  apply (startElementNS_error_not_atomic ascii_name
           (fst (startElementNS ascii_name (None, "a"%string) []
                   (new_generator true)))
           (None, "a"%string) (None, "b:c"%string) []);
    reflexivity.
Defined.

(** C4 on the code: inside an element that binds a namespace without a
    prefix, an unnamespaced child element is accepted and written bare.
    The test of [_qname] looks for [None] among the URIs of the active map,
    where the prefixless binding has the key ["uri:a"] and the value
    [None]. *)
Theorem prefixless_parent_accepts_unnamespaced_child :
  snd (run ascii_name prefixless_parent_calls (new_generator true))
    = [Ok tt; Ok tt; Ok tt; Ok tt]
  /\ dict_get (Some "uri:a"%string)
       (_curr_ns_map
          (fst (run ascii_name prefixless_parent_calls (new_generator true))))
     = Some None
  /\ sink_bytes
       (fst (run ascii_name prefixless_parent_calls (new_generator true)))
     = ("<a xmlns=" ++ dquote_str ++ "uri:a" ++ dquote_str ++ "><b>")%string.
Proof. repeat split; vm_compute; reflexivity. Qed.

(** C5 on the code: the explicit prefix [ns0] of the second element is
    never closed, and the following [startElementNS] and [endElementNS]
    return normally; [ns0] was an automatic prefix of the first element and
    [_ns_auto_prefixes_floating_in] still holds it.  With the prefix [p]
    the same calls raise the [RuntimeError]. *)
Theorem unclosed_explicit_prefix_after_auto_prefix :
  snd (run ascii_name (unclosed_after_auto_calls "ns0") (new_generator true))
    = [Ok tt; Ok tt; Ok tt; Ok tt; Ok tt; Ok tt; Ok tt]
  /\ snd (run ascii_name (unclosed_after_auto_calls "p") (new_generator true))
     = [Ok tt; Ok tt; Ok tt; Ok tt; Ok tt;
        Raise (RuntimeError "namespace prefix has not been closed");
        Raise (RuntimeError "namespace prefix has not been closed")].
Proof. split; vm_compute; reflexivity. Qed.

End Examples.

Lemma restricted_constructs_witness :
  ~ In "nbsp"%string Processor.PREDEFINED_ENTITIES
  /\ Processor.startEntity rfc_streams str unit unit "nbsp" started_processor
     = (started_processor,
        Raise (Processor.restricted_xml rfc_streams
                 "non-predefined entities are not allowed in XMPP"))
  /\ Processor.comment rfc_streams str unit unit "x" started_processor
     = (started_processor,
        Raise (Processor.restricted_xml rfc_streams
                 "comments are not allowed in XMPP")).
Proof.
  assert (H : ~ In "nbsp"%string Processor.PREDEFINED_ENTITIES).
  { simpl. intros [H|[H|[H|[H|[H|[]]]]]]; discriminate H. }
  split; [exact H|].
  destruct (restricted_constructs_raise rfc_streams str unit unit
              started_processor "x"%string "x"%string "x"%string "x"%string
              "nbsp"%string None None H) as (Hc & _ & He & _).
  split; [exact He | exact Hc].
Defined.

Lemma unsupported_version_witness :
  Processor._state started_processor = Processor.STARTED
  /\ Processor.map_int int_of_digits (Processor.split_char "." "2.0")
     = inr [2; 0]
  /\ snd (Processor.startElementNS rfc_xmlstream rfc_streams str jid_of_str
            int_of_digits unit unit unit_driver_call
            (Some rfc_xmlstream, "stream"%string) None
            [((None, "version"), "2.0"); ((None, "from"), "a@b");
             ((None, "id"), "s1")]%string
            started_processor)
     = Raise (Processor.unsupported_version rfc_streams "2.0")
  /\ Processor._state
       (fst (Processor.startElementNS rfc_xmlstream rfc_streams str jid_of_str
               int_of_digits unit unit unit_driver_call
               (Some rfc_xmlstream, "stream"%string) None
               [((None, "version"), "2.0"); ((None, "from"), "a@b");
                ((None, "id"), "s1")]%string
               started_processor))
     = Processor.STARTED.
Proof.
  split; [reflexivity|]. split; [reflexivity|].
  assert (Hne : [2; 0] <> [1; 0]) by discriminate.
  destruct (unsupported_version_keeps_state rfc_xmlstream rfc_streams str
              jid_of_str int_of_digits unit unit unit_driver_call
              started_processor None
              [((None, "version"), "2.0"); ((None, "from"), "a@b");
               ((None, "id"), "s1")]%string
              "2.0"%string [2; 0] eq_refl eq_refl eq_refl Hne)
    as (Hr & _ & Hs & _).
  split; [exact Hr | exact Hs].
Defined.

(** * Further properties of the generator *)

Lemma roll_search_minimal pending fuel n k :
  n <= k < Generator.roll_search pending fuel n ->
  dict_mem (Some (ns_format k)) pending = true.
Proof.
  revert n. induction fuel as [|fuel IH]; intros n; simpl; [lia|].
  destruct (dict_mem (Some (ns_format n)) pending) eqn:E; [|lia].
  intros H. destruct (Z.eq_dec k n) as [->|Hne]; [exact E|].
  apply (IH (n + 1)). lia.
Qed.

(** X1.  [_roll_prefix] returns ["ns"] followed by the least number above
    the counter whose prefix is not pending, moves the counter to that
    number, and changes nothing else of the generator. *)
Theorem roll_prefix_least_free :
  forall g : Generator.XMPPXMLGenerator,
    exists n,
      Generator._roll_prefix g
      = (Generator.set_rolled (ns_format n :: Generator.rolled g)
           (Generator.set_ns_counter n g),
         Ok (ns_format n))
      /\ Generator._ns_counter g < n
      /\ dict_mem (Some (ns_format n)) (Generator._ns_prefixes_floating_in g)
         = false
      /\ forall k,
           Generator._ns_counter g < k < n ->
           dict_mem (Some (ns_format k))
             (Generator._ns_prefixes_floating_in g) = true.
Proof.
  intros g.
  exists (Generator.roll_search (Generator._ns_prefixes_floating_in g)
            (S (length (Generator._ns_prefixes_floating_in g)))
            (Generator._ns_counter g + 1)).
  split; [reflexivity|]. split.
  - pose proof (roll_search_ge (Generator._ns_prefixes_floating_in g)
                  (S (length (Generator._ns_prefixes_floating_in g)))
                  (Generator._ns_counter g + 1)). lia.
  - split; [apply roll_search_free|].
    intros k Hk. eapply roll_search_minimal. split; [|apply Hk]. lia.
Qed.

Section SinkDiscipline.

Import Generator.

Variable V : bytes -> bool.

Lemma appends_refl g : appends g g.
Proof. exists []. now rewrite app_nil_r. Qed.

Lemma appends_trans a b c : appends a b -> appends b c -> appends a c.
Proof.
  intros [r1 E1] [r2 E2]. exists (r1 ++ r2). now rewrite E2, E1, app_assoc.
Qed.

Lemma appends_same g g' : out_written g' = out_written g -> appends g g'.
Proof. intros E. exists []. now rewrite app_nil_r. Qed.

Lemma appends_write b : preserves appends (_write b).
Proof. intros g. exists [b]. reflexivity. Qed.

Lemma appends_declare prefix uri auto :
  preserves appends (startPrefixMapping V prefix uri auto).
Proof.
  intros g. apply appends_same.
  now destruct (same_sink_declare V prefix uri auto g).
Qed.

Lemma appends_pin c : preserves appends (_pin_floating_ns_decls c).
Proof.
  intros g. apply appends_same. now destruct (same_sink_pin c g).
Qed.

Lemma appends_close prefix : preserves appends (endPrefixMapping prefix).
Proof.
  intros g. apply appends_same. unfold endPrefixMapping.
  destruct (_ns_prefixes_floating_out g) as [|s]; [reflexivity|].
  destruct (set_mem prefix s); reflexivity.
Qed.

Lemma appends_perform c : preserves appends (perform V c).
Proof.
  pose proof (preserves_other_calls V appends appends_refl appends_trans
                appends_write
                (fun g => appends_same _ _ eq_refl)
                (fun v g => appends_same _ _ eq_refl)
                appends_declare appends_close c) as H.
  destruct c; try exact H; simpl.
  - apply (preserves_startElementNS V appends appends_refl appends_trans
             appends_write
             (fun v g => appends_same _ _ eq_refl)
             (fun g => appends_same _ _ eq_refl)
             appends_declare appends_pin).
  - apply (preserves_endElementNS V appends appends_refl appends_trans
             appends_write
             (fun v g => appends_same _ _ eq_refl)
             (fun g => appends_same _ _ eq_refl)
             appends_declare).
    intros g f stack _. now apply appends_same.
Qed.

(** X2.  The generator only ever appends to its sink: after any sequence
    of calls, failed ones included, the chunks written before are still
    there, in order, followed by the new ones. *)
Theorem sink_is_append_only :
  forall (cs : list call) (g : XMPPXMLGenerator),
    exists rest,
      out_written (fst (run V cs g)) = out_written g ++ rest.
Proof.
  induction cs as [|c cs IH]; intros g; simpl.
  - exists []. now rewrite app_nil_r.
  - pose proof (appends_perform c g) as [r1 E1].
    destruct (perform V c g) as [g1 o]. simpl in E1.
    destruct (IH g1) as [r2 E2]. destruct (run V cs g1) as [g2 os].
    simpl in *. exists (r1 ++ r2). now rewrite E2, E1, app_assoc.
Qed.

Lemma same_flushes_refl g : same_flushes g g.
Proof. reflexivity. Qed.

Lemma same_flushes_trans a b c :
  same_flushes a b -> same_flushes b c -> same_flushes a c.
Proof. unfold same_flushes. congruence. Qed.

Lemma same_flushes_declare prefix uri auto :
  preserves same_flushes (startPrefixMapping V prefix uri auto).
Proof.
  intros g. unfold startPrefixMapping.
  destruct (invalid_prefix V prefix); [reflexivity|].
  destruct (dict_mem _ _); [reflexivity|]. destruct auto; reflexivity.
Qed.

Lemma same_flushes_pin c : preserves same_flushes (_pin_floating_ns_decls c).
Proof.
  intros g. unfold _pin_floating_ns_decls.
  destruct (floating_out_truthy _); reflexivity.
Qed.

Lemma same_flushes_close prefix :
  preserves same_flushes (endPrefixMapping prefix).
Proof.
  intros g. unfold endPrefixMapping.
  destruct (_ns_prefixes_floating_out g) as [|s]; [reflexivity|].
  destruct (set_mem prefix s); reflexivity.
Qed.

Lemma same_flushes_finish : preserves same_flushes _finish_pending_start_element.
Proof.
  intros g. unfold _finish_pending_start_element.
  destruct (_pending_start_element g); reflexivity.
Qed.

(** X3.  [out.flush] is called by [flush] and by nothing else: [flush]
    calls it exactly once and always returns, every other call leaves the
    number of flushes as it was. *)
Theorem only_flush_flushes :
  forall (c : call) (g : XMPPXMLGenerator),
    match c with
    | CallFlush =>
        snd (perform V c g) = Ok tt
        /\ out_flushes (fst (perform V c g)) = S (out_flushes g)
    | _ => out_flushes (fst (perform V c g)) = out_flushes g
    end.
Proof.
  intros c g. destruct c; simpl; try reflexivity.
  - apply same_flushes_declare.
  - apply (preserves_startElementNS V same_flushes
             same_flushes_refl same_flushes_trans
             (fun b g => eq_refl) (fun v g => eq_refl) (fun g => eq_refl)
             same_flushes_declare same_flushes_pin).
  - unfold characters, bind.
    pose proof (same_flushes_finish g) as H.
    destruct (_finish_pending_start_element g) as [g0 [[]|e]]; simpl in *;
      [|exact H].
    destruct (any_char _ _); exact H.
  - apply (preserves_endElementNS V same_flushes
             same_flushes_refl same_flushes_trans
             (fun b g => eq_refl) (fun v g => eq_refl) (fun g => eq_refl)
             same_flushes_declare).
    intros g0 f stack _. reflexivity.
  - apply same_flushes_close.
  - unfold flush, bind, _finish_pending_start_element.
    destruct (_pending_start_element g); split; reflexivity.
Qed.

(** X4.  The prefix-mapping and document calls are pure bookkeeping:
    [startDocument], [startPrefixMapping], [endPrefixMapping] and
    [endDocument] write nothing, whether they return or raise, and leave a
    deferred start tag deferred. *)
Theorem bookkeeping_calls_write_nothing :
  forall (g : XMPPXMLGenerator) (prefix : option str) (uri : str),
    Forall (fun m : GenM unit =>
              out_written (fst (m g)) = out_written g
              /\ _pending_start_element (fst (m g))
                 = _pending_start_element g)
      [ startDocument;
        startPrefixMapping V prefix uri false;
        endPrefixMapping prefix;
        endDocument ].
Proof.
  intros g prefix uri. repeat constructor.
  - now destruct (same_sink_declare V prefix uri false g).
  - now destruct (same_sink_declare V prefix uri false g).
  - unfold endPrefixMapping.
    destruct (_ns_prefixes_floating_out g) as [|s]; [reflexivity|].
    destruct (set_mem prefix s); reflexivity.
  - unfold endPrefixMapping.
    destruct (_ns_prefixes_floating_out g) as [|s]; [reflexivity|].
    destruct (set_mem prefix s); reflexivity.
Qed.

End SinkDiscipline.

Section ScopeStack.

Import Generator.

Variable V : bytes -> bool.

Lemma finish_pending_counter g :
  _ns_counter (fst (_finish_pending_start_element g)) = _ns_counter g
  /\ _ns_auto_prefixes_floating_in (fst (_finish_pending_start_element g))
     = _ns_auto_prefixes_floating_in g.
Proof.
  unfold _finish_pending_start_element.
  destruct (_pending_start_element g); split; reflexivity.
Qed.

Lemma pin_frame c g :
  floating_out_truthy (_ns_prefixes_floating_out g) = false ->
  _ns_map_stack (fst (_pin_floating_ns_decls c g))
  = mkFrame (_curr_ns_map g)
      (PrefixSet (keys_minus (_ns_prefixes_floating_in g)
                    (_ns_auto_prefixes_floating_in g)))
      c
    :: _ns_map_stack g.
Proof.
  intros H. unfold _pin_floating_ns_decls. now rewrite H.
Qed.

Lemma write_open_tag_scope name q pp attrib g :
  same_scope g (fst (write_open_tag name q pp attrib g))
  /\ _ns_prefixes_floating_in (fst (write_open_tag name q pp attrib g))
     = _ns_prefixes_floating_in g
  /\ _ns_decls_floating_in (fst (write_open_tag name q pp attrib g))
     = _ns_decls_floating_in g
  /\ _ns_counter (fst (write_open_tag name q pp attrib g)) = _ns_counter g.
Proof.
  rewrite write_open_tag_eq. simpl fst.
  destruct (_short_empty_elements g); repeat split.
Qed.

(** A [startElementNS] that returns has pushed one frame (the active map
    and the counter of before the call, and the pending prefixes that are
    not automatic) and has made the pending declarations active. *)
Lemma startElementNS_pushes name attributes g g1 :
  startElementNS V name attributes g = (g1, Ok tt) ->
  exists gr qa,
    resolve_names V name attributes (fst (_finish_pending_start_element g))
    = (gr, Ok qa)
    /\ floating_out_truthy (_ns_prefixes_floating_out g) = false
    /\ _ns_prefixes_floating_out g1 = _ns_prefixes_floating_out g
    /\ _ns_map_stack g1
       = mkFrame (_curr_ns_map g)
           (PrefixSet (keys_minus (_ns_prefixes_floating_in gr)
                         (_ns_auto_prefixes_floating_in gr)))
           (_ns_counter g)
         :: _ns_map_stack g
    /\ _curr_ns_map g1
       = dict_update (_curr_ns_map g) (_ns_decls_floating_in gr)
    /\ _ns_prefixes_floating_in g1 = []
    /\ _ns_decls_floating_in g1 = [].
Proof.
  intros H. apply startElementNS_ok in H.
  destruct H as (g0 & gr & q & attrib & E0 & Er & Hfo & ->).
  destruct (finish_pending_ok g) as (g0' & E0' & (Hc0 & Hst0 & Hfo0 & _) & _).
  rewrite E0 in E0'. injection E0' as <-.
  pose proof (same_scope_resolve_names V name attributes g0) as Hsc.
  rewrite Er in Hsc. destruct Hsc as (Hc & Hst & Hfo' & _).
  simpl fst in Hc, Hst, Hfo'.
  destruct (finish_pending_counter g) as [Hcnt _]. rewrite E0 in Hcnt.
  simpl fst in Hcnt.
  rewrite E0. simpl fst. exists gr, (q, attrib).
  split; [exact Er|].
  split; [now rewrite <- Hfo0, <- Hfo'|].
  destruct (write_open_tag_scope name q (_ns_prefixes_floating_in gr) attrib
              (fst (_pin_floating_ns_decls (_ns_counter g0) gr)))
    as ((Wc & Wst & Wfo & _) & Wfi & Wd & _).
  destruct (pin_fields (_ns_counter g0) gr Hfo)
    as (_ & _ & Pfo & _ & Pc & Pfi).
  rewrite Wfo, Wst, Wc, Wfi, Wd, Pfo, Pc, Pfi, (pin_frame _ _ Hfo).
  rewrite Hfo', Hfo0, Hc, Hc0, Hst, Hst0, Hcnt.
  repeat split.
  unfold _pin_floating_ns_decls. now rewrite Hfo.
Qed.

(** A [startElementNS] that raises has touched neither the stack of frames
    nor the active map nor the prefixes still to be closed. *)
Lemma startElementNS_raise_scope name attributes g g1 e :
  startElementNS V name attributes g = (g1, Raise e) -> same_scope g g1.
Proof.
  intros H. unfold startElementNS in H.
  destruct (finish_pending_ok g) as (g0 & E0 & Hsc0 & _).
  erewrite bind_ok in H by exact E0.
  erewrite bind_ok in H by reflexivity.
  pose proof (same_scope_resolve_names V name attributes g0) as Hsc.
  destruct (resolve_names V name attributes g0) as [gr [qa|e']] eqn:Er;
    simpl fst in Hsc.
  2:{ erewrite bind_raise in H by exact Er. injection H as <- _.
      eapply same_scope_trans; eauto. }
  erewrite bind_ok in H by exact Er.
  destruct (_pin_floating_ns_decls (_ns_counter g0) gr) as [gp [pp|e']] eqn:Ep.
  - erewrite bind_ok in H by exact Ep. rewrite write_open_tag_eq in H.
    discriminate.
  - erewrite bind_raise in H by exact Ep. injection H as <- _.
    unfold _pin_floating_ns_decls in Ep.
    destruct (floating_out_truthy _); [|discriminate].
    injection Ep as <- _. eapply same_scope_trans; eauto.
Qed.

Lemma same_scope_close_tag name :
  preserves same_scope
    (_write "</" ;;; q <- _qname V name false ;;
     _write (encode q) ;;; _write ">")%method.
Proof.
  apply (preserves_close_tag V same_scope same_scope_refl same_scope_trans).
  - intros b g. repeat split.
  - intros g. repeat split.
  - apply same_scope_declare.
Qed.

(** The part of [endElementNS] before the frame is popped. *)
Lemma endElementNS_cases name g g2 r :
  endElementNS V name g = (g2, r) ->
  (is_raise r = true /\ same_scope g g2)
  \/ (r = Ok tt
      /\ floating_out_truthy (_ns_prefixes_floating_out g) = false
      /\ exists f,
           _ns_map_stack g = f :: _ns_map_stack g2
           /\ _curr_ns_map g2 = frame_ns_map f
           /\ _ns_prefixes_floating_out g2 = frame_explicit f
           /\ _ns_counter g2 = frame_counter f).
Proof.
  unfold endElementNS.
  destruct (floating_out_truthy _) eqn:Hfo.
  { intros [= <- <-]. left. split; [reflexivity | apply same_scope_refl]. }
  set (m := match _pending_start_element g with
            | Some pending =>
                if name_eqb pending name
                then (modify (set_pending_start_element None) ;;;
                      _write "/>")%method
                else (_write "</" ;;; q <- _qname V name false ;;
                      _write (encode q) ;;; _write ">")%method
            | None => (_write "</" ;;; q <- _qname V name false ;;
                       _write (encode q) ;;; _write ">")%method
            end).
  assert (Hm : same_scope g (fst (m g))).
  { subst m. destruct (_pending_start_element g) as [pending|];
      [destruct (name_eqb pending name)|];
      try apply same_scope_close_tag. repeat split. }
  unfold bind. destruct (m g) as [g' [[]|e]]; simpl fst in Hm.
  2:{ intros [= <- <-]. left. split; [reflexivity | exact Hm]. }
  destruct (_ns_map_stack g') as [|f stack] eqn:Es.
  { intros [= <- <-]. left. split; [reflexivity | exact Hm]. }
  destruct Hm as (Hc & Hst & _).
  intros [= <- <-]. right. split; [reflexivity|]. split; [reflexivity|].
  exists f. simpl. rewrite <- Hst, Es. repeat split.
Qed.


(** X6.  An element leaves no trace in the scope: after a [startElementNS]
    that returns and the next [endElementNS] that returns, the active
    namespace map, the stack of frames and the prefix counter are what
    they were before the element was started. *)
Theorem element_scope_is_restored :
  forall (g g1 g2 : XMPPXMLGenerator) (name name' : name_t)
         (attributes : list (name_t * str)),
    startElementNS V name attributes g = (g1, Ok tt) ->
    endElementNS V name' g1 = (g2, Ok tt) ->
    _curr_ns_map g2 = _curr_ns_map g
    /\ _ns_map_stack g2 = _ns_map_stack g
    /\ _ns_counter g2 = _ns_counter g.
Proof.
  intros g g1 g2 name name' attributes Hs He.
  apply startElementNS_pushes in Hs.
  destruct Hs as (gr & qa & _ & _ & _ & Hst & _).
  apply endElementNS_cases in He.
  destruct He as [[Hx _]|(_ & _ & f & Hst' & Hc & _ & Hn)]; [discriminate|].
  rewrite Hst in Hst'. injection Hst' as <- <-.
  rewrite Hc, Hn. repeat split.
Qed.

End ScopeStack.

Section ExplicitPrefixes.

Import Generator.

Variable V : bytes -> bool.

Lemma set_mem_app k s1 s2 : set_mem k (s1 ++ s2) = set_mem k s1 || set_mem k s2.
Proof. unfold set_mem. apply existsb_app. Qed.

Lemma set_mem_add k k' s :
  set_mem k (set_add k' s) = opt_str_eqb k k' || set_mem k s.
Proof.
  unfold set_add. destruct (set_mem k' s) eqn:E.
  - destruct (opt_str_eqb k k') eqn:Ek; [|reflexivity].
    apply opt_str_eqb_eq in Ek. subst k'. now rewrite E.
  - rewrite set_mem_app. simpl. rewrite orb_false_r. apply orb_comm.
Qed.

Lemma set_mem_remove k p s :
  set_mem k (set_remove p s) = set_mem k s && negb (opt_str_eqb k p).
Proof.
  unfold set_mem, set_remove. induction s as [|x s IH]; [reflexivity|].
  cbn [filter existsb].
  destruct (opt_str_eqb x p) eqn:Exp; cbn [negb existsb]; rewrite IH.
  - apply opt_str_eqb_eq in Exp. subst x.
    destruct (opt_str_eqb k p); simpl; [now rewrite andb_false_r | reflexivity].
  - destruct (opt_str_eqb k x) eqn:Ekx; simpl; [|reflexivity].
    apply opt_str_eqb_eq in Ekx. subst x. now rewrite Exp.
Qed.

Lemma set_mem_keys_minus {A} k (d : dict A) auto :
  dict_mem k d = true -> set_mem k auto = false ->
  set_mem k (keys_minus d auto) = true.
Proof.
  intros Hd Ha. unfold set_mem, keys_minus. apply existsb_exists.
  exists k. split; [|apply opt_str_eqb_refl].
  apply filter_In. split; [now apply dict_mem_In | now rewrite Ha].
Qed.

Lemma set_mem_truthy k s :
  set_mem k s = true -> floating_out_truthy (PrefixSet s) = true.
Proof. destruct s; [discriminate | reflexivity]. Qed.

Lemma explicit_kept_refl p g : explicit_kept p g g.
Proof. intros H. exact H. Qed.

Lemma explicit_kept_trans p a b c :
  explicit_kept p a b -> explicit_kept p b c -> explicit_kept p a c.
Proof. intros H1 H2 H. auto. Qed.

Lemma explicit_kept_declare p prefix uri auto :
  preserves (explicit_kept p) (startPrefixMapping V prefix uri auto).
Proof.
  intros g [Hin Hauto].
  unfold startPrefixMapping.
  destruct (invalid_prefix V prefix); [now split|].
  destruct (dict_mem prefix (_ns_prefixes_floating_in g)) eqn:Ep; [now split|].
  assert (Hne : opt_str_eqb p prefix = false).
  { destruct (opt_str_eqb p prefix) eqn:E; [|reflexivity].
    apply opt_str_eqb_eq in E. congruence. }
  destruct auto; simpl; rewrite dict_mem_set, Hin, orb_true_r;
    (split; [reflexivity|]); [|exact Hauto].
  now rewrite set_mem_add, Hne, Hauto.
Qed.

Lemma explicit_kept_resolve_names p name attributes :
  preserves (explicit_kept p) (resolve_names V name attributes).
Proof.
  apply preserves_resolve_names.
  - apply explicit_kept_refl.
  - apply explicit_kept_trans.
  - intros g H. exact H.
  - apply explicit_kept_declare.
Qed.

(** With prefixes still to be closed, [endElementNS] raises at once and
    [startElementNS] raises at the latest when it pins the declarations. *)
Lemma unclosed_prefix_raises g :
  floating_out_truthy (_ns_prefixes_floating_out g) = true ->
  (forall name,
      endElementNS V name g
      = (g, Raise (RuntimeError "namespace prefix has not been closed")))
  /\ (forall name attributes,
        is_raise (snd (startElementNS V name attributes g)) = true
        /\ (is_raise (snd (resolve_names V name attributes
                             (fst (_finish_pending_start_element g))))
            = false ->
            snd (startElementNS V name attributes g)
            = Raise (RuntimeError "namespace prefix has not been closed"))).
Proof.
  intros Hfo. split.
  - intros name. unfold endElementNS. now rewrite Hfo.
  - intros name attributes. unfold startElementNS.
    destruct (finish_pending_ok g) as (g0 & E0 & (_ & _ & Hfo0 & _) & _).
    erewrite bind_ok by exact E0. erewrite bind_ok by reflexivity.
    rewrite E0. simpl fst.
    pose proof (same_scope_resolve_names V name attributes g0)
      as (_ & _ & Hfo1 & _).
    destruct (resolve_names V name attributes g0) as [gr [qa|e]] eqn:Er;
      simpl fst in Hfo1.
    + erewrite bind_ok by exact Er.
      assert (Ep : _pin_floating_ns_decls (_ns_counter g0) gr
                   = (gr, Raise (RuntimeError
                                   "namespace prefix has not been closed"))).
      { unfold _pin_floating_ns_decls. now rewrite Hfo1, Hfo0, Hfo. }
      erewrite bind_raise by exact Ep. split; reflexivity.
    + erewrite bind_raise by exact Er. split; [reflexivity | discriminate].
Qed.

(** X7.  A prefix announced with [startPrefixMapping] that was never handed
    out automatically must be closed after its element: once the element is
    started and ended, [endElementNS] raises the [RuntimeError] without
    touching the generator, [startElementNS] raises too (the
    [RuntimeError], unless resolving its names fails first), and
    [endPrefixMapping] for the prefix is accepted. *)
Theorem unclosed_explicit_prefix_is_reported :
  forall (g g1 g2 : XMPPXMLGenerator) (p : option str)
         (name name' : name_t) (attributes : list (name_t * str)),
    dict_mem p (_ns_prefixes_floating_in g) = true ->
    set_mem p (_ns_auto_prefixes_floating_in g) = false ->
    startElementNS V name attributes g = (g1, Ok tt) ->
    endElementNS V name' g1 = (g2, Ok tt) ->
    (forall n,
        endElementNS V n g2
        = (g2, Raise (RuntimeError "namespace prefix has not been closed")))
    /\ (forall n a,
          is_raise (snd (startElementNS V n a g2)) = true
          /\ (is_raise (snd (resolve_names V n a
                               (fst (_finish_pending_start_element g2))))
              = false ->
              snd (startElementNS V n a g2)
              = Raise (RuntimeError "namespace prefix has not been closed")))
    /\ snd (endPrefixMapping p g2) = Ok tt.
Proof.
  intros g g1 g2 p name name' attributes Hin Hauto Hs He.
  apply startElementNS_pushes in Hs.
  destruct Hs as (gr & qa & Er & _ & _ & Hst & _).
  destruct (finish_pending_ok g) as (g0 & E0 & _ & _ & Hf0).
  destruct (finish_pending_counter g) as [_ Ha0].
  rewrite E0 in Er, Ha0. simpl fst in Er, Ha0.
  pose proof (explicit_kept_resolve_names p name attributes g0) as Hk.
  rewrite Er in Hk. simpl fst in Hk.
  destruct Hk as [Hin' Hauto']; [now rewrite Hf0, Ha0|].
  apply endElementNS_cases in He.
  destruct He as [[Hx _]|(_ & _ & f & Hst' & _ & Hfo & _)]; [discriminate|].
  rewrite Hst in Hst'. injection Hst' as <- _.
  simpl in Hfo.
  pose proof (set_mem_keys_minus p _ _ Hin' Hauto') as Hmem.
  assert (Htruthy : floating_out_truthy (_ns_prefixes_floating_out g2) = true)
    by (rewrite Hfo; eapply set_mem_truthy; eauto).
  destruct (unclosed_prefix_raises g2 Htruthy) as [H1 H2].
  split; [exact H1|]. split; [exact H2|].
  unfold endPrefixMapping. rewrite Hfo, Hmem. reflexivity.
Qed.

(** X8.  [endPrefixMapping] closes a prefix once: when it returns, the
    prefix was to be closed and no longer is, a second call for the same
    prefix raises [KeyError] and changes nothing, and the other prefixes
    are unaffected. *)
Theorem endPrefixMapping_closes_once :
  forall (g g1 : XMPPXMLGenerator) (p : option str),
    endPrefixMapping p g = (g1, Ok tt) ->
    endPrefixMapping p g1 = (g1, Raise KeyError)
    /\ forall q,
         opt_str_eqb q p = false ->
         snd (endPrefixMapping q g1) = snd (endPrefixMapping q g).
Proof.
  intros g g1 p H. unfold endPrefixMapping in *.
  destruct (_ns_prefixes_floating_out g) as [|s] eqn:Efo; [discriminate|].
  destruct (set_mem p s) eqn:Ep; [|discriminate].
  injection H as <-. simpl. split.
  - now rewrite set_mem_remove, opt_str_eqb_refl, andb_false_r.
  - intros q Hq. rewrite set_mem_remove, Hq, andb_true_r.
    destruct (set_mem q s); reflexivity.
Qed.

Lemma never_popped_refl g : never_popped g g.
Proof. intros H. exact H. Qed.

Lemma never_popped_trans a b c :
  never_popped a b -> never_popped b c -> never_popped a c.
Proof. intros H1 H2 H. auto. Qed.

Lemma never_popped_same g g' :
  _ns_prefixes_floating_out g' = _ns_prefixes_floating_out g ->
  never_popped g g'.
Proof. intros E H. now rewrite E. Qed.

Lemma never_popped_perform c :
  is_end_element c = false -> preserves never_popped (perform V c).
Proof.
  intros Hc.
  assert (Hd : forall prefix uri auto,
             preserves never_popped (startPrefixMapping V prefix uri auto)).
  { intros prefix uri auto g. apply never_popped_same.
    now destruct (same_scope_declare V prefix uri auto g) as (_ & _ & H & _). }
  assert (Hcl : forall prefix, preserves never_popped (endPrefixMapping prefix)).
  { intros prefix g H. unfold endPrefixMapping. now rewrite H. }
  pose proof (preserves_other_calls V never_popped
                never_popped_refl never_popped_trans
                (fun b g => never_popped_same _ _ eq_refl)
                (fun g => never_popped_same _ _ eq_refl)
                (fun v g => never_popped_same _ _ eq_refl)
                Hd Hcl c) as H.
  destruct c; try discriminate; try exact H.
  simpl.
  apply (preserves_startElementNS V never_popped
           never_popped_refl never_popped_trans
           (fun b g => never_popped_same _ _ eq_refl)
           (fun v g => never_popped_same _ _ eq_refl)
           (fun g => never_popped_same _ _ eq_refl) Hd).
  intros c g. apply never_popped_same. unfold _pin_floating_ns_decls.
  destruct (floating_out_truthy _); reflexivity.
Qed.

(** X9.  Until an [endElementNS] has returned, the prefixes to close are
    still the empty dict of the constructor, which has no [remove]:
    [endPrefixMapping] raises [AttributeError], for every prefix. *)
Theorem endPrefixMapping_before_any_close :
  forall (short : bool) (cs : list call) (prefix : option str),
    existsb is_end_element cs = false ->
    let g := fst (run V cs (new_generator short)) in
    endPrefixMapping prefix g = (g, Raise AttributeError).
Proof.
  intros short cs prefix Hcs g.
  assert (H : _ns_prefixes_floating_out g = EmptyDict).
  { subst g.
    assert (H0 : _ns_prefixes_floating_out (new_generator short) = EmptyDict)
      by reflexivity.
    revert H0. generalize (new_generator short).
    induction cs as [|c cs IH]; intros g0 H0; simpl; [exact H0|].
    simpl in Hcs. apply orb_false_iff in Hcs. destruct Hcs as [Hc Hcs].
    pose proof (never_popped_perform c Hc g0 H0) as H1.
    destruct (perform V c g0) as [g1 o]. simpl in H1.
    specialize (IH Hcs g1 H1). now destruct (run V cs g1). }
  unfold endPrefixMapping. now rewrite H.
Qed.

End ExplicitPrefixes.

Section NameResolution.

Import Generator.

Variable V : bytes -> bool.

Lemma same_scope_qname name attr : preserves same_scope (_qname V name attr).
Proof.
  apply preserves_qname.
  - exact same_scope_refl.
  - exact same_scope_trans.
  - intros g. repeat split.
  - apply same_scope_declare.
Qed.

(** X10.  Resolving a name is stable: once [_qname] has returned a
    qualified name, resolving the same name again returns the same
    qualified name and changes nothing, so no second prefix is rolled for
    a namespace that was just declared automatically. *)
Theorem qname_is_stable :
  forall (g g1 : XMPPXMLGenerator) (name : name_t) (attr : bool) (q : str),
    _qname V name attr g = (g1, Ok q) ->
    _qname V name attr g1 = (g1, Ok q).
Proof.
  intros g g1 [uri local] attr q H.
  destruct (qname_ok V uri local attr g g1 q H) as [Hvalid Hcases].
  pose proof (same_scope_qname (uri, local) attr g) as (Hc & _).
  rewrite H in Hc. simpl fst in Hc.
  destruct Hcases as [(_ & _ & -> & _)|[(Ht & Hx & ->)|(Ht & Hx & p & -> & Hp)]].
  - exact H.
  - unfold _qname. now rewrite Hvalid, Ht, Hx.
  - unfold _qname. rewrite Hvalid, Ht, Hx, Hc.
    destruct Hp as [[Hp _]|[Hn Hp]]; [now rewrite Hp|].
    now rewrite Hn, Hp.
Qed.

(** X11.  An announced prefix is the one that is used: after an accepted
    [startPrefixMapping] of [prefix] for [uri], a valid local name in that
    namespace resolves to [prefix:local] (to the bare local name for the
    absent prefix) without any change to the generator, provided the
    namespace is not the XML namespace and the active map does not bind it
    already. *)
Theorem declared_prefix_is_used :
  forall (g g1 : XMPPXMLGenerator) (prefix : option str) (uri local : str)
         (attr : bool),
    startPrefixMapping V prefix uri false g = (g1, Ok tt) ->
    truthy (Some uri) = true ->
    (uri =? xml_namespace)%string = false ->
    dict_get (Some uri) (_curr_ns_map g) = None ->
    contains_char ":" local = false ->
    xmlValidateNameValue_str V local = true ->
    _qname V (Some uri, local) attr g1 = (g1, Ok (join_prefix prefix local)).
Proof.
  intros g g1 prefix uri local attr H Ht Hx Hc Hcolon Hvalid.
  pose proof (same_scope_declare V prefix uri false g) as (Hc1 & _).
  rewrite H in Hc1. simpl fst in Hc1.
  apply startPrefixMapping_ok in H. destruct H as (_ & _ & _ & Hd).
  unfold _qname. rewrite Hcolon, Hvalid, Ht. simpl.
  rewrite Hx, Hc1, Hc, Hd, dict_get_set, opt_str_eqb_refl. reflexivity.
Qed.

Lemma decls_kept_resolve_names name attributes :
  preserves decls_kept (resolve_names V name attributes).
Proof.
  apply preserves_resolve_names_from_qname.
  - exact decls_kept_refl.
  - exact decls_kept_trans.
  - apply decls_kept_qname.
Qed.

(** X12.  [startElementNS] commits the pending declarations: when it
    returns, in a reachable state, nothing is pending any more, every
    namespace that was pending is active under its pending prefix, and a
    namespace that was active and not declared again keeps its prefix. *)
Theorem pending_declarations_become_active :
  forall (g g1 : XMPPXMLGenerator) (name : name_t)
         (attributes : list (name_t * str)),
    reachable V g ->
    startElementNS V name attributes g = (g1, Ok tt) ->
    _ns_prefixes_floating_in g1 = []
    /\ _ns_decls_floating_in g1 = []
    /\ (forall uri prefix,
          dict_get uri (_ns_decls_floating_in g) = Some prefix ->
          dict_get uri (_curr_ns_map g1) = Some prefix)
    /\ (forall uri prefix,
          dict_get uri (_curr_ns_map g) = Some prefix ->
          dict_get uri (_ns_decls_floating_in g) = None ->
          dict_get uri (_curr_ns_map g1) = Some prefix).
Proof.
  intros g g1 name attributes Hreach Hs.
  apply startElementNS_pushes in Hs.
  destruct Hs as (gr & qa & Er & _ & _ & _ & Hc & Hfi & Hd).
  destruct (finish_pending_ok g) as (g0 & E0 & (Hc0 & _) & Hd0 & _).
  rewrite E0 in Er. simpl fst in Er.
  pose proof (decls_kept_resolve_names name attributes g0) as Hk.
  pose proof (keeps_decls_ok_resolve_names V name attributes g0) as Hok.
  rewrite Er in Hk, Hok. simpl fst in Hk, Hok.
  destruct Hk as (_ & Kkeep & Knone).
  destruct Hok as [_ Hnodup].
  { destruct (reachable_decls_ok V g Hreach). split; now rewrite Hd0. }
  split; [exact Hfi|]. split; [exact Hd|]. split.
  - intros uri prefix H. rewrite Hc, dict_get_update by exact Hnodup.
    rewrite <- Hd0 in H. now rewrite (Kkeep _ _ H).
  - intros uri prefix H Hn. rewrite Hc, dict_get_update by exact Hnodup.
    rewrite <- Hd0 in Hn. rewrite <- Hc0 in H.
    rewrite (Knone uri); [now rewrite <- Hc0| |exact Hn].
    unfold dict_mem. now rewrite H.
Qed.

Lemma resolved_attributes (attributes : list (name_t * str)) g g1 attrib :
  mapM (fun av : name_t * str =>
          q <- _qname V (fst av) true ;; ret (q, snd av))%method
    attributes g = (g1, Ok attrib) ->
  forall local value,
    In ((None, local), value) attributes -> In (local, value) attrib.
Proof.
  revert g attrib. induction attributes as [|[n v] l IH];
    intros g attrib H local value Hin; [contradiction|].
  simpl in H. unfold bind at 1 2 in H.
  destruct (_qname V n true g) as [ga [q|e]] eqn:Eq; [|discriminate].
  unfold ret at 1 in H. unfold bind in H.
  destruct (mapM _ l ga) as [gb [bs|e]] eqn:Em; [|discriminate].
  unfold ret in H. injection H as <- <-.
  destruct Hin as [[= -> ->]|Hin].
  - left. destruct (qname_ok V None local true g ga q Eq) as [_ Hc].
    destruct Hc as [(_ & -> & _)|[(Ht & _)|(Ht & _)]];
      [reflexivity | discriminate | discriminate].
  - right. eapply IH; eauto.
Qed.

(** X13.  An unnamespaced attribute called [xmlns] never reaches the sink
    as a declaration: [startElementNS] with such an attribute raises, and
    writes nothing but the [>] of a deferred start tag. *)
Theorem xmlns_attribute_is_rejected :
  forall (g : XMPPXMLGenerator) (name : name_t)
         (attributes : list (name_t * str)) (value : str),
    In ((None, "xmlns"%string), value) attributes ->
    is_raise (snd (startElementNS V name attributes g)) = true
    /\ out_written (fst (startElementNS V name attributes g))
       = out_written (fst (_finish_pending_start_element g)).
Proof.
  intros g name attributes value Hin.
  unfold startElementNS.
  destruct (finish_pending_ok g) as (g0 & E0 & _).
  erewrite bind_ok by exact E0. erewrite bind_ok by reflexivity.
  rewrite E0. simpl fst.
  pose proof (same_sink_resolve_names V name attributes g0) as [Hw _].
  destruct (resolve_names V name attributes g0) as [gr [qa|e]] eqn:Er;
    simpl fst in Hw.
  2:{ erewrite bind_raise by exact Er. split; [reflexivity | exact Hw]. }
  exfalso. unfold resolve_names in Er.
  destruct (_qname V name false g0) as [ga [q|e]] eqn:Eq.
  2:{ erewrite bind_raise in Er by exact Eq. discriminate. }
  erewrite bind_ok in Er by exact Eq.
  match type of Er with
  | bind ?m _ _ = _ => destruct (m ga) as [gb [attrib|e]] eqn:Ea
  end.
  2:{ erewrite bind_raise in Er by exact Ea. discriminate. }
  erewrite bind_ok in Er by exact Ea.
  pose proof (resolved_attributes attributes ga gb attrib Ea _ _ Hin) as Hx.
  unfold bind in Er.
  match type of Er with
  | context [existsb ?f attrib] =>
      assert (Hex : existsb f attrib = true)
        by (apply existsb_exists; exists ("xmlns"%string, value); now split);
      rewrite Hex in Er
  end.
  discriminate.
Qed.

End NameResolution.

(** ** The bytes of character data *)

Lemma any_char_app p x y :
  Generator.any_char p (x ++ y)%string
  = Generator.any_char p x || Generator.any_char p y.
Proof.
  induction x as [|c x IH]; simpl; [reflexivity|].
  now rewrite IH, orb_assoc.
Qed.

Lemma markup_free_char c :
  Generator.restricted_char c = false ->
  Generator.any_char markup_or_control (encode (escape_char c)) = false.
Proof.
  destruct c as [[] [] [] [] [] [] [] []]; vm_compute; congruence.
Qed.

Lemma string_app_assoc (x y z : string) :
  ((x ++ y) ++ z = x ++ (y ++ z))%string.
Proof. induction x as [|a x IH]; simpl; [reflexivity | now rewrite IH]. Qed.

Lemma encode_app x y : encode (x ++ y)%string = (encode x ++ encode y)%string.
Proof.
  induction x as [|c x IH]; simpl; [reflexivity|].
  now rewrite IH, string_app_assoc.
Qed.

Lemma markup_free_text s :
  Generator.any_char Generator.restricted_char s = false ->
  Generator.any_char markup_or_control (encode (escaped s)) = false.
Proof.
  induction s as [|c s IH]; simpl; [reflexivity|].
  intros H. apply orb_false_iff in H. destruct H as [Hc Hs].
  rewrite encode_app, any_char_app, (markup_free_char c Hc). now apply IH.
Qed.

(** X14.  Character data cannot break the markup: when [characters]
    returns, the one chunk it has written for the text holds no [<] and no
    [>] byte, and no control byte other than tab, newline and carriage
    return. *)
Theorem characters_writes_no_markup :
  forall (g g' : Generator.XMPPXMLGenerator) (chars : str),
    Generator.characters chars g = (g', Ok tt) ->
    exists chunk,
      Generator.out_written g'
      = Generator.out_written
          (fst (Generator._finish_pending_start_element g)) ++ [chunk]
      /\ Generator.any_char markup_or_control chunk = false.
Proof.
  intros g g' chars H. unfold Generator.characters in H.
  destruct (finish_pending_ok g) as (g0 & E0 & _).
  erewrite bind_ok in H by exact E0. rewrite E0. simpl fst.
  destruct (Generator.any_char Generator.restricted_char chars) eqn:E;
    [discriminate|].
  rewrite write_eq in H. injection H as <-.
  exists (encode (escape chars)). split; [reflexivity|].
  rewrite escape_escaped. now apply markup_free_text.
Qed.

(** * Further properties of the stream processor *)

Lemma attrs_get_remove_other k k' d :
  name_eqb k' k = false ->
  Processor.attrs_get k (Processor.attrs_remove k' d) = Processor.attrs_get k d.
Proof.
  intros Hne. induction d as [|[k1 v] d IH]; simpl; [reflexivity|].
  destruct (name_eqb k1 k') eqn:E1.
  - apply name_eqb_eq in E1. subst k1. now rewrite Hne.
  - simpl. now rewrite IH.
Qed.

Section ProcessorMore.

Variables namespaces_xmlstream namespaces_streams : str.
Variable JID : Type.
Variable JID_fromstr : str -> result JID.
Variable int : str -> string + Z.
Variable StanzaParser : Type.
Variable SAXDriver : Type.
Variable SAXDriver_new : option StanzaParser -> SAXDriver.
Variable SAXDriver_call :
  Processor.driver_event -> SAXDriver -> SAXDriver * result unit.

Local Abbreviation processor :=
  (Processor.XMPPXMLProcessor JID StanzaParser SAXDriver).
Local Abbreviation startElementNS :=
  (Processor.startElementNS namespaces_xmlstream namespaces_streams
     JID JID_fromstr int StanzaParser SAXDriver SAXDriver_call).
Local Abbreviation endElementNS :=
  (Processor.endElementNS JID StanzaParser SAXDriver SAXDriver_call).
Local Abbreviation process_header :=
  (Processor.process_header namespaces_streams JID JID_fromstr int
     StanzaParser SAXDriver).
Local Abbreviation perform :=
  (Processor.perform namespaces_xmlstream namespaces_streams
     JID JID_fromstr int StanzaParser SAXDriver SAXDriver_new SAXDriver_call).
Local Abbreviation run :=
  (Processor.run namespaces_xmlstream namespaces_streams
     JID JID_fromstr int StanzaParser SAXDriver SAXDriver_new SAXDriver_call).
Local Abbreviation reachable :=
  (Processor.reachable namespaces_xmlstream namespaces_streams
     JID JID_fromstr int StanzaParser SAXDriver SAXDriver_new SAXDriver_call).
Local Abbreviation envelope :=
  (Some namespaces_xmlstream, "stream"%string).

Lemma version_eqb_eq v : Processor.version_eqb v = true -> v = [1; 0].
Proof.
  destruct v as [|a [|b [|c t]]]; try discriminate. simpl.
  destruct (Z.eqb_spec a 1); [|discriminate].
  destruct (Z.eqb_spec b 0); [|discriminate]. now subst.
Qed.

(** X15.  A stream header is accepted as a whole: with the envelope
    element, a [version] that parses to [(1, 0)], a [to] that is absent or
    parses, a [from] that parses and an [id], [startElementNS] in state
    [STARTED] returns, stores the four header fields, moves to
    [STREAM_HEADER_PROCESSED] with the depth raised by one, and forwards
    nothing to the stanza driver. *)
Theorem stream_header_accepted :
  forall (p : processor) (qname : option str)
         (attributes : Processor.attrs_t) (version from id : str)
         (j : JID) (to : option JID) (d : Z),
    Processor._state p = Processor.STARTED ->
    Processor._depth p = Some d ->
    Processor.attrs_get (None, "version"%string) attributes = Some version ->
    Processor.map_int int (Processor.split_char "." version) = inr [1; 0] ->
    match Processor.attrs_get (None, "to"%string) attributes with
    | None => to = None
    | Some s => exists j', JID_fromstr s = Ok j' /\ to = Some j'
    end ->
    Processor.attrs_get (None, "from"%string) attributes = Some from ->
    JID_fromstr from = Ok j ->
    Processor.attrs_get (None, "id"%string) attributes = Some id ->
    startElementNS envelope qname attributes p
    = (Processor.set_depth (Some (d + 1))
         (Processor.set_state Processor.STREAM_HEADER_PROCESSED
            (Processor.set_remote_id (Some id)
               (Processor.set_remote_from (Some j)
                  (Processor.set_remote_to (Some to)
                     (Processor.set_remote_version (Some [1; 0]) p))))),
       Ok tt).
Proof.
  intros p qname attributes version from id j to d
    Hst Hd Hver Hparse Hto Hfrom Hj Hid.
  unfold Processor.startElementNS. rewrite Hst, name_eqb_refl. simpl negb.
  cbv iota. unfold Processor.process_header.
  rewrite Hver, Hparse. simpl Processor.version_eqb. simpl negb. cbv iota.
  rewrite !attrs_get_remove_other by reflexivity.
  rewrite Hfrom, Hid, Hj.
  destruct (Processor.attrs_get (None, "to"%string) attributes) as [s|].
  - destruct Hto as (j' & -> & ->).
    unfold Processor.add_depth. simpl. now rewrite Hd.
  - subst to. unfold Processor.add_depth. simpl. now rewrite Hd.
Qed.

(** What the header branch can leave behind. *)
Lemma process_header_cases attributes (p : processor) d :
  Processor._depth p = Some d ->
  let r := process_header attributes p in
  Processor.forwarded (fst r) = Processor.forwarded p
  /\ Processor._driver (fst r) = Processor._driver p
  /\ Processor._stanza_parser (fst r) = Processor._stanza_parser p
  /\ ((snd r = Ok tt
       /\ Processor._state (fst r) = Processor.STREAM_HEADER_PROCESSED
       /\ Processor._depth (fst r) = Some (d + 1)
       /\ Processor.remote_version (fst r) = Some [1; 0]
       /\ Processor.remote_from (fst r) <> None
       /\ Processor.remote_id (fst r) <> None)
      \/ (is_raise (snd r) = true
          /\ Processor._state (fst r) = Processor._state p
          /\ Processor._depth (fst r) = Some d)).
Proof.
  intros Hd r. subst r. unfold Processor.process_header.
  destruct (Processor.map_int int _) as [msg|v];
    [simpl; repeat split; auto|].
  destruct (Processor.version_eqb v) eqn:Ev;
    [|simpl; repeat split; auto].
  apply version_eqb_eq in Ev. subst v. simpl negb. cbv iota.
  match goal with
  | |- context [match ?x with Ok _ => _ | Raise _ => _ end] =>
      destruct x as [to|e]
  end; [|simpl; repeat split; auto].
  match goal with
  | |- context [Processor.attrs_get (None, "from"%string) ?a] =>
      destruct (Processor.attrs_get (None, "from"%string) a) as [f|]
  end; [|simpl; repeat split; auto].
  destruct (JID_fromstr f) as [j|e];
    [|destruct e; simpl; repeat split; auto].
  match goal with
  | |- context [Processor.attrs_get (None, "id"%string) ?a] =>
      destruct (Processor.attrs_get (None, "id"%string) a) as [i|]
  end; [|simpl; repeat split; auto].
  unfold Processor.add_depth. simpl. rewrite Hd. simpl.
  repeat split. left. repeat split; discriminate.
Qed.

(** X16.  Header processing is all or nothing for the state machine: in
    state [STARTED], whatever the element and its attributes,
    [startElementNS] either returns in [STREAM_HEADER_PROCESSED] with the
    depth raised by one, version [(1, 0)], [remote_from] and [remote_id]
    set, or raises and leaves the state and the depth as they were; in both
    cases nothing is forwarded to the stanza driver. *)
Theorem header_is_all_or_nothing :
  forall (p : processor) (name : name_t) (qname : option str)
         (attributes : Processor.attrs_t) (d : Z),
    Processor._state p = Processor.STARTED ->
    Processor._depth p = Some d ->
    let r := startElementNS name qname attributes p in
    Processor.forwarded (fst r) = Processor.forwarded p
    /\ Processor._driver (fst r) = Processor._driver p
    /\ ((snd r = Ok tt
         /\ Processor._state (fst r) = Processor.STREAM_HEADER_PROCESSED
         /\ Processor._depth (fst r) = Some (d + 1)
         /\ Processor.remote_version (fst r) = Some [1; 0]
         /\ Processor.remote_from (fst r) <> None
         /\ Processor.remote_id (fst r) <> None)
        \/ (is_raise (snd r) = true
            /\ Processor._state (fst r) = Processor.STARTED
            /\ Processor._depth (fst r) = Some d)).
Proof.
  intros p name qname attributes d Hst Hd r. subst r.
  unfold Processor.startElementNS. rewrite Hst.
  destruct (negb _).
  - simpl. repeat split; auto.
  - destruct (process_header_cases attributes p d Hd)
      as (Hf & Hdr & _ & Hcases).
    split; [exact Hf|]. split; [exact Hdr|].
    destruct Hcases as [H|(H1 & H2 & H3)]; [left; exact H|].
    right. rewrite H2, Hst. auto.
Qed.

(** X17.  A header without a [version] attribute is read as version 0.9
    and rejected: [startElementNS] for the envelope element raises the
    stream error [unsupported-version] with the text [0.9] and stays in
    [STARTED]. *)
Theorem missing_version_is_rejected :
  forall (p : processor) (qname : option str)
         (attributes : Processor.attrs_t),
    Processor._state p = Processor.STARTED ->
    Processor.attrs_get (None, "version"%string) attributes = None ->
    int "0"%string = inr 0 ->
    int "9"%string = inr 9 ->
    startElementNS envelope qname attributes p
    = (Processor.set_remote_version (Some [0; 9]) p,
       Raise (Processor.unsupported_version namespaces_streams "0.9")).
Proof.
  intros p qname attributes Hst Hver H0 H9.
  unfold Processor.startElementNS. rewrite Hst, name_eqb_refl. simpl negb.
  cbv iota. unfold Processor.process_header. rewrite Hver.
  simpl Processor.split_char. simpl Processor.map_int. rewrite H0, H9.
  reflexivity.
Qed.

(** X18.  [from] and [id] are mandatory: with a supported version and a
    [to] that is absent or parses, a header without [from] raises the
    stream error [undefined-condition], and so does a header whose [from]
    parses but that has no [id]; the processor stays in [STARTED]. *)
Theorem missing_from_or_id_is_rejected :
  forall (p : processor) (qname : option str)
         (attributes : Processor.attrs_t) (version : str),
    Processor._state p = Processor.STARTED ->
    Processor.attrs_get (None, "version"%string) attributes = Some version ->
    Processor.map_int int (Processor.split_char "." version) = inr [1; 0] ->
    match Processor.attrs_get (None, "to"%string) attributes with
    | None => True
    | Some s => is_raise (JID_fromstr s) = false
    end ->
    let r := startElementNS envelope qname attributes p in
    (Processor.attrs_get (None, "from"%string) attributes = None ->
     snd r = Raise (Processor.undefined_condition namespaces_streams
                      "from attribute required in response header")
     /\ Processor._state (fst r) = Processor.STARTED)
    /\ (forall from,
          Processor.attrs_get (None, "from"%string) attributes = Some from ->
          is_raise (JID_fromstr from) = false ->
          Processor.attrs_get (None, "id"%string) attributes = None ->
          snd r = Raise (Processor.undefined_condition namespaces_streams
                           "id attribute required in response header")
          /\ Processor._state (fst r) = Processor.STARTED).
Proof.
  intros p qname attributes version Hst Hver Hparse Hto r. subst r.
  unfold Processor.startElementNS. rewrite Hst, name_eqb_refl. simpl negb.
  cbv iota. unfold Processor.process_header.
  rewrite Hver, Hparse. simpl Processor.version_eqb. simpl negb. cbv iota.
  rewrite !attrs_get_remove_other by reflexivity.
  assert (Hto' : exists to,
             match Processor.attrs_get (None, "to"%string) attributes with
             | None => Ok None
             | Some s => match JID_fromstr s with
                         | Ok j => Ok (Some j)
                         | Raise e => Raise e
                         end
             end = Ok to).
  { destruct (Processor.attrs_get (None, "to"%string) attributes) as [s|];
      [|eauto].
    destruct (JID_fromstr s); [eauto | discriminate]. }
  destruct Hto' as [to ->]. split.
  - intros ->. simpl. auto.
  - intros from Hfrom Hj Hid. rewrite Hfrom, Hid.
    destruct (JID_fromstr from); [|discriminate]. simpl. auto.
Qed.

(** X19.  Only the body reaches the stanza driver: a callback received in
    a state other than [STREAM_HEADER_PROCESSED] forwards nothing. *)
Theorem nothing_forwarded_outside_body :
  forall (c : Processor.callback StanzaParser) (p : processor),
    Processor._state p <> Processor.STREAM_HEADER_PROCESSED ->
    Processor.forwarded (fst (perform c p)) = Processor.forwarded p.
Proof.
  intros c p Hst.
  destruct c; simpl; try reflexivity.
  - unfold Processor.set_stanza_parser_property.
    destruct (Processor._state p); reflexivity.
  - unfold Processor.startEntity. destruct (existsb _ _); reflexivity.
  - unfold Processor.characters.
    destruct (Processor._state p); try reflexivity. now elim Hst.
  - unfold Processor.startDocument.
    destruct (Processor._state p); reflexivity.
  - unfold Processor.endDocument.
    destruct (Processor._state p); reflexivity.
  - unfold Processor.startElementNS.
    destruct (Processor._state p) eqn:E; try reflexivity; [|now elim Hst].
    destruct (negb _); [reflexivity|].
    unfold Processor.process_header.
    repeat match goal with
           | |- context [match ?x with _ => _ end] => destruct x
           | |- context [if ?x then _ else _] => destruct x
           end; try reflexivity.
    all: unfold Processor.add_depth; simpl;
      destruct (Processor._depth p); reflexivity.
  - unfold Processor.endElementNS.
    destruct (Processor._state p); try reflexivity. now elim Hst.
Qed.

(** X20.  The processor walks its states in one direction, and each step
    has one cause: a callback leaves the state as it was, or it is
    [startDocument] from [CLEAN], [startElementNS] from [STARTED],
    [endElementNS] from [STREAM_HEADER_PROCESSED] or [endDocument] from
    [STREAM_FOOTER_PROCESSED], and the new state is the next one. *)
Theorem state_moves_forward :
  forall (c : Processor.callback StanzaParser) (p : processor),
    let s := Processor._state p in
    let s' := Processor._state (fst (perform c p)) in
    s' = s
    \/ (s' = next_state s
        /\ match c with
           | Processor.CbStartDocument _ => s = Processor.CLEAN
           | Processor.CbStartElementNS _ _ _ _ => s = Processor.STARTED
           | Processor.CbEndElementNS _ _ _ =>
               s = Processor.STREAM_HEADER_PROCESSED
           | Processor.CbEndDocument _ =>
               s = Processor.STREAM_FOOTER_PROCESSED
           | _ => False
           end).
Proof.
  intros c p s s'. subst s s'.
  destruct c; simpl; try (left; reflexivity).
  - left. unfold Processor.set_stanza_parser_property.
    destruct (Processor._state p) eqn:E; simpl; auto.
  - left. unfold Processor.startEntity. destruct (existsb _ _); reflexivity.
  - left. unfold Processor.characters, Processor.call_driver.
    destruct (Processor._state p) eqn:E; simpl; auto.
    destruct (Processor._driver p); simpl; auto.
    destruct (SAXDriver_call _ _). simpl. auto.
  - unfold Processor.startDocument.
    destruct (Processor._state p) eqn:E; simpl; auto.
  - unfold Processor.endDocument.
    destruct (Processor._state p) eqn:E; simpl; auto.
  - unfold Processor.startElementNS.
    destruct (Processor._state p) eqn:E; simpl; auto.
    + destruct (negb _); [simpl; auto|].
      unfold Processor.process_header.
      repeat match goal with
             | |- context [match ?x with _ => _ end] => destruct x
             | |- context [if ?x then _ else _] => destruct x
             end; simpl; auto.
      all: unfold Processor.add_depth; simpl;
        destruct (Processor._depth p); simpl; auto.
    + left. unfold bind, Processor.call_driver.
      destruct (Processor._driver p); simpl; auto.
      destruct (SAXDriver_call _ _) as [d' [[]|e]]; simpl; auto.
      unfold Processor.add_depth. simpl.
      destruct (Processor._depth p); simpl; auto.
  - unfold Processor.endElementNS.
    destruct (Processor._state p) eqn:E; simpl; auto.
    unfold bind, Processor.add_depth.
    destruct (Processor._depth p) as [n|]; simpl; auto.
    destruct (0 <? n + -1); simpl; auto.
    left. unfold Processor.call_driver. simpl.
    destruct (Processor._driver p); simpl; auto.
    destruct (SAXDriver_call _ _). simpl. auto.
Qed.

Lemma call_driver_fields ev (p : processor) :
  let r := Processor.call_driver JID StanzaParser SAXDriver SAXDriver_call
             ev p in
  Processor._state (fst r) = Processor._state p
  /\ Processor._depth (fst r) = Processor._depth p
  /\ (Processor._driver p <> None -> Processor._driver (fst r) <> None).
Proof.
  unfold Processor.call_driver.
  destruct (Processor._driver p) as [d|]; [|simpl; auto].
  destruct (SAXDriver_call ev d). simpl. repeat split. discriminate.
Qed.

Lemma perform_keeps_depth c (p : processor) :
  depth_matches_state p -> depth_matches_state (fst (perform c p)).
Proof.
  intros H. destruct c; simpl; try exact H.
  - unfold Processor.set_stanza_parser_property.
    unfold depth_matches_state in *.
    destruct (Processor._state p) eqn:E; simpl; rewrite ?E; auto.
  - unfold Processor.startEntity. destruct (existsb _ _); exact H.
  - unfold Processor.characters.
    destruct (Processor._state p) eqn:E; try exact H.
    destruct (call_driver_fields (Processor.DriverCharacters chars) p)
      as (Hs & Hd & Hdr).
    unfold depth_matches_state in *. rewrite Hs, Hd, E in *.
    destruct H as [H1 H2]. auto.
  - unfold Processor.startDocument, depth_matches_state in *.
    destruct (Processor._state p) eqn:E; simpl; rewrite ?E; auto.
    split; [reflexivity | discriminate].
  - unfold Processor.endDocument, depth_matches_state in *.
    destruct (Processor._state p) eqn:E; simpl; rewrite ?E; auto.
  - unfold Processor.startElementNS.
    destruct (Processor._state p) eqn:E; try exact H.
    + destruct (negb _); [exact H|].
      unfold depth_matches_state in H. rewrite E in H.
      destruct H as [Hd Hdr].
      destruct (process_header_cases attributes p 0 Hd)
        as (_ & Hdr' & _ & Hcases).
      unfold depth_matches_state.
      destruct Hcases as [(_ & Hs & Hd' & _)|(_ & Hs & Hd')];
        rewrite Hs, ?E, Hd', Hdr'.
      * split; [exists (0 + 1); split; [reflexivity | lia] | exact Hdr].
      * now split.
    + unfold depth_matches_state in H. rewrite E in H.
      destruct H as [(d & Hd & Hge) Hdr].
      destruct (call_driver_fields
                  (Processor.DriverStartElementNS name qname attributes) p)
        as (Hs & Hd1 & Hdr1).
      unfold bind.
      destruct (Processor.call_driver _ _ _ _ _ p) as [p1 [[]|e]];
        simpl fst in *.
      * unfold Processor.add_depth. rewrite Hd1, Hd. simpl.
        unfold depth_matches_state. simpl. rewrite Hs, E.
        split; [exists (d + 1); split; [reflexivity | lia] | auto].
      * unfold depth_matches_state. rewrite Hs, E, Hd1, Hd.
        split; [exists d; auto | auto].
  - unfold Processor.endElementNS.
    destruct (Processor._state p) eqn:E; try exact H.
    unfold depth_matches_state in H. rewrite E in H.
    destruct H as [(d & Hd & Hge) Hdr].
    unfold bind, Processor.add_depth. rewrite Hd. simpl.
    destruct (0 <? d + -1) eqn:Ed.
    + apply Z.ltb_lt in Ed.
      destruct (call_driver_fields
                  (Processor.DriverEndElementNS name qname)
                  (Processor.set_depth (Some (d + -1)) p))
        as (Hs & Hd1 & Hdr1).
      unfold depth_matches_state. rewrite Hs, Hd1. simpl. rewrite E.
      split; [exists (d + -1); split; [reflexivity | lia] | auto].
    + apply Z.ltb_ge in Ed. unfold depth_matches_state. simpl.
      f_equal. lia.
Qed.

(** X21.  The depth counts the open elements: in every reachable state of
    the processor the depth is 0 in [STARTED] and in
    [STREAM_FOOTER_PROCESSED], at least 1 in [STREAM_HEADER_PROCESSED], and
    a stanza driver is installed in [STARTED] and in
    [STREAM_HEADER_PROCESSED], whatever the driver answered to the calls it
    received. *)
Theorem depth_counts_open_elements :
  forall p : processor, reachable p -> depth_matches_state p.
Proof.
  intros p [cs <-].
  assert (H0 : depth_matches_state
                 (Processor.new_processor JID StanzaParser SAXDriver))
    by exact I.
  revert H0. generalize (Processor.new_processor JID StanzaParser SAXDriver).
  induction cs as [|c cs IH]; intros p0 H0; simpl; [exact H0|].
  apply IH. now apply perform_keeps_depth.
Qed.

(** X22.  An element of the body is forwarded and leaves the depth as it
    was: in [STREAM_HEADER_PROCESSED] at a depth of at least 1, with a
    driver that accepts both calls, [startElementNS] followed by
    [endElementNS] forwards exactly these two events, in this order, and
    the processor is back at the same depth in the same state. *)
Theorem body_element_round_trip :
  forall (p : processor) (name name' : name_t) (qname qname' : option str)
         (attributes : Processor.attrs_t)
         (drv drv1 drv2 : SAXDriver) (d : Z),
    Processor._state p = Processor.STREAM_HEADER_PROCESSED ->
    Processor._depth p = Some d ->
    1 <= d ->
    Processor._driver p = Some drv ->
    SAXDriver_call (Processor.DriverStartElementNS name qname attributes) drv
    = (drv1, Ok tt) ->
    SAXDriver_call (Processor.DriverEndElementNS name' qname') drv1
    = (drv2, Ok tt) ->
    exists p1 p2,
      startElementNS name qname attributes p = (p1, Ok tt)
      /\ endElementNS name' qname' p1 = (p2, Ok tt)
      /\ Processor._state p2 = Processor.STREAM_HEADER_PROCESSED
      /\ Processor._depth p2 = Some d
      /\ Processor._driver p2 = Some drv2
      /\ Processor.forwarded p2
         = Processor.forwarded p
           ++ [Processor.DriverStartElementNS name qname attributes;
               Processor.DriverEndElementNS name' qname'].
Proof.
  intros p name name' qname qname' attributes drv drv1 drv2 d
    Hst Hd Hge Hdrv H1 H2.
  set (ev1 := Processor.DriverStartElementNS name qname attributes) in *.
  set (ev2 := Processor.DriverEndElementNS name' qname') in *.
  set (p1 := Processor.set_depth (Some (d + 1))
               (Processor.set_forwarded (Processor.forwarded p ++ [ev1])
                  (Processor.set_driver (Some drv1) p))).
  assert (E1 : startElementNS name qname attributes p = (p1, Ok tt)).
  { unfold Processor.startElementNS. rewrite Hst.
    unfold bind, Processor.call_driver. rewrite Hdrv. fold ev1. rewrite H1.
    unfold Processor.add_depth. simpl. now rewrite Hd. }
  set (p2 := Processor.set_forwarded (Processor.forwarded p1 ++ [ev2])
               (Processor.set_driver (Some drv2)
                  (Processor.set_depth (Some (d + 1 + -1)) p1))).
  assert (E2 : endElementNS name' qname' p1 = (p2, Ok tt)).
  { unfold Processor.endElementNS.
    change (Processor._state p1) with (Processor._state p). rewrite Hst.
    unfold bind, Processor.add_depth.
    change (Processor._depth p1) with (Some (d + 1)). cbv iota beta.
    simpl Processor._depth.
    unfold Processor.call_driver. simpl Processor._driver. fold ev2.
    replace (0 <? d + 1 + -1) with true by (symmetry; apply Z.ltb_lt; lia).
    cbv iota. rewrite H2. reflexivity. }
  exists p1, p2. split; [exact E1|]. split; [exact E2|].
  subst p2 p1. simpl. repeat split.
  - exact Hst.
  - f_equal. lia.
  - now rewrite <- app_assoc.
Qed.

(** X23.  The closing tag of the envelope ends the stream and frees the
    processor for the next one: at depth 1 [endElementNS] forwards nothing
    and moves to [STREAM_FOOTER_PROCESSED] with depth 0, [endDocument]
    then returns to [CLEAN] and drops the driver, and [startDocument] is
    accepted again, with a new driver made from the stanza parser. *)
Theorem envelope_end_and_reuse :
  forall (p : processor) (name : name_t) (qname : option str),
    Processor._state p = Processor.STREAM_HEADER_PROCESSED ->
    Processor._depth p = Some 1 ->
    let p1 := fst (endElementNS name qname p) in
    let p2 := fst (Processor.endDocument JID StanzaParser SAXDriver p1) in
    let p3 := fst (Processor.startDocument JID StanzaParser SAXDriver
                     SAXDriver_new p2) in
    snd (endElementNS name qname p) = Ok tt
    /\ Processor._state p1 = Processor.STREAM_FOOTER_PROCESSED
    /\ Processor._depth p1 = Some 0
    /\ Processor.forwarded p1 = Processor.forwarded p
    /\ snd (Processor.endDocument JID StanzaParser SAXDriver p1) = Ok tt
    /\ Processor._state p2 = Processor.CLEAN
    /\ Processor._driver p2 = None
    /\ snd (Processor.startDocument JID StanzaParser SAXDriver
              SAXDriver_new p2) = Ok tt
    /\ Processor._state p3 = Processor.STARTED
    /\ Processor._depth p3 = Some 0
    /\ Processor._driver p3
       = Some (SAXDriver_new (Processor._stanza_parser p))
    /\ Processor.forwarded p3 = Processor.forwarded p.
Proof.
  intros p name qname Hst Hd p1 p2 p3. subst p1 p2 p3.
  unfold Processor.endElementNS. rewrite Hst.
  unfold bind, Processor.add_depth. rewrite Hd. simpl.
  repeat split.
Qed.

Lemma perform_in_stream c (p : processor) :
  Processor._state p <> Processor.CLEAN ->
  is_end_document c = false ->
  Processor._state (fst (perform c p)) <> Processor.CLEAN
  /\ Processor._stanza_parser (fst (perform c p))
     = Processor._stanza_parser p.
Proof.
  intros Hst Hc.
  assert (Hsame : forall q : processor,
             Processor._state q = Processor._state p ->
             Processor._stanza_parser q = Processor._stanza_parser p ->
             Processor._state q <> Processor.CLEAN
             /\ Processor._stanza_parser q = Processor._stanza_parser p).
  { intros q Hq Hq'. rewrite Hq. now split. }
  destruct c; simpl; try discriminate Hc;
    try (split; [exact Hst|reflexivity]).
  - unfold Processor.set_stanza_parser_property.
    destruct (Processor._state p) eqn:E; try (now elim Hst);
      now apply Hsame.
  - unfold Processor.startEntity.
    destruct (existsb _ _); now apply Hsame.
  - unfold Processor.characters, Processor.call_driver.
    destruct (Processor._state p) eqn:E; try (now apply Hsame).
    destruct (Processor._driver p); try (now apply Hsame).
    destruct (SAXDriver_call _ _). now apply Hsame.
  - unfold Processor.startDocument.
    destruct (Processor._state p) eqn:E; try (now elim Hst);
      now apply Hsame.
  - unfold Processor.startElementNS.
    destruct (Processor._state p) eqn:E; try (now apply Hsame).
    + destruct (negb _); [now apply Hsame|].
      destruct (Processor._depth p) as [d|] eqn:Ed.
      * destruct (process_header_cases attributes p d Ed)
          as (_ & _ & Hsp & [(_ & Hs & _)|(_ & Hs & _)]).
        -- split; [rewrite Hs; discriminate | exact Hsp].
        -- split; [rewrite Hs, E; discriminate | exact Hsp].
      * unfold Processor.process_header.
        repeat match goal with
               | |- context [match ?x with _ => _ end] => destruct x
               | |- context [if ?x then _ else _] => destruct x
               end; simpl; try (now apply Hsame).
        all: unfold Processor.add_depth; simpl; rewrite Ed; simpl;
          split; try discriminate; reflexivity.
    + unfold bind, Processor.call_driver.
      destruct (Processor._driver p); try (now apply Hsame).
      destruct (SAXDriver_call _ _) as [d' [[]|e]]; simpl;
        try (now apply Hsame).
      unfold Processor.add_depth. simpl.
      destruct (Processor._depth p); simpl; now apply Hsame.
  - unfold Processor.endElementNS.
    destruct (Processor._state p) eqn:E; try (now apply Hsame).
    unfold bind, Processor.add_depth.
    destruct (Processor._depth p) as [n|]; simpl; try (now apply Hsame).
    destruct (0 <? n + -1); simpl;
      try (split; [discriminate|reflexivity]).
    unfold Processor.call_driver. simpl.
    destruct (Processor._driver p); simpl;
      try (split; [rewrite ?E; discriminate|reflexivity]).
    destruct (SAXDriver_call _ _). simpl.
    split; [rewrite ?E; discriminate|reflexivity].
Qed.

(** X26.  The stanza parser cannot be exchanged while a stream is in
    progress: from a state other than [CLEAN], after any sequence of
    callbacks without an [endDocument], whatever they are and whether they
    return or raise, the processor is still not [CLEAN], the stanza parser
    is the one it was, and assigning [stanza_parser] raises the
    [RuntimeError] and changes nothing. *)
Theorem stanza_parser_fixed_during_stream :
  forall (cs : list (Processor.callback StanzaParser)) (p : processor)
         (value : option StanzaParser),
    Processor._state p <> Processor.CLEAN ->
    existsb is_end_document cs = false ->
    Processor._state (run cs p) <> Processor.CLEAN
    /\ Processor._stanza_parser (run cs p) = Processor._stanza_parser p
    /\ Processor.set_stanza_parser_property JID StanzaParser SAXDriver
         value (run cs p)
       = (run cs p, Raise Processor.invalid_state).
Proof.
  intros cs p value Hst Hcs.
  assert (H : Processor._state (run cs p) <> Processor.CLEAN
              /\ Processor._stanza_parser (run cs p)
                 = Processor._stanza_parser p).
  { revert p Hst Hcs. induction cs as [|c cs IH]; intros p Hst Hcs.
    - split; [exact Hst | reflexivity].
    - simpl in Hcs. apply Bool.orb_false_iff in Hcs as [Hc Hcs].
      destruct (perform_in_stream c p Hst Hc) as [H1 H2].
      destruct (IH _ H1 Hcs) as [H3 H4].
      simpl. split; [exact H3 | now rewrite H4]. }
  destruct H as [H1 H2]. split; [exact H1|]. split; [exact H2|].
  unfold Processor.set_stanza_parser_property.
  destruct (Processor._state (run cs p)); try reflexivity. now elim H1.
Qed.

End ProcessorMore.

(** * Properties of write_objects *)

Lemma dict_set_fresh {A} k (v : A) d :
  dict_mem k d = false -> dict_set k v d = d ++ [(k, v)].
Proof.
  unfold dict_mem. induction d as [|[k' v'] d IH]; simpl; [reflexivity|].
  destruct (opt_str_eqb k' k); [discriminate|].
  intros H. now rewrite IH.
Qed.

Lemma dict_mem_app {A} k (d1 d2 : dict A) :
  dict_mem k (d1 ++ d2) = dict_mem k d1 || dict_mem k d2.
Proof.
  induction d1 as [|[k' v'] d1 IH]; simpl; [reflexivity|].
  rewrite !dict_mem_cons, IH. now rewrite orb_assoc.
Qed.

Lemma dict_update_keys_NoDup {A} (d new : dict A) :
  NoDup (dict_keys d) -> NoDup (dict_keys (dict_update d new)).
Proof.
  unfold dict_update. revert d.
  induction new as [|[k v] new IH]; intros d H; simpl; [exact H|].
  apply IH. now apply dict_keys_set_NoDup.
Qed.

Lemma keys_minus_nil {A} (d : dict A) : keys_minus d [] = dict_keys d.
Proof.
  unfold keys_minus. generalize (dict_keys d). intros l.
  induction l as [|k l IH]; simpl; [reflexivity | now f_equal].
Qed.

Lemma set_without_members (s : pyset) :
  (forall k, set_mem k s = false) -> s = [].
Proof.
  destruct s as [|x s]; [reflexivity|]. intros H. specialize (H x).
  unfold set_mem in H. simpl in H. now rewrite opt_str_eqb_refl in H.
Qed.

Section ObjectStream.

Import Generator.

Variable V : bytes -> bool.
Variable namespaces_xmlstream : str.

Local Abbreviation stream_name :=
  (WriteObjects.stream_name namespaces_xmlstream).
Local Abbreviation nsmap_to_use :=
  (WriteObjects.nsmap_to_use namespaces_xmlstream).
Local Abbreviation first_next :=
  (WriteObjects.first_next V namespaces_xmlstream).
Local Abbreviation send := (WriteObjects.send V namespaces_xmlstream).
Local Abbreviation throw_AbortStream :=
  (WriteObjects.throw_AbortStream V namespaces_xmlstream).
Local Abbreviation close := (WriteObjects.close V namespaces_xmlstream).

Lemma flushed_nothing_deferred (m : GenM unit) g g' :
  (m ;;; flush)%method g = (g', Ok tt) -> _pending_start_element g' = None.
Proof.
  unfold bind. destruct (m g) as [g1 [[]|e]]; [|discriminate].
  unfold flush, bind, _finish_pending_start_element.
  destruct (_pending_start_element g1) eqn:E; intros [= <-]; simpl; auto.
Qed.

(** X24.  An abort does not close the stream: at a [yield], that is after
    the first [next] or a [send] that came back, [throw(AbortStream())]
    makes the generator return, writes no byte, calls [out.flush] once and
    leaves the writer as it was otherwise; no end tag is written and no
    prefix is closed. *)
Theorem abort_only_flushes :
  forall (nsmap : dict str) (unparse_to_sax : GenM unit)
         (w0 w : XMPPXMLGenerator),
    first_next nsmap = (w, WriteObjects.Suspended)
    \/ send nsmap unparse_to_sax w0 = (w, WriteObjects.Suspended) ->
    throw_AbortStream nsmap w
    = (set_out_flushes (S (out_flushes w)) w, WriteObjects.Returned).
Proof.
  intros nsmap unparse_to_sax w0 w H.
  assert (Hp : _pending_start_element w = None).
  { destruct H as [H|H].
    - unfold WriteObjects.first_next in H.
      destruct (WriteObjects.header V namespaces_xmlstream nsmap
                  (new_generator true)) as [w1 [[]|e]] eqn:E;
        [|discriminate].
      injection H as <-. unfold WriteObjects.header in E.
      unfold bind at 1 2 in E. simpl in E.
      destruct (forM_ _ _ _) as [g1 [[]|e]]; [|discriminate].
      revert E. apply flushed_nothing_deferred.
    - unfold WriteObjects.send in H.
      destruct ((unparse_to_sax ;;; flush)%method w0) as [w1 [[]|e]] eqn:E.
      + injection H as <-. revert E. apply flushed_nothing_deferred.
      + destruct (WriteObjects.cleanup _ _ _ _ _) as [w2 [[]|e']];
          discriminate. }
  unfold WriteObjects.throw_AbortStream, WriteObjects.cleanup.
  unfold bind, ret, flush, bind, _finish_pending_start_element.
  rewrite Hp. reflexivity.
Qed.

(** *** The stream is closed as it was opened *)

Lemma startPrefixMapping_explicit_fields prefix uri g g1 :
  startPrefixMapping V prefix uri false g = (g1, Ok tt) ->
  _ns_auto_prefixes_floating_in g1 = _ns_auto_prefixes_floating_in g
  /\ _ns_counter g1 = _ns_counter g.
Proof.
  unfold startPrefixMapping.
  destruct (invalid_prefix V prefix); [discriminate|].
  destruct (dict_mem prefix _); [discriminate|].
  intros [= <-]. split; reflexivity.
Qed.

(** Announcing the entries of a map whose prefixes are valid and not
    pending. *)
Lemma declare_all (l : dict str) :
  forall g,
    NoDup (dict_keys l) ->
    (forall k, In k (dict_keys l) -> invalid_prefix V k = false) ->
    (forall k, In k (dict_keys l) ->
               dict_mem k (_ns_prefixes_floating_in g) = false) ->
    exists g',
      forM_ (fun pu : option str * str =>
               startPrefixMapping V (fst pu) (snd pu) false) l g
      = (g', Ok tt)
      /\ _ns_prefixes_floating_in g' = _ns_prefixes_floating_in g ++ l
      /\ _ns_auto_prefixes_floating_in g' = _ns_auto_prefixes_floating_in g
      /\ _ns_counter g' = _ns_counter g
      /\ (forall key, dict_mem key (_ns_decls_floating_in g) = true ->
                      dict_mem key (_ns_decls_floating_in g') = true)
      /\ (forall k v, In (k, v) l ->
                      dict_mem (Some v) (_ns_decls_floating_in g') = true).
Proof.
  induction l as [|[k v] l IH]; intros g Hnd Hvalid Hfree.
  - exists g. simpl. rewrite app_nil_r.
    repeat split; auto; try (intros ? ? []).
  - simpl in Hnd. inversion Hnd as [|x xs Hnotin Hnd']; subst.
    destruct (startPrefixMapping_accepts V k v false g) as [g1 E].
    { apply Hvalid. now left. }
    { apply Hfree. now left. }
    destruct (startPrefixMapping_explicit_fields _ _ _ _ E) as [Ha Hc].
    pose proof (startPrefixMapping_ok V _ _ _ _ _ E) as (_ & Hk & Hin & Hd).
    rewrite (dict_set_fresh _ _ _ Hk) in Hin.
    destruct (IH g1 Hnd') as (g' & E' & Hin' & Ha' & Hc' & Hgrow & Hmem).
    { intros k' Hk'. apply Hvalid. now right. }
    { intros k' Hk'. rewrite Hin, dict_mem_app, dict_mem_cons.
      rewrite (Hfree k') by now right. simpl.
      destruct (opt_str_eqb k k') eqn:Ekk; [|reflexivity].
      apply opt_str_eqb_eq in Ekk. subst k'. contradiction. }
    exists g'. split.
    { simpl. erewrite bind_ok by exact E. exact E'. }
    split; [rewrite Hin', Hin, <- app_assoc; reflexivity|].
    split; [congruence|]. split; [congruence|]. split.
    + intros key Hkey. apply Hgrow. rewrite Hd, dict_mem_set, Hkey.
      apply orb_true_r.
    + intros k' v' [[= <- <-]|Hin0].
      * apply Hgrow. rewrite Hd, dict_mem_set, opt_str_eqb_refl. reflexivity.
      * eapply Hmem; eauto.
Qed.

(** Closing, once each, prefixes that are all to be closed. *)
Lemma close_all (l : list (option str)) :
  forall g s,
    _ns_prefixes_floating_out g = PrefixSet s ->
    NoDup l ->
    (forall k, In k l -> set_mem k s = true) ->
    exists s',
      forM_ endPrefixMapping l g
      = (set_ns_prefixes_floating_out (PrefixSet s') g, Ok tt)
      /\ forall x, set_mem x s' = set_mem x s && negb (set_mem x l).
Proof.
  induction l as [|k l IH]; intros g s Hfo Hnd Hall.
  - exists s. split.
    + simpl. unfold ret. f_equal. destruct g. simpl in Hfo. now subst.
    + intros x. simpl. now rewrite andb_true_r.
  - inversion Hnd as [|x xs Hnotin Hnd']; subst.
    assert (E : endPrefixMapping k g
                = (set_ns_prefixes_floating_out
                     (PrefixSet (set_remove k s)) g, Ok tt)).
    { unfold endPrefixMapping. rewrite Hfo, (Hall k) by now left.
      reflexivity. }
    destruct (IH (set_ns_prefixes_floating_out (PrefixSet (set_remove k s)) g)
                (set_remove k s) eq_refl Hnd') as (s' & E' & Hs').
    { intros k' Hk'. rewrite set_mem_remove, (Hall k') by now right.
      simpl. destruct (opt_str_eqb k' k) eqn:Ekk; [|reflexivity].
      apply opt_str_eqb_eq in Ekk. subst k'. contradiction. }
    exists s'. split.
    + simpl. erewrite bind_ok by exact E. rewrite E'. reflexivity.
    + intros x. rewrite Hs', set_mem_remove.
      change (set_mem x (k :: l)) with (opt_str_eqb x k || set_mem x l).
      destruct (set_mem x s), (opt_str_eqb x k), (set_mem x l); reflexivity.
Qed.

(** The state [endElementNS] leaves when no start tag is deferred and the
    name resolves without a new declaration. *)
Lemma endElementNS_finished_state name g f stack q :
  floating_out_truthy (_ns_prefixes_floating_out g) = false ->
  _pending_start_element g = None ->
  _ns_map_stack g = f :: stack ->
  _qname V name false (append_written ["</"] g)
    = (append_written ["</"] g, Ok q) ->
  endElementNS V name g
  = (set_ns_counter (frame_counter f)
       (set_ns_prefixes_floating_out (frame_explicit f)
          (set_curr_ns_map (frame_ns_map f)
             (set_ns_map_stack stack
                (append_written [">"]
                   (append_written [encode q]
                      (append_written ["</"] g)))))),
     Ok tt).
Proof.
  intros Hfo Hp Hs Hq. unfold endElementNS. rewrite Hfo, Hp.
  erewrite bind_ok.
  2:{ erewrite bind_ok by apply write_eq.
      erewrite bind_ok by exact Hq.
      erewrite bind_ok by apply write_eq. apply write_eq. }
  simpl. rewrite Hs. reflexivity.
Qed.

Section BalancedStream.

Variable nsmap : dict str.

(** The prefixes of the map to use are valid, one of them is bound to the
    stream namespace, and the stream namespace is not the empty string. *)
Hypothesis prefixes_valid :
  forall k, In k (dict_keys (nsmap_to_use nsmap)) -> invalid_prefix V k = false.
Hypothesis stream_declared :
  exists prefix, In (prefix, namespaces_xmlstream) (nsmap_to_use nsmap).
Hypothesis stream_namespace_true : truthy (Some namespaces_xmlstream) = true.

Lemma nsmap_to_use_NoDup : NoDup (dict_keys (nsmap_to_use nsmap)).
Proof.
  apply dict_update_keys_NoDup. simpl. repeat constructor. intros [].
Qed.

Lemma stream_local_name_valid :
  (contains_char ":" "stream" || negb (xmlValidateNameValue_str V "stream"))
  = false.
Proof.
  assert (H : invalid_prefix V (Some "stream"%string) = false).
  { apply prefixes_valid. apply dict_mem_In.
    unfold WriteObjects.nsmap_to_use. rewrite dict_mem_update.
    reflexivity. }
  unfold invalid_prefix in H. simpl in H. simpl.
  destruct (xmlValidateNameValue_str V "stream"); [reflexivity|].
  simpl in H. discriminate.
Qed.

(** The writer after the declarations of the header. *)
Lemma header_declarations :
  exists g,
    forM_ (fun pu : option str * str =>
             startPrefixMapping V (fst pu) (snd pu) false)
      (nsmap_to_use nsmap) (new_generator true)
    = (g, Ok tt)
    /\ g = set_ns_decls_floating_in (_ns_decls_floating_in g)
             (set_ns_prefixes_floating_in (nsmap_to_use nsmap)
                (new_generator true))
    /\ decls_ok g
    /\ dict_mem (Some namespaces_xmlstream) (_ns_decls_floating_in g) = true.
Proof.
  destruct (declare_all (nsmap_to_use nsmap) (new_generator true)
              nsmap_to_use_NoDup prefixes_valid)
    as (g & E & Hin & Ha & Hc & _ & Hmem); [reflexivity|].
  exists g. split; [exact E|].
  set (m := forM_ (fun pu : option str * str =>
                     startPrefixMapping V (fst pu) (snd pu) false)
              (nsmap_to_use nsmap)) in *.
  assert (Hsc : same_scope (new_generator true) g).
  { pose proof (preserves_forM_ same_scope same_scope_refl same_scope_trans
                  (fun pu : option str * str =>
                     startPrefixMapping V (fst pu) (snd pu) false)
                  (nsmap_to_use nsmap)
                  (fun pu => same_scope_declare V _ _ _)
                  (new_generator true)) as H.
    fold m in H. now rewrite E in H. }
  assert (Hsk : same_sink (new_generator true) g).
  { pose proof (preserves_forM_ same_sink same_sink_refl same_sink_trans
                  (fun pu : option str * str =>
                     startPrefixMapping V (fst pu) (snd pu) false)
                  (nsmap_to_use nsmap)
                  (fun pu => same_sink_declare V _ _ _)
                  (new_generator true)) as H.
    fold m in H. now rewrite E in H. }
  assert (Hfl : same_flushes (new_generator true) g).
  { pose proof (preserves_forM_ same_flushes same_flushes_refl
                  same_flushes_trans
                  (fun pu : option str * str =>
                     startPrefixMapping V (fst pu) (snd pu) false)
                  (nsmap_to_use nsmap)
                  (fun pu => same_flushes_declare V _ _ _)
                  (new_generator true)) as H.
    fold m in H. now rewrite E in H. }
  assert (Hex : extends (new_generator true) g).
  { pose proof (preserves_forM_ extends extends_refl extends_trans
                  (fun pu : option str * str =>
                     startPrefixMapping V (fst pu) (snd pu) false)
                  (nsmap_to_use nsmap)
                  (fun pu => extends_declare V _ _ _)
                  (new_generator true)) as H.
    fold m in H. now rewrite E in H. }
  assert (Hok : decls_ok g).
  { pose proof (preserves_forM_ keeps_decls_ok keeps_decls_ok_refl
                  keeps_decls_ok_trans
                  (fun pu : option str * str =>
                     startPrefixMapping V (fst pu) (snd pu) false)
                  (nsmap_to_use nsmap)
                  (fun pu => keeps_decls_ok_declare V _ _ _)
                  (new_generator true)) as H.
    fold m in H. rewrite E in H. apply H. split; [reflexivity | constructor]. }
  split; [|split; [exact Hok|]].
  - destruct Hsc as (H1 & H2 & H3 & H4). destruct Hsk as [H5 H6].
    destruct Hex as (nums & H7 & H8).
    assert (Hn : nums = []).
    { destruct nums as [|n r]; [reflexivity|]. simpl in H8.
      destruct H8 as [Hn1 Hn2]. apply desc_between_le in Hn2.
      rewrite Hc in Hn1. simpl in Hn1. lia. }
    subst nums. simpl in H7. unfold same_flushes in Hfl.
    destruct g. simpl in *. unfold set_ns_decls_floating_in,
      set_ns_prefixes_floating_in. simpl. congruence.
  - destruct stream_declared as [prefix Hp]. eapply Hmem; eauto.
Qed.


End BalancedStream.

End ObjectStream.

(** * Witnesses of the further properties *)

Section FurtherExamples.

Import Generator.

Lemma element_scope_is_restored_witness :
  _curr_ns_map ended_b = _curr_ns_map announced_p
  /\ _ns_map_stack ended_b = _ns_map_stack announced_p
  /\ _ns_counter ended_b = _ns_counter announced_p.
Proof.
  apply (element_scope_is_restored ascii_name announced_p started_b ended_b
           element_b element_b []); vm_compute; reflexivity.
Defined.

Lemma unclosed_explicit_prefix_is_reported_witness :
  dict_mem (Some "p"%string) (_ns_prefixes_floating_in announced_p) = true
  /\ (forall n,
        endElementNS ascii_name n ended_b
        = (ended_b,
           Raise (RuntimeError "namespace prefix has not been closed")))
  /\ snd (endPrefixMapping (Some "p"%string) ended_b) = Ok tt.
Proof.
  split; [vm_compute; reflexivity|].
  assert (Hs : startElementNS ascii_name element_b [] announced_p
               = (started_b, Ok tt)) by (vm_compute; reflexivity).
  assert (He : endElementNS ascii_name element_b started_b
               = (ended_b, Ok tt)) by (vm_compute; reflexivity).
  assert (Hp : dict_mem (Some "p"%string)
                 (_ns_prefixes_floating_in announced_p) = true)
    by (vm_compute; reflexivity).
  assert (Ha : set_mem (Some "p"%string)
                 (_ns_auto_prefixes_floating_in announced_p) = false)
    by (vm_compute; reflexivity).
  destruct (unclosed_explicit_prefix_is_reported ascii_name
              announced_p started_b ended_b (Some "p"%string)
              element_b element_b [] Hp Ha Hs He)
    as (H1 & _ & H3).
  split; [exact H1 | exact H3].
Defined.

Lemma endPrefixMapping_closes_once_witness :
  endPrefixMapping (Some "p"%string) ended_b
  = (fst (endPrefixMapping (Some "p"%string) ended_b), Ok tt)
  /\ endPrefixMapping (Some "p"%string)
       (fst (endPrefixMapping (Some "p"%string) ended_b))
     = (fst (endPrefixMapping (Some "p"%string) ended_b), Raise KeyError).
Proof.
  assert (H : endPrefixMapping (Some "p"%string) ended_b
              = (fst (endPrefixMapping (Some "p"%string) ended_b), Ok tt))
    by (vm_compute; reflexivity).
  split; [exact H|].
  apply (endPrefixMapping_closes_once ended_b
           (fst (endPrefixMapping (Some "p"%string) ended_b))
           (Some "p"%string) H).
Defined.

Lemma endPrefixMapping_before_any_close_witness :
  existsb is_end_element [CallStartElementNS element_b []] = false
  /\ endPrefixMapping None
       (fst (run ascii_name [CallStartElementNS element_b []]
               (new_generator true)))
     = (fst (run ascii_name [CallStartElementNS element_b []]
               (new_generator true)),
        Raise AttributeError).
Proof.
  split; [reflexivity|].
  apply (endPrefixMapping_before_any_close ascii_name true
           [CallStartElementNS element_b []] None).
  reflexivity.
Defined.

Lemma qname_is_stable_witness :
  _qname ascii_name element_b false (new_generator true)
  = (fst (_qname ascii_name element_b false (new_generator true)),
     Ok "ns0:b"%string)
  /\ _qname ascii_name element_b false
       (fst (_qname ascii_name element_b false (new_generator true)))
     = (fst (_qname ascii_name element_b false (new_generator true)),
        Ok "ns0:b"%string).
Proof.
  assert (H : _qname ascii_name element_b false (new_generator true)
              = (fst (_qname ascii_name element_b false (new_generator true)),
                 Ok "ns0:b"%string)) by (vm_compute; reflexivity).
  split; [exact H|].
  apply (qname_is_stable ascii_name (new_generator true)
           (fst (_qname ascii_name element_b false (new_generator true)))
           element_b false "ns0:b"%string H).
Defined.

Lemma declared_prefix_is_used_witness :
  _qname ascii_name element_b false announced_p
  = (announced_p, Ok "p:b"%string).
Proof.
  apply (declared_prefix_is_used ascii_name (new_generator true) announced_p
           (Some "p"%string) "uri:two"%string "b"%string false);
    vm_compute; reflexivity.
Defined.

Lemma pending_declarations_become_active_witness :
  reachable ascii_name announced_p
  /\ dict_get (Some "uri:two"%string) (_ns_decls_floating_in announced_p)
     = Some (Some "p"%string)
  /\ _ns_prefixes_floating_in started_b = []
  /\ dict_get (Some "uri:two"%string) (_curr_ns_map started_b)
     = Some (Some "p"%string).
Proof.
  assert (Hreach : reachable ascii_name announced_p).
  { exists true, [CallStartPrefixMapping (Some "p"%string) "uri:two"].
    vm_compute. reflexivity. }
  split; [exact Hreach|]. split; [vm_compute; reflexivity|].
  assert (Hs : startElementNS ascii_name element_b [] announced_p
               = (started_b, Ok tt)) by (vm_compute; reflexivity).
  destruct (pending_declarations_become_active ascii_name announced_p
              started_b element_b [] Hreach Hs)
    as (H1 & _ & H3 & _).
  split; [exact H1 | apply H3; vm_compute; reflexivity].
Defined.

Lemma xmlns_attribute_is_rejected_witness :
  is_raise (snd (startElementNS ascii_name element_b
                   [((None, "xmlns"), "uri:x")]%string
                   (new_generator true))) = true
  /\ out_written (fst (startElementNS ascii_name element_b
                         [((None, "xmlns"), "uri:x")]%string
                         (new_generator true)))
     = out_written (fst (_finish_pending_start_element (new_generator true))).
Proof.
  apply (xmlns_attribute_is_rejected ascii_name (new_generator true)
           element_b [((None, "xmlns"), "uri:x")]%string "uri:x"%string).
  left. reflexivity.
Defined.

Lemma characters_writes_no_markup_witness :
  exists chunk,
    out_written (fst (characters "a<b>c"%string (new_generator true)))
    = out_written (fst (_finish_pending_start_element (new_generator true)))
      ++ [chunk]
    /\ any_char markup_or_control chunk = false.
Proof.
  apply (characters_writes_no_markup (new_generator true)
           (fst (characters "a<b>c"%string (new_generator true)))
           "a<b>c"%string).
  vm_compute. reflexivity.
Defined.

Lemma abort_only_flushes_witness :
  WriteObjects.throw_AbortStream ascii_name rfc_xmlstream []
    (fst (WriteObjects.first_next ascii_name rfc_xmlstream []))
  = (set_out_flushes
       (S (out_flushes
             (fst (WriteObjects.first_next ascii_name rfc_xmlstream []))))
       (fst (WriteObjects.first_next ascii_name rfc_xmlstream [])),
     WriteObjects.Returned).
Proof.
  apply (abort_only_flushes ascii_name rfc_xmlstream [] (ret tt)
           (new_generator true)
           (fst (WriteObjects.first_next ascii_name rfc_xmlstream []))).
  left. vm_compute. reflexivity.
Defined.


End FurtherExamples.

Lemma stream_header_accepted_witness :
  Processor._state started_processor = Processor.STARTED
  /\ Processor._state body_processor = Processor.STREAM_HEADER_PROCESSED
  /\ Processor._depth body_processor = Some 1
  /\ Processor.remote_from body_processor = Some "a@b"%string.
Proof.
  split; [reflexivity|].
  assert (Hparse : Processor.map_int int_of_digits
                     (Processor.split_char "." "1.0") = inr [1; 0])
    by (vm_compute; reflexivity).
  pose proof (stream_header_accepted rfc_xmlstream rfc_streams str jid_of_str
                int_of_digits unit unit unit_driver_call
                started_processor None header_attributes
                "1.0"%string "a@b"%string "s1"%string "a@b"%string None 0
                eq_refl eq_refl eq_refl Hparse eq_refl eq_refl eq_refl
                eq_refl) as H.
  unfold body_processor. rewrite H. repeat split.
Defined.

Lemma header_is_all_or_nothing_witness :
  Processor.forwarded
    (fst (Processor.startElementNS rfc_xmlstream rfc_streams str jid_of_str
            int_of_digits unit unit unit_driver_call
            (Some "jabber:client"%string, "message"%string) None []
            started_processor))
  = Processor.forwarded started_processor.
Proof.
  destruct (header_is_all_or_nothing rfc_xmlstream rfc_streams str jid_of_str
              int_of_digits unit unit unit_driver_call
              started_processor
              (Some "jabber:client"%string, "message"%string) None [] 0
              eq_refl eq_refl) as (H & _).
  exact H.
Defined.

Lemma missing_version_is_rejected_witness :
  Processor.startElementNS rfc_xmlstream rfc_streams str jid_of_str
    int_of_digits unit unit unit_driver_call
    (Some rfc_xmlstream, "stream"%string) None
    [((None, "from"), "a@b"); ((None, "id"), "s1")]%string
    started_processor
  = (Processor.set_remote_version (Some [0; 9]) started_processor,
     Raise (Processor.unsupported_version rfc_streams "0.9")).
Proof.
  apply (missing_version_is_rejected rfc_xmlstream rfc_streams str jid_of_str
           int_of_digits unit unit unit_driver_call started_processor None
           [((None, "from"), "a@b"); ((None, "id"), "s1")]%string);
    vm_compute; reflexivity.
Defined.

Lemma missing_from_or_id_is_rejected_witness :
  snd (Processor.startElementNS rfc_xmlstream rfc_streams str jid_of_str
         int_of_digits unit unit unit_driver_call
         (Some rfc_xmlstream, "stream"%string) None
         [((None, "version"), "1.0"); ((None, "id"), "s1")]%string
         started_processor)
  = Raise (Processor.undefined_condition rfc_streams
             "from attribute required in response header").
Proof.
  assert (Hparse : Processor.map_int int_of_digits
                     (Processor.split_char "." "1.0") = inr [1; 0])
    by (vm_compute; reflexivity).
  destruct (missing_from_or_id_is_rejected rfc_xmlstream rfc_streams str
              jid_of_str int_of_digits unit unit unit_driver_call
              started_processor None
              [((None, "version"), "1.0"); ((None, "id"), "s1")]%string
              "1.0"%string eq_refl eq_refl Hparse I) as [H _].
  apply H. reflexivity.
Defined.

Lemma nothing_forwarded_outside_body_witness :
  Processor._state started_processor <> Processor.STREAM_HEADER_PROCESSED
  /\ Processor.forwarded
       (fst (Processor.perform rfc_xmlstream rfc_streams str jid_of_str
               int_of_digits unit unit (fun _ => tt) unit_driver_call
               (Processor.CbCharacters unit "x") started_processor))
     = Processor.forwarded started_processor.
Proof.
  assert (H : Processor._state started_processor
              <> Processor.STREAM_HEADER_PROCESSED) by discriminate.
  split; [exact H|].
  apply (nothing_forwarded_outside_body rfc_xmlstream rfc_streams str
           jid_of_str int_of_digits unit unit (fun _ => tt) unit_driver_call
           (Processor.CbCharacters unit "x") started_processor H).
Defined.

Lemma depth_counts_open_elements_witness :
  depth_matches_state body_processor.
Proof.
  apply (depth_counts_open_elements rfc_xmlstream rfc_streams str jid_of_str
           int_of_digits unit unit (fun _ => tt) unit_driver_call).
  exists [Processor.CbStartDocument unit;
          Processor.CbStartElementNS unit
            (Some rfc_xmlstream, "stream"%string) None header_attributes].
  vm_compute. reflexivity.
Defined.

Lemma body_element_round_trip_witness :
  exists p1 p2,
    Processor.startElementNS rfc_xmlstream rfc_streams str jid_of_str
      int_of_digits unit unit unit_driver_call
      (Some "jabber:client"%string, "message"%string) None [] body_processor
    = (p1, Ok tt)
    /\ Processor.endElementNS str unit unit unit_driver_call
         (Some "jabber:client"%string, "message"%string) None p1
       = (p2, Ok tt)
    /\ Processor._depth p2 = Some 1.
Proof.
  destruct (body_element_round_trip rfc_xmlstream rfc_streams str jid_of_str
              int_of_digits unit unit unit_driver_call
              body_processor
              (Some "jabber:client"%string, "message"%string)
              (Some "jabber:client"%string, "message"%string)
              None None [] tt tt tt 1
              ltac:(vm_compute; reflexivity) ltac:(vm_compute; reflexivity)
              (Z.le_refl 1) ltac:(vm_compute; reflexivity) eq_refl eq_refl)
    as (p1 & p2 & H1 & H2 & _ & H4 & _).
  exists p1, p2. auto.
Defined.

Lemma envelope_end_and_reuse_witness :
  Processor._depth body_processor = Some 1
  /\ Processor._state
       (fst (Processor.endElementNS str unit unit unit_driver_call
               (Some rfc_xmlstream, "stream"%string) None body_processor))
     = Processor.STREAM_FOOTER_PROCESSED.
Proof.
  split; [vm_compute; reflexivity|].
  destruct (envelope_end_and_reuse str unit unit (fun _ => tt)
              unit_driver_call body_processor
              (Some rfc_xmlstream, "stream"%string) None
              ltac:(vm_compute; reflexivity) ltac:(vm_compute; reflexivity))
    as (_ & H & _).
  exact H.
Defined.

Lemma stanza_parser_fixed_during_stream_witness :
  let p := Processor.run rfc_xmlstream rfc_streams str jid_of_str
             int_of_digits unit unit (fun _ => tt) unit_driver_call
             [Processor.CbStartElementNS unit
                (Some rfc_xmlstream, "stream"%string) None header_attributes;
              Processor.CbComment unit "c"%string]
             started_processor in
  Processor._state p <> Processor.CLEAN
  /\ Processor._stanza_parser p = Processor._stanza_parser started_processor
  /\ Processor.set_stanza_parser_property str unit unit (Some tt) p
     = (p, Raise Processor.invalid_state).
Proof.
  apply (stanza_parser_fixed_during_stream rfc_xmlstream rfc_streams str
           jid_of_str int_of_digits unit unit (fun _ => tt) unit_driver_call
           [Processor.CbStartElementNS unit
              (Some rfc_xmlstream, "stream"%string) None header_attributes;
            Processor.CbComment unit "c"%string]
           started_processor (Some tt)).
  - vm_compute. discriminate.
  - reflexivity.
Defined.
